(** * grasplan: placement-pose generator and grasp editor panel

    A shallow embedding of
      - [src/grasplan/tools/support_plane_tools.py] (modules [PlaneTools]
        and [PlaneObjects]) and
      - [src/grasplan/rqt_grasplan/rqt_grasplan.py] (modules [Editor],
        [Pattern], [GraspYaml] and [Transform]),
    together with the properties of the specification that concern them
    and, in the last part, further properties of the two files.
    The embedding comes first, then the definitions the properties are
    stated with (modules [...Spec]), then the properties and their proofs
    (modules [...Props]).

    Numbers.  Python floats are idealised as exact numbers: rationals [Q]
    wherever the code only adds, subtracts, multiplies, divides, compares
    and rounds (every definition there computes), and reals [R] where the
    code calls trigonometric functions (the quaternion algebra of the
    pattern editor).  Rounding error of binary64 arithmetic is therefore
    outside the model; statements made "within floating tolerance" are
    established as exact identities of the idealised arithmetic.

    Exceptions.  A Python call either returns or raises; [result] records
    which, and the constructors of [exn] are the exception classes the code
    can raise.

    Logging.  The messages of [rospy.loginfo] and [rospy.logwarn] are
    recorded where a property speaks about them (the placement
    generator); in the editor only [log_error], the dialog shown to the
    user, is recorded.  Publishing to topics is recorded for
    [publish_grasps] only. *)

From Stdlib Require Import ZArith NArith QArith Qround Qminmax Qabs Lia Lqa.
From Stdlib Require Import List Bool String Ascii Permutation.
From Stdlib Require Import Reals Lra Qreals.
Import ListNotations.

Set Implicit Arguments.

(* ================================================================= *)
(** ** Python values shared by both source files *)

Module Py.

Inductive exn : Type :=
| ValueError (msg : string)
| KeyError (key : string)
| IndexError
| TypeError
| AttributeError.

Inductive result (A : Type) : Type :=
| Ok (a : A)
| Raise (e : exn).
Arguments Ok {A} a.
Arguments Raise {A} e.

Definition bind {A B} (r : result A) (k : A -> result B) : result B :=
  match r with
  | Ok a => k a
  | Raise e => Raise e
  end.

Definition is_ok {A} (r : result A) : bool :=
  match r with Ok _ => true | Raise _ => false end.

(** [l[i]] for a Python list: negative indices count from the end, an
    index outside [-len, len) raises IndexError. *)
Definition index {A} (l : list A) (i : Z) : result A :=
  let n := Z.of_nat (List.length l) in
  let j := if (i <? 0)%Z then (i + n)%Z else i in
  if ((j <? 0) || (n <=? j))%Z%bool then Raise IndexError
  else match nth_error l (Z.to_nat j) with
       | Some a => Ok a
       | None => Raise IndexError
       end.

(** [del l[i]], same index convention. *)
Definition del {A} (l : list A) (i : Z) : result (list A) :=
  let n := Z.of_nat (List.length l) in
  let j := if (i <? 0)%Z then (i + n)%Z else i in
  if ((j <? 0) || (n <=? j))%Z%bool then Raise IndexError
  else Ok (firstn (Z.to_nat j) l ++ skipn (S (Z.to_nat j)) l).

(** [round(x)] to the nearest integer, ties to the even one, and
    [round(x, ndigits)] on exact numbers. *)
Definition round_half_even (q : Q) : Z :=
  let f := Qfloor q in
  match (q - inject_Z f ?= 1 # 2)%Q with
  | Lt => f
  | Gt => (f + 1)%Z
  | Eq => if Z.even f then f else (f + 1)%Z
  end.

Definition pow10 (n : nat) : Z := (10 ^ Z.of_nat n)%Z.

Definition round (q : Q) (ndigits : nat) : Q :=
  (inject_Z (round_half_even (q * inject_Z (pow10 ndigits)))
   / inject_Z (pow10 ndigits))%Q.

(** [min(xs)] and [max(xs)] over a non-empty iterable: the running best
    is replaced only by a strictly smaller (larger) item; an empty
    iterable raises ValueError. *)
Definition min (l : list Q) : result Q :=
  match l with
  | [] => Raise (ValueError "min() arg is an empty sequence")
  | x :: xs => Ok (fold_left Qmin xs x)
  end.

Definition max (l : list Q) : result Q :=
  match l with
  | [] => Raise (ValueError "max() arg is an empty sequence")
  | x :: xs => Ok (fold_left Qmax xs x)
  end.

End Py.

Import Py.

Notation "x <- c1 ;; c2" := (Py.bind c1 (fun x => c2))
  (at level 61, c1 at next level, right associativity).

(* ================================================================= *)
(** ** support_plane_tools.py *)

Module PlaneTools.

Local Open Scope Q_scope.

(** geometry_msgs/Point. *)
Record Point : Type := mkPoint { p_x : Q; p_y : Q; p_z : Q }.

(** The float [math.pi]: the binary64 number nearest to pi, which is the
    rational 884279719003555 / 2^48. *)
Definition math_pi : Q := 884279719003555 # 281474976710656.

Definition Qltb (a b : Q) : bool := negb (Qle_bool b a).

(* ----------------------------------------------------------------- *)
(** *** compute_object_height_for_insertion *)

(** A dict literal whose keys are strings; [d[k]] raises KeyError when
    [k] is not a key. *)
Fixpoint getitem (d : list (string * Q)) (k : string) : result Q :=
  match d with
  | [] => Raise (KeyError k)
  | (k', v) :: d' => if String.eqb k' k then Ok v else getitem d' k
  end.

(** ohd : objects height dictionary. *)
Definition ohd : list (string * Q) :=
  [ ("power_drill_with_grip"%string, 0.2205359935760498);
    ("klt"%string, 0.14699999809265138);
    ("multimeter"%string, 0.04206399992108345);
    ("relay"%string, 0.10436400026082993);
    ("screwdriver"%string, 0.034412000328302383);
    ("insole"%string, 0.21);
    ("bag"%string, 0.34) ].

(** [gap_between_objects] defaults to 0.02 in the source.  The
    subscription [ohd[support_obj_class]] is evaluated first. *)
Definition compute_object_height_for_insertion
    (object_class_tbi support_obj_class : string) (gap_between_objects : Q)
  : result Q :=
  hs <- getitem ohd support_obj_class ;;
  ht <- getitem ohd object_class_tbi ;;
  Ok ((hs / 2) + (ht / 2) + gap_between_objects).

(* ----------------------------------------------------------------- *)
(** *** well_separated *)

Definition sqdist (a b : Q * Q) : Q :=
  (fst a - fst b) * (fst a - fst b) + (snd a - snd b) * (snd a - snd b).

(** [math.dist(a, b) > d] on exact numbers, decided without extracting the
    square root: a negative [d] is below every distance, and otherwise
    the squares are compared (lemma [dist_gt_sqrt] relates this to the
    real square root). *)
Definition dist_gt (a b : Q * Q) (d : Q) : bool :=
  Qltb d 0 || Qltb (d * d) (sqdist a b).

Definition well_separated (x_y_list : list (Q * Q)) (candidate_x candidate_y : Q)
    (min_dist : Q) : bool :=
  if (List.length x_y_list =? 0)%nat then true
  else
    let true_count :=
      fold_left (fun tc p =>
                   if dist_gt (candidate_x, candidate_y) p min_dist
                   then S tc else tc)
                x_y_list O in
    if (true_count =? List.length x_y_list)%nat then true else false.

(* ----------------------------------------------------------------- *)
(** *** adjust_plane *)

(** [set(xs)] of floats, as the list of its distinct members. *)
Fixpoint py_set (l : list Q) : list Q :=
  match l with
  | [] => []
  | x :: l' => x :: filter (fun y => negb (Qeq_bool x y)) (py_set l')
  end.

Definition not_parallel_msg : string := "Plane is not parallel to the XY plane".

Definition adjust_plane (plane : list Point)
    (x_extend y_extend x_offset y_offset : Q) : result (list Point) :=
  if negb (List.length (py_set (map p_z plane)) <=? 1)%nat
  then Raise (ValueError not_parallel_msg)
  else
    let plane := map (fun p => mkPoint (p_x p + x_offset) (p_y p + y_offset) (p_z p))
                     plane in
    min_x <- Py.min (map p_x plane) ;;
    max_x <- Py.max (map p_x plane) ;;
    min_y <- Py.min (map p_y plane) ;;
    max_y <- Py.max (map p_y plane) ;;
    p0 <- Py.index plane 0 ;;
    Ok [ mkPoint (min_x - x_extend) (min_y - y_extend) (p_z p0);
         mkPoint (max_x + x_extend) (min_y - y_extend) (p_z p0);
         mkPoint (max_x + x_extend) (max_y + y_extend) (p_z p0);
         mkPoint (min_x - x_extend) (max_y + y_extend) (p_z p0) ].

(* ----------------------------------------------------------------- *)
(** *** The planning scene, as far as the generator reads it *)

(** shape_msgs/SolidPrimitive. *)
Record SolidPrimitive : Type :=
  mkPrimitive { prim_type : Z; dimensions : list Q }.

(** moveit_msgs/CollisionObject: the pose position and the primitives. *)
Record CollisionObject : Type :=
  mkCollisionObject { co_position : Point; primitives : list SolidPrimitive }.

(** The planning-scene interface: the known collision objects by name
    ([get_known_object_names], [get_objects]) and the [object] of each
    attached object ([get_attached_objects], a dict in its iteration
    order). *)
Record PlanningScene : Type :=
  mkScene { known_objects : list (string * CollisionObject);
            attached_objects : list (string * CollisionObject) }.

Fixpoint lookup_object (l : list (string * CollisionObject)) (k : string)
  : option CollisionObject :=
  match l with
  | [] => None
  | (k', v) :: l' => if String.eqb k' k then Some v else lookup_object l' k
  end.

Definition get_obj_from_planning_scene (obj_name : string)
    (planning_scene : PlanningScene) : result CollisionObject :=
  match lookup_object (known_objects planning_scene) obj_name with
  | None =>
      Raise (ValueError ("Object '" ++ obj_name ++ "' not in planning scene"))
  | Some o => Ok o
  end.

(** [offset] defaults to 0.001. *)
Definition attached_obj_height (attached_obj : string)
    (planning_scene : PlanningScene) (offset : Q) : result Q :=
  collision_object <- get_obj_from_planning_scene attached_obj planning_scene ;;
  first_attached <- Py.index (map snd (attached_objects planning_scene)) 0 ;;
  prim <- Py.index (primitives first_attached) 0 ;;
  half_height_att_obj <- Py.index (dimensions prim) 2 ;;
  Ok (half_height_att_obj + p_z (co_position collision_object) * 2 + offset).

(* ----------------------------------------------------------------- *)
(** *** gen_place_poses_from_plane *)

(** What the function reports through rospy. *)
Inductive log_msg : Type :=
| WarnMinDistOverridden (shown : Q)
    (* 'number of poses is greater than 100, min_dist will be set to ...';
       the message is formatted after min_dist was reassigned *)
| WarnIgnoringMinDist (object_class : string)
    (* 'ignoring min dist param for object: ...' *)
| WarnCouldNotSeparate (min_dist : Q)
    (* 'Could not generate poses too much separated from each other ...' *)
| InfoCovering360.
    (* 'covering 360 angle for each pose' *)

Definition is_cap_warning (m : log_msg) : bool :=
  match m with WarnCouldNotSeparate _ => true | _ => false end.

Section Generator.

(** [tf.transformations.quaternion_from_euler] belongs to the tf library;
    the generator only stores what it returns, so the function and the
    type of its results stay parameters. *)
Variable quat : Type.
Variable quaternion_from_euler : Q -> Q -> Q -> quat.

(** The random source: [random k] is the value in [0, 1) that the k-th
    call of [random.random()] made during one run returns. *)
Variable random : nat -> Q.

(** [random.uniform(a, b)] is [a + (b - a) * random.random()]. *)
Definition uniform (a b : Q) (k : nat) : Q := a + (b - a) * random k.

(** object_pose_msgs/ObjectPose. *)
Record ObjectPose : Type :=
  mkObjectPose { class_id : string;
                 instance_id : Z;
                 position : Point;
                 orientation : quat }.

Variable object_class : string.
Variable support_object : string.
Variable plane : list Point.
Variable planning_scene : PlanningScene.
Variable number_of_poses : Z.
Variable ignore_min_dist_list : list string.

(** The two draws of one attempt of the sampling loop. *)
Definition candidate (draws : nat) : result (Q * Q) :=
  p0 <- Py.index plane 0 ;;
  p1 <- Py.index plane 1 ;;
  let candidate_x := Py.round (uniform (p_x p0) (p_x p1) draws) 4 in
  p0' <- Py.index plane 0 ;;
  p3 <- Py.index plane 3 ;;
  let candidate_y := Py.round (uniform (p_y p0') (p_y p3) (S draws)) 4 in
  Ok (candidate_x, candidate_y).

Definition max_attempts : Z := 50000.

(** The [while 1:] loop.  [fuel] bounds the number of iterations the model
    may run; [None] means the bound was reached before the loop left.
    The result is the accepted position, the number of draws consumed so
    far and the warnings logged. *)
Fixpoint sample_position (fuel : nat) (x_y_list : list (Q * Q)) (min_dist : Q)
    (draws : nat) (count : Z) (logged : list log_msg)
  : option (result (Q * Q * nat * list log_msg)) :=
  match fuel with
  | O => None
  | S fuel' =>
      match candidate draws with
      | Raise e => Some (Raise e)
      | Ok (candidate_x, candidate_y) =>
          let draws := (draws + 2)%nat in
          if existsb (String.eqb support_object) ignore_min_dist_list then
            Some (Ok (candidate_x, candidate_y, draws,
                      logged ++ [WarnIgnoringMinDist object_class]))
          else if well_separated x_y_list candidate_x candidate_y min_dist then
            Some (Ok (candidate_x, candidate_y, draws, logged))
          else
            let count := (count + 1)%Z in
            if (count >? max_attempts)%Z then
              Some (Ok (candidate_x, candidate_y, draws,
                        logged ++ [WarnCouldNotSeparate min_dist]))
            else sample_position fuel' x_y_list min_dist draws count logged
      end
  end.

(** The [for _ in range(7)] sweep over yaw; [k] iterations remain. *)
Fixpoint sweep (k : nat) (pos : Point) (roll pitch yaw : Q) (place_poses_id : Z)
  : list ObjectPose :=
  match k with
  | O => []
  | S k' =>
      mkObjectPose object_class place_poses_id pos
                   (quaternion_from_euler roll pitch yaw)
      :: sweep k' pos roll pitch (yaw + 0.5) (place_poses_id + 1)%Z
  end.

(** The local state of the function between two iterations of the outer
    loop; [x_y_list] holds the accepted positions in acceptance order. *)
Record gen_state : Type :=
  mkGen { draws : nat;
          x_y_list : list (Q * Q);
          objects : list ObjectPose;
          place_poses_id : Z;
          logged : list log_msg }.

(** One iteration of [for _ in range(1, number_of_poses + 1)]. *)
Definition place_one (fuel : nat) (min_dist : Q) (st : gen_state)
  : option (result gen_state) :=
  match sample_position fuel (x_y_list st) min_dist (draws st) 0 (logged st) with
  | None => None
  | Some (Raise e) => Some (Raise e)
  | Some (Ok (candidate_x, candidate_y, draws1, logged1)) =>
      let x_y_list1 := x_y_list st ++ [(candidate_x, candidate_y)] in
      match attached_obj_height support_object planning_scene 0.001 with
      | Raise e => Some (Raise e)
      | Ok z =>
          let pos := mkPoint candidate_x candidate_y z in
          let roll0 := 0 in
          let pitch := 0 in
          let yaw := Py.round (uniform 0 math_pi draws1) 4 in
          let draws2 := S draws1 in
          let roll :=
            if String.eqb object_class "power_drill_with_grip"
            then - math_pi / 2 else roll0 in
          if (number_of_poses >? 20)%Z then
            Some (Ok (mkGen draws2 x_y_list1
                            (objects st
                             ++ sweep 7 pos roll pitch 0 (place_poses_id st))
                            (place_poses_id st + 7)%Z
                            (logged1 ++ [InfoCovering360])))
          else
            Some (Ok (mkGen draws2 x_y_list1
                            (objects st
                             ++ [mkObjectPose object_class (place_poses_id st) pos
                                   (quaternion_from_euler roll pitch yaw)])
                            (place_poses_id st + 1)%Z
                            logged1))
      end
  end.

Fixpoint place_loop (fuel : nat) (min_dist : Q) (iterations : nat) (st : gen_state)
  : option (result gen_state) :=
  match iterations with
  | O => Some (Ok st)
  | S iterations' =>
      match place_one fuel min_dist st with
      | None => None
      | Some (Raise e) => Some (Raise e)
      | Some (Ok st') => place_loop fuel min_dist iterations' st'
      end
  end.

(** The separation actually enforced. *)
Definition effective_min_dist (min_dist : Q) : Q :=
  if (number_of_poses >? 100)%Z then 0.03 else min_dist.

(** The whole function.  The returned [ObjectList] is the [objects] field
    of the final state; the other fields are the function's locals at its
    return, kept so that properties can speak about them.  [min_dist]
    defaults to 0.2 and [number_of_poses] to 10 in the source. *)
Definition gen_place_poses_from_plane (fuel : nat) (min_dist : Q)
  : option (result gen_state) :=
  let logged0 :=
    if (number_of_poses >? 100)%Z then [WarnMinDistOverridden 0.03] else [] in
  place_loop fuel (effective_min_dist min_dist) (Z.to_nat number_of_poses)
             (mkGen 0 [] [] 1 logged0).

End Generator.

End PlaneTools.

(* ================================================================= *)
(** ** rqt_grasplan.py: the editor state and the select / delete actions *)

Module Editor.

(** geometry_msgs/Pose over a number type [num] (the float fields). *)
Record Vector3 (num : Type) : Type := mkVec { v_x : num; v_y : num; v_z : num }.
Record Quaternion (num : Type) : Type :=
  mkQuat { q_x : num; q_y : num; q_z : num; q_w : num }.
Record Pose (num : Type) : Type :=
  mkPose { position : Vector3 num; orientation : Quaternion num }.

(** The widgets a handler reads.  A check box or option button is the
    value of [isChecked()].  A text box that the code converts with
    [int(...)] or [float(...)] is the converted value, [None] when the
    conversion raises ValueError. *)
Record Widget (num : Type) : Type :=
  mkWidget { chkGraspSAllGrasps : bool;
             txtGraspSGraspNumbers : option Z;
             chkTransformLoadSelected : bool;
             optEditGPatternMirror : bool;
             optEditGPatternCircular : bool;
             chkEditGAxisX : bool;
             chkEditGAxisY : bool;
             chkEditGAxisZ : bool;
             optEditGHandlingCopyR : bool;
             txtEditGAngStep : option num;
             optEditGAngularUnitsDeg : bool;
             txtEditGNumberOfGrasps : option Z;
             txtFileObjectName : string }.

(** The attributes of the plugin object that the handlers read and write:
    - [grasps_as_pose_array] is [None] until a file was loaded, otherwise
      the [poses] of the PoseArray;
    - [selected_pose] is an index, -1 (nothing selected) or -10 (all);
    - [published] is the trace of [publish_grasps]: the highlighted index
      and the pose array sent, oldest first;
    - [reported] is the trace of [log_error], oldest first;
    - [lblGraspSGrasps] is the number last shown by [update_grasp_number]. *)
Record State (num : Type) : Type :=
  mkState { grasps_as_pose_array : option (list (Pose num));
            selected_pose : Z;
            published : list (Z * option (list (Pose num)));
            reported : list string;
            lblGraspSGrasps : option nat }.

Definition select_none : Z := (-1)%Z.
Definition select_all : Z := (-10)%Z.

Section Panel.

Variable num : Type.

Local Abbreviation pose := (Pose num).
Local Abbreviation state := (State num).
Local Abbreviation widget := (Widget num).

(** A handler is a state transformer that returns or raises; the state
    reached when an exception is raised is kept, since attributes assigned
    before the raise stay assigned. *)
Definition M (A : Type) : Type := state -> result A * state.

Definition ret {A} (a : A) : M A := fun st => (Ok a, st).

Definition raise {A} (e : exn) : M A := fun st => (Raise e, st).

Definition mbind {A B} (m : M A) (k : A -> M B) : M B :=
  fun st =>
    match m st with
    | (Ok a, st') => k a st'
    | (Raise e, st') => (Raise e, st')
    end.

Definition lift {A} (r : result A) : M A := fun st => (r, st).

Definition exec {A} (m : M A) (st : state) : state := snd (m st).
Definition outcome {A} (m : M A) (st : state) : result A := fst (m st).

Local Notation "x <~ c1 ;; c2" := (mbind c1 (fun x => c2))
  (at level 61, c1 at next level, right associativity).
Local Notation "c1 >> c2" := (mbind c1 (fun _ => c2))
  (at level 61, right associativity).

(** [self.grasps_as_pose_array.poses]; AttributeError on [None]. *)
Definition get_poses : M (list pose) :=
  fun st =>
    match grasps_as_pose_array st with
    | Some l => (Ok l, st)
    | None => (Raise AttributeError, st)
    end.

Definition set_poses (l : list pose) : M unit :=
  fun st =>
    match grasps_as_pose_array st with
    | Some _ =>
        (Ok tt, mkState (Some l) (selected_pose st) (published st) (reported st)
                        (lblGraspSGrasps st))
    | None => (Raise AttributeError, st)
    end.

Definition get_selected : M Z := fun st => (Ok (selected_pose st), st).

Definition set_selected (i : Z) : M unit :=
  fun st =>
    (Ok tt, mkState (grasps_as_pose_array st) i (published st) (reported st)
                    (lblGraspSGrasps st)).

Definition log_error (error_msg : string) : M unit :=
  fun st =>
    (Ok tt, mkState (grasps_as_pose_array st) (selected_pose st) (published st)
                    (reported st ++ [error_msg]) (lblGraspSGrasps st)).

Definition publish_grasps : M unit :=
  fun st =>
    (Ok tt, mkState (grasps_as_pose_array st) (selected_pose st)
                    (published st ++ [(selected_pose st, grasps_as_pose_array st)])
                    (reported st) (lblGraspSGrasps st)).

Definition update_grasp_number : M unit :=
  l <~ get_poses ;;
  fun st =>
    (Ok tt, mkState (grasps_as_pose_array st) (selected_pose st) (published st)
                    (reported st) (Some (List.length l))).

Definition out_of_bounds_msg : string :=
  "Cannot select/highlight grasp, selected number is out of bounds".

Definition int_error : exn := ValueError "invalid literal for int()".
Definition float_error : exn := ValueError "could not convert string to float".

Definition update_selected_pose (w : widget) : M bool :=
  if chkGraspSAllGrasps w then
    set_selected select_all >> ret true
  else
    match txtGraspSGraspNumbers w with
    | None => raise int_error
    | Some grasp_number =>
        l <~ get_poses ;;
        if (grasp_number >=? Z.of_nat (List.length l))%Z then
          log_error out_of_bounds_msg >> ret false
        else
          set_selected grasp_number >> ret true
    end.

(** The select button.  Filling the transform text boxes does not touch
    the attributes modelled here; what remains of that branch is the
    subscription [poses[self.selected_pose]], which can raise. *)
Definition handle_grasp_s_select_button (w : widget) : M unit :=
  ok <~ update_selected_pose w ;;
  if ok then
    publish_grasps >>
    if chkTransformLoadSelected w then
      sel <~ get_selected ;;
      if (negb (sel =? select_all) && negb (sel =? select_none))%Z%bool then
        l <~ get_poses ;;
        _selected <~ lift (Py.index l sel) ;;
        ret tt
      else ret tt
    else ret tt
  else ret tt.

Definition handle_grasp_s_delete_button (w : widget) : M unit :=
  (if chkGraspSAllGrasps w then
     l <~ get_poses ;;
     (if (List.length l =? 1)%nat then
        set_poses []
      else
        pose0 <~ lift (Py.index l 0) ;;
        set_poses [] >>
        set_poses [pose0]) >>
     set_selected select_none >>
     publish_grasps
   else
     ok <~ update_selected_pose w ;;
     if ok then
       l <~ get_poses ;;
       sel <~ get_selected ;;
       l' <~ lift (Py.del l sel) ;;
       set_poses l' >>
       set_selected select_none >>
       publish_grasps
     else ret tt) >>
  update_grasp_number.

Definition handle_grasp_s_unselect_button : M unit :=
  set_selected select_none >> publish_grasps.

End Panel.

End Editor.

(* ================================================================= *)
(** ** rqt_grasplan.py: the pattern action (mirror and circular) *)

Module Pattern.

Import Editor.

Local Open Scope R_scope.

Local Abbreviation quaternion := (Quaternion R).
Local Abbreviation pose := (Pose R).

(** [tf.transformations.quaternion_from_euler(ai, aj, ak)] with the
    default axes 'sxyz', as the tf library defines it; quaternions are
    (x, y, z, w). *)
Definition quaternion_from_euler (ai aj ak : R) : quaternion :=
  let ai := ai / 2 in
  let aj := aj / 2 in
  let ak := ak / 2 in
  let ci := cos ai in
  let si := sin ai in
  let cj := cos aj in
  let sj := sin aj in
  let ck := cos ak in
  let sk := sin ak in
  let cc := ci * ck in
  let cs := ci * sk in
  let sc := si * ck in
  let ss := si * sk in
  mkQuat (cj * sc - sj * cs) (cj * ss + sj * cc) (cj * cs - sj * sc)
         (cj * cc + sj * ss).

(** [tf.transformations.quaternion_multiply(quaternion1, quaternion0)]. *)
Definition quaternion_multiply (quaternion1 quaternion0 : quaternion) : quaternion :=
  let x0 := q_x quaternion0 in
  let y0 := q_y quaternion0 in
  let z0 := q_z quaternion0 in
  let w0 := q_w quaternion0 in
  let x1 := q_x quaternion1 in
  let y1 := q_y quaternion1 in
  let z1 := q_z quaternion1 in
  let w1 := q_w quaternion1 in
  mkQuat (x1 * w0 + y1 * z0 - z1 * y0 + w1 * x0)
         (- x1 * z0 + y1 * w0 + z1 * x0 + w1 * y0)
         (x1 * y0 - y1 * x0 + z1 * w0 + w1 * z0)
         (- x1 * x0 - y1 * y0 - z1 * z0 + w1 * w0).

Definition rotate_quaternion (q : quaternion) (roll pitch yaw : R) : quaternion :=
  let q_orig := q in
  let angular_q := quaternion_from_euler roll pitch yaw in
  quaternion_multiply angular_q q_orig.

(** [math.radians]. *)
Definition radians (deg : R) : R := deg * (PI / 180).

(** Equality of two Pose messages (field by field), as [list.remove]
    uses it. *)
Definition quaternion_eq_dec (a b : quaternion) : {a = b} + {a <> b}.
Proof. decide equality; apply Req_EM_T. Defined.

Definition vector_eq_dec (a b : Vector3 R) : {a = b} + {a <> b}.
Proof. decide equality; apply Req_EM_T. Defined.

Definition pose_eq_dec (a b : pose) : {a = b} + {a <> b}.
Proof.
  decide equality; [apply quaternion_eq_dec | apply vector_eq_dec].
Defined.

(** [l.remove(x)]: drops the first item equal to [x], ValueError when
    there is none. *)
Fixpoint list_remove (l : list pose) (x : pose) : result (list pose) :=
  match l with
  | [] => Raise (ValueError "list.remove(x): x not in list")
  | y :: l' =>
      if pose_eq_dec y x then Ok l'
      else l'' <- list_remove l' x ;; Ok (y :: l'')
  end.

Local Abbreviation M := (Editor.M R).
Local Notation "x <~ c1 ;; c2" := (mbind c1 (fun x => c2))
  (at level 61, c1 at next level, right associativity).
Local Notation "c1 >> c2" := (mbind c1 (fun _ => c2))
  (at level 61, right associativity).

Definition append_pose (p : pose) : M unit :=
  l <~ get_poses (num:=R) ;; set_poses (l ++ [p]).

Definition rotated (grasp_pose : pose) (roll pitch yaw : R) : pose :=
  mkPose (position grasp_pose)
         (rotate_quaternion (orientation grasp_pose) roll pitch yaw).

(** The loop of the mirror branch over [static_grasps]. *)
Fixpoint mirror_loop (replace : bool) (roll pitch yaw : R)
    (static_grasps : list pose) : M unit :=
  match static_grasps with
  | [] => ret tt
  | grasp_pose :: rest =>
      let derived_grasp := rotated grasp_pose roll pitch yaw in
      (if replace then
         l <~ get_poses (num:=R) ;;
         l' <~ lift (list_remove l grasp_pose) ;;
         set_poses l'
       else ret tt) >>
      append_pose derived_grasp >>
      mirror_loop replace roll pitch yaw rest
  end.

(** The inner loop of the circular branch, [k] iterations remaining:
    each derived grasp is appended, becomes the grasp the next iteration
    starts from, and is selected. *)
Fixpoint circular_chain (k : nat) (roll pitch yaw : R) (grasp_pose : pose)
  : M unit :=
  match k with
  | O => ret tt
  | S k' =>
      let derived_grasp := rotated grasp_pose roll pitch yaw in
      append_pose derived_grasp >>
      (l <~ get_poses (num:=R) ;;
       set_selected (Z.of_nat (List.length l) - 1)%Z) >>
      circular_chain k' roll pitch yaw derived_grasp
  end.

Fixpoint circular_loop (k : nat) (roll pitch yaw : R)
    (static_grasps : list pose) : M unit :=
  match static_grasps with
  | [] => ret tt
  | grasp_pose :: rest =>
      circular_chain k roll pitch yaw grasp_pose >>
      circular_loop k roll pitch yaw rest
  end.

Definition negative_count_msg : string :=
  "Number of grasps to make pattern cannot be negative".

Definition axis_angle (checked : bool) (angle : R) : R :=
  if checked then angle else 0.

Definition handle_edit_g_apply_button (w : Widget R) : M unit :=
  sel <~ get_selected (num:=R) ;;
  l <~ get_poses (num:=R) ;;
  static_grasps <~ (if (sel =? select_all)%Z then ret l
                    else g <~ lift (Py.index l sel) ;; ret [g]) ;;
  (* mirror: rotate quaternion by 180 degrees in each desired axis *)
  (if optEditGPatternMirror w then
     (ok <~ update_selected_pose w ;;
      if ok then
        mirror_loop (optEditGHandlingCopyR w)
                    (axis_angle (chkEditGAxisX w) PI)
                    (axis_angle (chkEditGAxisY w) PI)
                    (axis_angle (chkEditGAxisZ w) PI)
                    static_grasps
      else ret tt) >>
     publish_grasps (num:=R)
   else ret tt) >>
  (* circular pattern *)
  if optEditGPatternCircular w then
    match txtEditGAngStep w with
    | None => raise float_error
    | Some ang_step =>
        let ang_step :=
          if optEditGAngularUnitsDeg w then radians ang_step else ang_step in
        match txtEditGNumberOfGrasps w with
        | None => raise int_error
        | Some number_of_grasps =>
            if (number_of_grasps <? 0)%Z then
              log_error (num:=R) negative_count_msg
            else
              (ok <~ update_selected_pose w ;;
               if ok then
                 circular_loop (Z.to_nat (number_of_grasps - 1))
                               (axis_angle (chkEditGAxisX w) ang_step)
                               (axis_angle (chkEditGAxisY w) ang_step)
                               (axis_angle (chkEditGAxisZ w) ang_step)
                               static_grasps >>
                 publish_grasps (num:=R)
               else ret tt) >>
              update_grasp_number (num:=R)
        end
    end
  else update_grasp_number (num:=R).

End Pattern.

(* ================================================================= *)
(** ** rqt_grasplan.py: saving and loading the grasps file *)

Module GraspYaml.

Import Editor.

Local Open Scope string_scope.

(* ----------------------------------------------------------------- *)
(** *** Fixed-point formatting: [f'{x:.6f}'] *)

Definition digit_char (d : N) : ascii :=
  ascii_of_N (48 + d).

(** The [k] low decimal digits of [n], most significant first. *)
Fixpoint digits_fixed (k : nat) (n : N) : string :=
  match k with
  | O => EmptyString
  | S k' => String (digit_char ((n / 10 ^ N.of_nat k') mod 10)) (digits_fixed k' n)
  end.

(** The number of decimal digits of [n] (one for zero): the first [k]
    from [k0] on with [n < 10^k]. *)
Fixpoint num_digits_from (fuel : nat) (k0 : nat) (n : N) : nat :=
  match fuel with
  | O => k0
  | S fuel' =>
      if (n <? 10 ^ N.of_nat k0)%N then k0 else num_digits_from fuel' (S k0) n
  end.

Definition num_digits (n : N) : nat :=
  num_digits_from (N.to_nat (N.size n)) 1 n.

Definition string_of_N (n : N) : string := digits_fixed (num_digits n) n.

(** [format(x, '.6f')]: [x] rounded to six decimals (ties to even), the
    sign of [x], and at least one digit before the point. *)
Definition format_6f (x : Q) : string :=
  let m := Z.abs_N (Py.round_half_even (x * inject_Z (Py.pow10 6))%Q) in
  (if PlaneTools.Qltb x 0 then "-" else EmptyString)
  ++ string_of_N (m / 10 ^ 6)%N ++ "." ++ digits_fixed 6 m.

(* ----------------------------------------------------------------- *)
(** *** write_grasps_to_yaml_file *)

Definition tab : string := "  ".

Definition translation_str (grasp : Pose Q) : string :=
  let linear := position grasp in
  tab ++ tab ++ tab ++ "translation: [" ++ format_6f (v_x linear) ++ ", "
  ++ format_6f (v_y linear) ++ ", " ++ format_6f (v_z linear) ++ "]".

Definition rotation_str (grasp : Pose Q) : string :=
  let angular_q := orientation grasp in
  tab ++ tab ++ tab ++ "rotation: [" ++ format_6f (q_x angular_q) ++ ", "
  ++ format_6f (q_y angular_q) ++ ", " ++ format_6f (q_z angular_q) ++ ", "
  ++ format_6f (q_w angular_q) ++ "]".

(** The lines written to the file ([grasp_stream_list]); the file is
    these lines, each followed by a newline. *)
Definition write_grasps_to_yaml_file (grasps : list (Pose Q)) (object_name : string)
  : list string :=
  [ "# this file was generated automatically by grasplan grasp editor";
    object_name ++ ":";
    tab ++ "grasp_poses:" ]
  ++ flat_map (fun grasp =>
                 [ tab ++ tab ++ "-"; translation_str grasp; rotation_str grasp ])
              grasps.

(* ----------------------------------------------------------------- *)
(** *** yaml.full_load, on the documents the writer produces *)

(** The Python value a YAML document loads to.  Mapping keys are strings. *)
#[local] Unset Elimination Schemes.
Inductive yaml : Type :=
| YNull
| YFloat (q : Q)
| YInt (z : Z)
| YStr (s : string)
| YSeq (items : list yaml)
| YMap (entries : list (string * yaml)).
#[local] Set Elimination Schemes.

Definition is_digit (c : ascii) : bool :=
  ((48 <=? N_of_ascii c) && (N_of_ascii c <=? 57))%N.

(** The longest prefix of decimal digits, as digit values, and the rest. *)
Fixpoint read_digits (s : string) : list N * string :=
  match s with
  | EmptyString => ([], s)
  | String c s' =>
      if is_digit c then
        let (ds, r) := read_digits s' in ((N_of_ascii c - 48)%N :: ds, r)
      else ([], s)
  end.

Definition horner (ds : list N) : N :=
  fold_left (fun acc d => (acc * 10 + d)%N) ds 0%N.

(** A plain scalar of the form [-+]?digits.digits is a float (the first
    alternative of PyYAML's float pattern, without underscores and
    exponent); its value is what [float(text)] denotes.  The scalar read
    and the rest of the line are returned. *)
Definition read_float (s : string) : option (Q * string) :=
  let '(neg, s1) :=
    match s with
    | String "-"%char r => (true, r)
    | String "+"%char r => (false, r)
    | _ => (false, s)
    end in
  let '(ip, s2) := read_digits s1 in
  match ip, s2 with
  | _ :: _, String "."%char s3 =>
      let '(fp, s4) := read_digits s3 in
      let v := (inject_Z (Z.of_N (horner ip))
                + inject_Z (Z.of_N (horner fp))
                  / inject_Z (Py.pow10 (List.length fp)))%Q in
      Some (if neg then (- v)%Q else v, s4)
  | _, _ => None
  end.

(** The items of a flow sequence after its opening bracket, separated by
    a comma and one space, up to the closing bracket that ends the line. *)
Fixpoint read_items (fuel : nat) (s : string) : option (list yaml) :=
  match fuel with
  | O => None
  | S fuel' =>
      match read_float s with
      | None => None
      | Some (v, r) =>
          match r with
          | String "]"%char EmptyString => Some [YFloat v]
          | String ","%char (String " "%char r') =>
              option_map (cons (YFloat v)) (read_items fuel' r')
          | _ => None
          end
      end
  end.

Fixpoint strip_prefix (p s : string) : option string :=
  match p with
  | EmptyString => Some s
  | String a p' =>
      match s with
      | String b s' => if Ascii.eqb a b then strip_prefix p' s' else None
      | EmptyString => None
      end
  end.

(** A line [indent key: [items]]. *)
Definition read_field (indent key line : string) : option yaml :=
  match strip_prefix (indent ++ key ++ ": [") line with
  | None => None
  | Some r => option_map YSeq (read_items (String.length r) r)
  end.

Definition is_word_char (c : ascii) : bool :=
  let n := N_of_ascii c in
  (((65 <=? n) && (n <=? 90)) || ((97 <=? n) && (n <=? 122)) || (n =? 95)
   || ((48 <=? n) && (n <=? 57)))%N.

(** The words PyYAML resolves to a boolean or to null rather than to a
    string. *)
Definition reserved_words : list string :=
  [ "yes"; "Yes"; "YES"; "no"; "No"; "NO"; "true"; "True"; "TRUE";
    "false"; "False"; "FALSE"; "on"; "On"; "ON"; "off"; "Off"; "OFF";
    "null"; "Null"; "NULL" ].

Fixpoint all_chars (f : ascii -> bool) (s : string) : bool :=
  match s with
  | EmptyString => true
  | String c s' => f c && all_chars f s'
  end.

(** Keys for which the first line of the mapping is [key:] and loads back
    to the string [key]: a letter or underscore followed by letters,
    digits and underscores, not a reserved word. *)
Definition plain_key (k : string) : bool :=
  match k with
  | EmptyString => false
  | String c _ =>
      negb (is_digit c) && all_chars is_word_char k
      && negb (existsb (String.eqb k) reserved_words)
  end.

(** The key of a line [key:], a key without colon. *)
Fixpoint key_of_line (line : string) : option string :=
  match line with
  | EmptyString => None
  | String c line' =>
      if Ascii.eqb c ":" then
        match line' with
        | EmptyString => Some EmptyString
        | String _ _ => None
        end
      else option_map (String c) (key_of_line line')
  end.

(** The entries of the block sequence under [grasp_poses:]. *)
Fixpoint read_entries (lines : list string) : option (list yaml) :=
  match lines with
  | [] => Some []
  | dash :: t :: r :: rest =>
      if String.eqb dash (tab ++ tab ++ "-") then
        match read_field (tab ++ tab ++ tab) "translation" t,
              read_field (tab ++ tab ++ tab) "rotation" r,
              read_entries rest with
        | Some tv, Some rv, Some es =>
            Some (YMap [("translation", tv); ("rotation", rv)] :: es)
        | _, _, _ => None
        end
      else None
  | _ => None
  end.

Definition is_comment (line : string) : bool :=
  match line with
  | String c _ => Ascii.eqb c "#"
  | EmptyString => false
  end.

(** [yaml.full_load] of a file given by its lines.  The model covers the
    block layout that [write_grasps_to_yaml_file] produces (comment
    lines, one top-level key, the [grasp_poses] key and three lines per
    entry); [None] stands for every other document.  A key with nothing
    after it has the value null, which is what [grasp_poses:] followed by
    no entry loads to. *)
Definition yaml_full_load (lines : list string) : option yaml :=
  match filter (fun l => negb (is_comment l)) lines with
  | key_line :: poses_line :: rest =>
      match key_of_line key_line with
      | Some key =>
          if plain_key key && String.eqb poses_line (tab ++ "grasp_poses:") then
            match read_entries rest with
            | Some [] => Some (YMap [(key, YMap [("grasp_poses", YNull)])])
            | Some es => Some (YMap [(key, YMap [("grasp_poses", YSeq es)])])
            | None => None
            end
          else None
      | None => None
      end
  | _ => None
  end.

(* ----------------------------------------------------------------- *)
(** *** load_grasps_from_yaml *)

Fixpoint lookup (m : list (string * yaml)) (k : string) : option yaml :=
  match m with
  | [] => None
  | (k', v) :: m' => if String.eqb k' k then Some v else lookup m' k
  end.

(** [v[k]] for a string [k]. *)
Definition getitem_str (v : yaml) (k : string) : result yaml :=
  match v with
  | YMap m =>
      match lookup m k with
      | Some x => Ok x
      | None => Raise (KeyError k)
      end
  | _ => Raise TypeError
  end.

Fixpoint chars (s : string) : list yaml :=
  match s with
  | EmptyString => []
  | String c s' => YStr (String c EmptyString) :: chars s'
  end.

(** [v[i]] for an integer [i]. *)
Definition getitem_int (v : yaml) (i : Z) : result yaml :=
  match v with
  | YSeq l => Py.index l i
  | YStr s => Py.index (chars s) i
  | YMap _ => Raise (KeyError (string_of_N (Z.abs_N i)))
  | _ => Raise TypeError
  end.

(** The items a [for] loop over [v] visits. *)
Definition iterate (v : yaml) : result (list yaml) :=
  match v with
  | YSeq l => Ok l
  | YStr s => Ok (chars s)
  | YMap m => Ok (map (fun kv => YStr (fst kv)) m)
  | _ => Raise TypeError
  end.

(** [list_to_pose_msg]: the fields take whatever the lists hold. *)
Definition list_to_pose_msg (linear angular_q : yaml) : result (Pose yaml) :=
  px <- getitem_int linear 0 ;;
  py <- getitem_int linear 1 ;;
  pz <- getitem_int linear 2 ;;
  ox <- getitem_int angular_q 0 ;;
  oy <- getitem_int angular_q 1 ;;
  oz <- getitem_int angular_q 2 ;;
  ow <- getitem_int angular_q 3 ;;
  Ok (mkPose (mkVec px py pz) (mkQuat ox oy oz ow)).

Fixpoint load_poses (transforms : list yaml) : result (list (Pose yaml)) :=
  match transforms with
  | [] => Ok []
  | transform :: rest =>
      translation <- getitem_str transform "translation" ;;
      rotation <- getitem_str transform "rotation" ;;
      pose_msg <- list_to_pose_msg translation rotation ;;
      poses <- load_poses rest ;;
      Ok (pose_msg :: poses)
  end.

(** What the function returns: the pose array, or [None] (after the
    error dialog when the object class is not a key of the file). *)
Inductive loaded : Type :=
| PoseArray (poses : list (Pose yaml))
| ReturnedNone.

Section Load.

(** [grasplan.common_grasp_tools.remove_object_id] is defined outside the
    two source files; it maps an object name to its class. *)
Variable remove_object_id : string -> string.

(** [grasps_dic] is the value of [yaml.full_load(f)], taken to be [None]
    or a mapping. *)
Definition load_grasps_from_yaml (object_name : string)
    (grasps_dic : option (list (string * yaml))) : result loaded :=
  match grasps_dic with
  | None => Ok ReturnedNone
  | Some dic =>
      let object_class := remove_object_id object_name in
      match lookup dic object_class with
      | None => Ok ReturnedNone
      | Some entry =>
          grasp_poses <- getitem_str entry "grasp_poses" ;;
          transforms <- iterate grasp_poses ;;
          poses <- load_poses transforms ;;
          Ok (PoseArray poses)
      end
  end.

(** Saving [grasps] under [save_name] and loading the file again for
    [load_name]; [None] when the file is outside the modelled YAML. *)
Definition save_then_load (grasps : list (Pose Q)) (save_name load_name : string)
  : option (result loaded) :=
  match yaml_full_load (write_grasps_to_yaml_file grasps save_name) with
  | Some (YMap dic) => Some (load_grasps_from_yaml load_name (Some dic))
  | Some YNull => Some (load_grasps_from_yaml load_name None)
  | _ => None
  end.

End Load.

End GraspYaml.

(* ================================================================= *)
(** ** support_plane_tools.py: insertion poses and the plane of a box *)

Module PlaneObjects.

Import PlaneTools Editor.

Local Open Scope Q_scope.

(* ----------------------------------------------------------------- *)
(** *** gen_insert_poses_from_obj *)

Section Insertion.

(** [tf.transformations.quaternion_from_euler] and
    [tf.transformations.euler_from_quaternion] belong to the tf library
    and stay parameters; a quaternion is the message with its four float
    fields, since the function also computes with the field [x]. *)
Variable quaternion_from_euler : Q -> Q -> Q -> Quaternion Q.
Variable euler_from_quaternion : Quaternion Q -> Q * Q * Q.

Variable object_class : string.

(** The [for i in range(7)] loop; [k] iterations remain. *)
Fixpoint insert_sweep (k : nat) (pos : Point) (roll pitch yaw : Q)
    (insert_poses_id : Z) : list (ObjectPose (Quaternion Q)) :=
  match k with
  | O => []
  | S k' =>
      mkObjectPose object_class insert_poses_id pos
                   (quaternion_from_euler roll pitch yaw)
      :: insert_sweep k' pos roll pitch
           (if String.eqb object_class "insole" then yaw + 3.14159
            else yaw + 0.5)
           (insert_poses_id + 1)%Z
  end.

(** [support_object_pose] is the [pose] of the PoseStamped message; the
    result is the [objects] list of the ObjectList returned. *)
Definition gen_insert_poses_from_obj (support_object_pose : Pose Q)
    (obj_height : Q) (same_orientation_as_support_obj : bool)
  : list (ObjectPose (Quaternion Q)) :=
  let insert_poses_id := 1%Z in
  let pos :=
    mkPoint (v_x (Editor.position support_object_pose))
            (v_y (Editor.position support_object_pose))
            (v_z (Editor.position support_object_pose) + obj_height) in
  let roll := 0 in
  let pitch := 0 in
  let yaw := 0 in
  let roll :=
    if String.eqb object_class "power_drill_with_grip" then - math_pi / 2
    else if String.eqb object_class "insole" then - 1.54
    else roll in
  if negb same_orientation_as_support_obj then
    insert_sweep 7 pos roll pitch yaw insert_poses_id
  else
    let o := Editor.orientation support_object_pose in
    let first :=
      if String.eqb object_class "insole"
      then mkQuat (q_x o - 1.54) (q_y o) (q_z o) (q_w o)
      else o in
    let euler_rot := euler_from_quaternion o in
    let q_new :=
      if String.eqb object_class "insole"
      then quaternion_from_euler (- 1.54) (snd (fst euler_rot))
                                 (snd euler_rot + 3.14159)
      else quaternion_from_euler (fst (fst euler_rot)) (snd (fst euler_rot))
                                 (snd euler_rot + 3.14159) in
    [ mkObjectPose object_class insert_poses_id pos first;
      mkObjectPose object_class (insert_poses_id + 1)%Z pos q_new ].

End Insertion.

(* ----------------------------------------------------------------- *)
(** *** obj_to_plane *)

Section BoxPlane.

(** [rotation_angle_of o] is the value of
    [tf.euler_from_quaternion([o.pose.orientation.x, ...])]: the three
    angles (roll, pitch, yaw) of the orientation of the object, which
    the record [CollisionObject] above does not carry, or the exception
    the call raises.  [math.cos] and [math.sin] map a float to a float. *)
Variable rotation_angle_of : CollisionObject -> result (Q * Q * Q).
Variable math_cos : Q -> Q.
Variable math_sin : Q -> Q.

Definition not_a_box_msg (support_obj : string) : string :=
  "Object '" ++ support_obj ++ "' is not a box".

Definition not_aligned_msg (support_obj : string) : string :=
  "Object '" ++ support_obj ++ "' is not aligned with the XY plane".

(** [offset] defaults to 0.001. *)
Definition obj_to_plane (support_obj : string) (planning_scene : PlanningScene)
    (offset : Q) : result (list Point) :=
  collision_object <- get_obj_from_planning_scene support_obj planning_scene ;;
  not_a_box <-
    (if negb (List.length (primitives collision_object) =? 1)%nat then Ok true
     else prim <- Py.index (primitives collision_object) 0 ;;
          Ok (negb (prim_type prim =? 1)%Z)) ;;
  if not_a_box : bool then Raise (ValueError (not_a_box_msg support_obj))
  else
    rotation_angle <- rotation_angle_of collision_object ;;
    let '(roll, pitch, yaw) := rotation_angle in
    if negb (Qeq_bool roll 0) || negb (Qeq_bool pitch 0) then
      Raise (ValueError (not_aligned_msg support_obj))
    else
      prim <- Py.index (primitives collision_object) 0 ;;
      d0 <- Py.index (dimensions prim) 0 ;;
      let half_width := d0 / 2 in
      prim' <- Py.index (primitives collision_object) 0 ;;
      d1 <- Py.index (dimensions prim') 1 ;;
      let half_depth := d1 / 2 in
      let center_point :=
        (p_x (co_position collision_object),
         p_y (co_position collision_object),
         p_z (co_position collision_object) * 2) in
      let corner_offsets :=
        [ (half_width, half_depth); (- half_width, half_depth);
          (- half_width, - half_depth); (half_width, - half_depth) ] in
      Ok (map (fun d : Q * Q =>
                 let (dx, dy) := d in
                 mkPoint (fst (fst center_point)
                          + dx * math_cos yaw - dy * math_sin yaw)
                         (snd (fst center_point)
                          + dx * math_sin yaw + dy * math_cos yaw)
                         (snd center_point + offset))
              corner_offsets).

End BoxPlane.

End PlaneObjects.

(* ================================================================= *)
(** ** rqt_grasplan.py: the transform group *)

Module Transform.

Import Editor Pattern.

Local Open Scope R_scope.

Local Abbreviation quaternion := (Quaternion R).
Local Abbreviation pose := (Pose R).
Local Abbreviation M := (Editor.M R).
Local Notation "x <~ c1 ;; c2" := (mbind c1 (fun x => c2))
  (at level 61, c1 at next level, right associativity).
Local Notation "c1 >> c2" := (mbind c1 (fun _ => c2))
  (at level 61, right associativity).

(** The widgets of the transform group.  A text box is the value of
    [float(box.toPlainText())], [None] when the conversion raises
    ValueError; an option button is the value of [isChecked()]. *)
Record TransformWidget : Type :=
  mkTransformWidget { txtTransformLinearX : option R;
                      txtTransformLinearY : option R;
                      txtTransformLinearZ : option R;
                      txtTransformAngularR : option R;
                      txtTransformAngularP : option R;
                      txtTransformAngularY : option R;
                      txtTransformAngularQx : option R;
                      txtTransformAngularQy : option R;
                      txtTransformAngularQz : option R;
                      txtTransformAngularQw : option R;
                      optTransformUnitsRad : bool;
                      optTransformUnitsDeg : bool }.

(** [float(text)]. *)
Definition float (text : option R) : result R :=
  match text with
  | Some x => Ok x
  | None => Raise float_error
  end.

(** [math.degrees]. *)
Definition degrees (rad : R) : R := rad * (180 / PI).

(** [l[i] = x] for a Python list: negative indices count from the end, an
    index outside [-len, len) raises IndexError. *)
Definition setitem {A} (l : list A) (i : Z) (x : A) : result (list A) :=
  let n := Z.of_nat (List.length l) in
  let j := if (i <? 0)%Z then (i + n)%Z else i in
  if ((j <? 0) || (n <=? j))%Z%bool then Raise IndexError
  else Ok (firstn (Z.to_nat j) l ++ x :: skipn (S (Z.to_nat j)) l).

(** [list_to_pose_msg] on lists of numbers. *)
Definition list_to_pose_msg (linear angular_q : list R) : result pose :=
  px <- Py.index linear 0 ;;
  py <- Py.index linear 1 ;;
  pz <- Py.index linear 2 ;;
  ox <- Py.index angular_q 0 ;;
  oy <- Py.index angular_q 1 ;;
  oz <- Py.index angular_q 2 ;;
  ow <- Py.index angular_q 3 ;;
  Ok (mkPose (mkVec px py pz) (mkQuat ox oy oz ow)).

(** The loop of the two unit conversions: [out.append(f(rpy[i]))] for
    each [i] of the range. *)
Fixpoint convert_loop (f : R -> R) (rpy : list R) (range : list Z) (out : list R)
  : result (list R) :=
  match range with
  | [] => Ok out
  | i :: rest =>
      x <- Py.index rpy i ;;
      convert_loop f rpy rest (out ++ [f x])
  end.

Definition convert_rpy_rad_to_deg (rpy_in_rad : list R) : result (list R) :=
  convert_loop degrees rpy_in_rad [0; 1; 2]%Z [].

Definition convert_rpy_deg_to_rad (rpy_in_deg : list R) : result (list R) :=
  convert_loop radians rpy_in_deg [0; 1; 2]%Z [].

(** [read_transform]: the three lists it returns.  With the radians
    button checked the code only warns about angles above pi; writing the
    quaternion into its text boxes changes no attribute modelled here. *)
Definition read_transform (w : TransformWidget) (apply_rpy_to_q : bool)
  : result (list R * list R * list R) :=
  lx <- float (txtTransformLinearX w) ;;
  ly <- float (txtTransformLinearY w) ;;
  lz <- float (txtTransformLinearZ w) ;;
  ar <- float (txtTransformAngularR w) ;;
  ap <- float (txtTransformAngularP w) ;;
  ay <- float (txtTransformAngularY w) ;;
  qx <- float (txtTransformAngularQx w) ;;
  qy <- float (txtTransformAngularQy w) ;;
  qz <- float (txtTransformAngularQz w) ;;
  qw <- float (txtTransformAngularQw w) ;;
  let linear := [lx; ly; lz] in
  let angular_rpy := [ar; ap; ay] in
  let angular_q := [qx; qy; qz; qw] in
  angular_rpy <- (if optTransformUnitsDeg w
                  then convert_rpy_deg_to_rad angular_rpy
                  else Ok angular_rpy) ;;
  if apply_rpy_to_q then
    r <- Py.index angular_rpy 0 ;;
    p <- Py.index angular_rpy 1 ;;
    y <- Py.index angular_rpy 2 ;;
    let q := quaternion_from_euler r p y in
    Ok (linear, angular_rpy, [q_x q; q_y q; q_z q; q_w q])
  else Ok (linear, angular_rpy, angular_q).

(** [self.rotate_quaternion(q_orig, *angular_rpy)]: the list fills the
    parameters roll, pitch and yaw from the left, the others keep their
    default 0.0, and more than three items are a TypeError. *)
Definition rotate_quaternion_star (q : quaternion) (angular_rpy : list R)
  : result quaternion :=
  match angular_rpy with
  | [] => Ok (rotate_quaternion q 0 0 0)
  | [roll] => Ok (rotate_quaternion q roll 0 0)
  | [roll; pitch] => Ok (rotate_quaternion q roll pitch 0)
  | [roll; pitch; yaw] => Ok (rotate_quaternion q roll pitch yaw)
  | _ => Raise TypeError
  end.

(** The loop that turns every grasp of the list in place.  Whether the
    call raises depends on [angular_rpy] only, so it raises at the first
    grasp or never, and no list is left half turned. *)
Fixpoint rotate_each (angular_rpy : list R) (poses : list pose)
  : result (list pose) :=
  match poses with
  | [] => Ok []
  | grasp :: rest =>
      q <- rotate_quaternion_star (orientation grasp) angular_rpy ;;
      rest' <- rotate_each angular_rpy rest ;;
      Ok (mkPose (position grasp) q :: rest')
  end.

Definition handle_transform_apply_button (w : TransformWidget) : M unit :=
  t <~ lift (read_transform w true) ;;
  let '(linear, angular_rpy, angular_q) := t in
  sel <~ get_selected (num:=R) ;;
  if ((sel =? select_all) || (sel =? select_none))%Z%bool then
    (* apply transform to all *)
    l <~ get_poses (num:=R) ;;
    l' <~ lift (rotate_each angular_rpy l) ;;
    set_poses l' >>
    publish_grasps (num:=R)
  else
    pose_msg <~ lift (list_to_pose_msg linear angular_q) ;;
    l <~ get_poses (num:=R) ;;
    l' <~ lift (setitem l sel pose_msg) ;;
    set_poses l' >>
    publish_grasps (num:=R).

Definition handle_transform_create_grasp_button (w : TransformWidget) : M unit :=
  t <~ lift (read_transform w true) ;;
  let '(linear, angular_rpy, angular_q) := t in
  pose_msg <~ lift (list_to_pose_msg linear angular_q) ;;
  append_pose pose_msg >>
  (l <~ get_poses (num:=R) ;;
   set_selected (Z.of_nat (List.length l) - 1)%Z) >>
  publish_grasps (num:=R) >>
  update_grasp_number (num:=R).

End Transform.

(* ================================================================= *)
(** * The vocabulary of the properties

    Definitions used to state the properties below: none of them is part
    of the embedded code. *)

Module PlaneToolsSpec.

Import PlaneTools.
Local Open Scope Q_scope.

(** The keys of [ohd]. *)
Definition ohd_keys : list string :=
  [ "power_drill_with_grip"; "klt"; "multimeter"; "relay"; "screwdriver";
    "insole"; "bag" ]%string.

(** [m] is the least member of [l], and [is_max] the greatest, up to
    equality of rational numbers. *)
Definition is_min (m : Q) (l : list Q) : Prop :=
  (exists x, In x l /\ x == m) /\ Forall (fun x => m <= x) l.

Definition is_max (m : Q) (l : list Q) : Prop :=
  (exists x, In x l /\ x == m) /\ Forall (fun x => x <= m) l.

(** Coplanarity as the specification words it: one distinct z across all
    points. *)
Definition coplanar (plane : list Point) : Prop :=
  forall p q, In p plane -> In q plane -> p_z p == p_z q.

(** The corners of the rectangle the function builds. *)
Definition rectangle (x0 x1 y0 y1 z : Q) : list Point :=
  [ mkPoint x0 y0 z; mkPoint x1 y0 z; mkPoint x1 y1 z; mkPoint x0 y1 z ].

(** The bounding rectangle of a plane: the least and greatest x and y. *)
Definition has_bounds (plane : list Point) (min_x max_x min_y max_y : Q) : Prop :=
  is_min min_x (map p_x plane) /\ is_max max_x (map p_x plane) /\
  is_min min_y (map p_y plane) /\ is_max max_y (map p_y plane).

(** Two points with equal coordinates. *)
Definition point_eqv (p q : Point) : Prop :=
  p_x p == p_x q /\ p_y p == p_y q /\ p_z p == p_z q.

End PlaneToolsSpec.

Module GeneratorSpec.

Import PlaneTools.
Local Open Scope Q_scope.

(** The positions accepted earlier are at more than [min_dist] from the
    positions accepted later. *)
Definition separated (min_dist : Q) (p q : Q * Q) : Prop :=
  dist_gt q p min_dist = true.

(** The yaw values of the sweep. *)
Definition yaw_sweep : list Q := [0; 0.5; 1.0; 1.5; 2.0; 2.5; 3.0].

Section Poses.

Variable quat : Type.
Variable quaternion_from_euler : Q -> Q -> Q -> quat.
Variable object_class : string.
Variable number_of_poses : Z.

(** The roll the generator gives to poses of the object class. *)
Definition object_roll : Q :=
  if String.eqb object_class "power_drill_with_grip" then - math_pi / 2 else 0.

(** The poses appended for the accepted position [(cx, cy)]: the sweep of
    seven when more than 20 poses are requested, otherwise one pose with
    the yaw that was drawn. *)
Definition poses_at (cx cy z yaw : Q) (place_poses_id : Z)
  : list (ObjectPose quat) :=
  if (number_of_poses >? 20)%Z then
    sweep quaternion_from_euler object_class 7 (mkPoint cx cy z) object_roll 0 0
          place_poses_id
  else
    [mkObjectPose object_class place_poses_id (mkPoint cx cy z)
                  (quaternion_from_euler object_roll 0 yaw)].

(** [o] is a pose of the object class at [(x, y, z)] whose orientation was
    made from the roll of the class, pitch 0 and the yaw value [yaw]. *)
Definition pose_at (xy : Q * Q) (z : Q) (yaw : Q) (o : ObjectPose quat) : Prop :=
  class_id o = object_class /\
  position o = mkPoint (fst xy) (snd xy) z /\
  exists yaw', yaw' == yaw /\
               orientation o = quaternion_from_euler object_roll 0 yaw'.

End Poses.

(** *** A concrete run *)

(** A scene with a table whose top is at height 0.7 and a gripper holding
    a box 0.15 high; the unit square as plane; a stand-in for the tf
    conversion that keeps the three angles; a fixed sequence of draws. *)
Definition example_scene : PlanningScene :=
  mkScene
    [("table"%string,
      mkCollisionObject (mkPoint 2 3 0.35) [mkPrimitive 1 [1.2; 0.8; 0.7]])]
    [("klt"%string,
      mkCollisionObject (mkPoint 0 0 0) [mkPrimitive 1 [0.3; 0.2; 0.15]])].

Definition example_plane : list Point :=
  [mkPoint 0 0 0.701; mkPoint 1 0 0.701; mkPoint 1 1 0.701; mkPoint 0 1 0.701].

Definition example_euler (roll pitch yaw : Q) : Q * Q * Q := (roll, pitch, yaw).

Definition example_random (k : nat) : Q :=
  inject_Z (Z.of_nat ((k * 37) mod 100)) / 100.

Definition example_run (number_of_poses : Z) (min_dist : Q)
  : option (result (gen_state (Q * Q * Q))) :=
  gen_place_poses_from_plane example_euler example_random "klt" "table"
    example_plane example_scene number_of_poses [] (S (Z.to_nat max_attempts))
    min_dist.

End GeneratorSpec.

Module EditorSpec.

Import Editor.

(** *** Concrete states *)

(** Poses told apart by their x coordinate; the numbers are integers
    here, the select and delete actions do not compute with them. *)
Definition example_pose (k : Z) : Pose Z :=
  mkPose (mkVec k 0%Z 0%Z) (mkQuat 0%Z 0%Z 0%Z 1%Z).

(** A widget with the "all" box and the number box as given, everything
    else unchecked and empty. *)
Definition example_widget (all : bool) (number : option Z) : Widget Z :=
  mkWidget all number false false false false false false false None false
           None "klt".

(** A session with the poses loaded and nothing published or reported
    yet. *)
Definition example_state (poses : list (Pose Z)) (selected : Z) : State Z :=
  mkState (Some poses) selected [] [] None.

End EditorSpec.

Module PatternSpec.

Import Editor Pattern.
Local Open Scope R_scope.

Local Abbreviation quaternion := (Quaternion R).
Local Abbreviation pose := (Pose R).

(** The quaternion [-q]. *)
Definition qneg (q : quaternion) : quaternion :=
  mkQuat (- q_x q) (- q_y q) (- q_z q) (- q_w q).

(** [q] and [-q] describe the same orientation. *)
Definition same_orientation (a b : quaternion) : Prop := a = b \/ a = qneg b.

(** The quaternion of no rotation. *)
Definition qone : quaternion := mkQuat 0 0 0 1.

(** The poses one selected grasp gives rise to: each is the rotation of
    the one before it, the first the rotation of the grasp itself. *)
Fixpoint chain (k : nat) (roll pitch yaw : R) (grasp_pose : pose) : list pose :=
  match k with
  | O => []
  | S k' =>
      rotated grasp_pose roll pitch yaw
      :: chain k' roll pitch yaw (rotated grasp_pose roll pitch yaw)
  end.

(** [n] successive rotations of a quaternion. *)
Fixpoint rotate_n (n : nat) (roll pitch yaw : R) (q : quaternion) : quaternion :=
  match n with
  | O => q
  | S n' => rotate_quaternion (rotate_n n' roll pitch yaw q) roll pitch yaw
  end.

(** The quaternion of the rotation by [theta] about the axis
    [(ux, uy, uz)]. *)
Definition axis_rotation (ux uy uz theta : R) : quaternion :=
  mkQuat (ux * sin (theta / 2)) (uy * sin (theta / 2)) (uz * sin (theta / 2))
         (cos (theta / 2)).

(** A check box as a coordinate of the axis. *)
Definition b2r (b : bool) : R := if b then 1 else 0.

(** The grasps the pattern is applied to: every pose when the selection
    is "all", otherwise the pose [poses[selected_pose]]. *)
Definition static_grasps_of (selected : Z) (l : list pose) : result (list pose) :=
  if (selected =? select_all)%Z then Ok l
  else g <- Py.index l selected ;; Ok [g].

(** The widget names an existing selection: "all" is checked, or the
    number typed is below the length of the pose list. *)
Definition selection_accepted (w : Widget R) (l : list pose) : Prop :=
  chkGraspSAllGrasps w = true \/
  exists i, chkGraspSAllGrasps w = false /\
            txtGraspSGraspNumbers w = Some i /\
            (i < Z.of_nat (List.length l))%Z.

(** The selection [update_selected_pose] makes. *)
Definition selection_of (w : Widget R) (st : State R) : Z :=
  if chkGraspSAllGrasps w then select_all
  else match txtGraspSGraspNumbers w with
       | Some i => i
       | None => selected_pose st
       end.

(** The step in radians. *)
Definition step_angle (w : Widget R) (step : R) : R :=
  if optEditGAngularUnitsDeg w then radians step else step.

(** A pose at [(x, 0, 0)] that is not rotated. *)
Definition upright (x : R) : pose := mkPose (mkVec x 0 0) qone.

(** A widget asking for a circular pattern on pose 0, with the axes, the
    step (in radians) and the count as given. *)
Definition circular_widget (x y z : bool) (step : R) (count : Z) : Widget R :=
  mkWidget false (Some 0%Z) false false true x y z false (Some step) false
           (Some count) "klt".

(** A session with the poses loaded and pose 0 selected. *)
Definition editing (poses : list pose) : State R :=
  mkState (Some poses) 0%Z [] [] None.

(** [q'] is [q] turned by the angle [theta] about some axis. *)
Definition rotated_by (q' q : quaternion) (theta : R) : Prop :=
  exists ux uy uz,
    ux * ux + uy * uy + uz * uz = 1 /\
    same_orientation q' (quaternion_multiply (axis_rotation ux uy uz theta) q).

End PatternSpec.

Module GraspYamlSpec.

Import Editor GraspYaml.
Local Open Scope string_scope.

(** The values of the digits [digits_fixed] prints. *)
Fixpoint digit_values (k : nat) (n : N) : list N :=
  match k with
  | O => []
  | S k' => ((n / 10 ^ N.of_nat k') mod 10)%N :: digit_values k' n
  end.

(** [s] is empty or starts with a character that is not a digit. *)
Definition starts_without_digit (s : string) : Prop :=
  match s with
  | EmptyString => True
  | String c _ => is_digit c = false
  end.

(** The value of an unsigned literal with integer digits [ip] and
    fraction digits [fp]. *)
Definition literal_value (ip fp : list N) : Q :=
  (inject_Z (Z.of_N (horner ip))
   + inject_Z (Z.of_N (horner fp)) / inject_Z (Py.pow10 (List.length fp)))%Q.

(** An unsigned literal at the head of [s]. *)
Definition read_unsigned (s : string) : option (Q * string) :=
  let '(ip, s2) := read_digits s in
  match ip, s2 with
  | _ :: _, String "."%char s3 =>
      let '(fp, s4) := read_digits s3 in Some (literal_value ip fp, s4)
  | _, _ => None
  end.

(** The text of a flow sequence after its opening bracket. *)
Fixpoint items_str (xs : list Q) : string :=
  match xs with
  | [] => "]"
  | [x] => format_6f x ++ "]"
  | x :: xs' => format_6f x ++ ", " ++ items_str xs'
  end.

(** A number of the file is a float whose value is the saved number
    rounded to six decimals. *)
Definition rounded (x : Q) (y : yaml) : Prop :=
  exists v, y = YFloat v /\ (v == Py.round x 6)%Q.

(** The entry of the file for one grasp. *)
Definition entry_rounded (grasp : Pose Q) (e : yaml) : Prop :=
  exists tx ty tz rx ry rz rw,
    e = YMap [("translation", YSeq [tx; ty; tz]);
              ("rotation", YSeq [rx; ry; rz; rw])] /\
    rounded (v_x (position grasp)) tx /\
    rounded (v_y (position grasp)) ty /\
    rounded (v_z (position grasp)) tz /\
    rounded (q_x (orientation grasp)) rx /\
    rounded (q_y (orientation grasp)) ry /\
    rounded (q_z (orientation grasp)) rz /\
    rounded (q_w (orientation grasp)) rw.

(** The three lines written for one grasp. *)
Definition entry_lines (grasp : Pose Q) : list string :=
  [ tab ++ tab ++ "-"; translation_str grasp; rotation_str grasp ].

(** The pose loaded from the entry of a grasp. *)
Definition pose_rounded (grasp : Pose Q) (p : Pose yaml) : Prop :=
  rounded (v_x (position grasp)) (v_x (position p)) /\
  rounded (v_y (position grasp)) (v_y (position p)) /\
  rounded (v_z (position grasp)) (v_z (position p)) /\
  rounded (q_x (orientation grasp)) (q_x (orientation p)) /\
  rounded (q_y (orientation grasp)) (q_y (orientation p)) /\
  rounded (q_z (orientation grasp)) (q_z (orientation p)) /\
  rounded (q_w (orientation grasp)) (q_w (orientation p)).

End GraspYamlSpec.

Module PlacementSpec.

Import PlaneTools.
Local Open Scope Q_scope.

(** [v] lies between [a] and [b], whichever of the two is the smaller,
    up to the tolerance [tol]. *)
Definition between (a b tol v : Q) : Prop :=
  Qmin a b - tol <= v /\ v <= Qmax a b + tol.

(** The instance ids 1, 2, ..., n. *)
Definition ids_from_one (n : nat) : list Z := map Z.of_nat (seq 1 n).

(** A scene in which nothing is known under the name "shelf". *)
Definition shelf_run (number_of_poses : Z)
  : option (result (gen_state (Q * Q * Q))) :=
  gen_place_poses_from_plane GeneratorSpec.example_euler
    GeneratorSpec.example_random "klt" "shelf" GeneratorSpec.example_plane
    GeneratorSpec.example_scene number_of_poses []
    (S (Z.to_nat max_attempts)) 0.3.

End PlacementSpec.

Module PlaneObjectsSpec.

Import PlaneTools Editor PlaneObjects.
Local Open Scope Q_scope.

(** The squared norm of a quaternion message. *)
Definition norm2 (q : Quaternion Q) : Q :=
  q_x q * q_x q + q_y q * q_y q + q_z q * q_z q + q_w q * q_w q.

(** The position every insertion pose gets: that of the support object,
    raised by [obj_height]. *)
Definition insert_position (support_object_pose : Pose Q) (obj_height : Q) : Point :=
  mkPoint (v_x (Editor.position support_object_pose))
          (v_y (Editor.position support_object_pose))
          (v_z (Editor.position support_object_pose) + obj_height).

(** Stand-ins for the tf conversions and the trigonometric functions in
    concrete runs: the conversions keep the angles in the fields x, y, z,
    and the box is not turned (cosine 1, sine 0). *)
Definition example_from_euler (roll pitch yaw : Q) : Quaternion Q :=
  mkQuat roll pitch yaw 1.

Definition example_to_euler (q : Quaternion Q) : Q * Q * Q :=
  (q_x q, q_y q, q_z q).

Definition example_support : Pose Q :=
  mkPose (mkVec 2 3 0.35) (mkQuat 0 0 0 1).

Definition not_turned (o : CollisionObject) : result (Q * Q * Q) := Ok (0, 0, 0).

Definition cos_not_turned (yaw : Q) : Q := 1.

Definition sin_not_turned (yaw : Q) : Q := 0.

Definition tilted (o : CollisionObject) : result (Q * Q * Q) := Ok (0.1, 0, 0).

(** The scene of the placement example with a cylinder added. *)
Definition scene_with_can : PlanningScene :=
  mkScene
    (("can"%string,
      mkCollisionObject (mkPoint 1 1 0.8) [mkPrimitive 3 [0.12; 0.03]])
     :: known_objects GeneratorSpec.example_scene)
    (attached_objects GeneratorSpec.example_scene).

End PlaneObjectsSpec.

Module SessionSpec.

Import Editor Pattern PatternSpec.
Local Open Scope R_scope.

(** The squared norm of a quaternion. *)
Definition qnorm2 (q : Quaternion R) : R :=
  q_x q * q_x q + q_y q * q_y q + q_z q * q_z q + q_w q * q_w q.

(** A pose whose orientation is a unit quaternion. *)
Definition unit_pose (p : Pose R) : Prop := qnorm2 (orientation p) = 1.

(** Every pose of the session has a unit orientation. *)
Definition unit_poses (st : State R) : Prop :=
  forall l, grasps_as_pose_array st = Some l -> Forall unit_pose l.

(** The mirror image the mirror pattern derives from a grasp: a half turn
    about each checked axis. *)
Definition mirrored (w : Widget R) (g : Pose R) : Pose R :=
  rotated g (axis_angle (chkEditGAxisX w) PI)
            (axis_angle (chkEditGAxisY w) PI)
            (axis_angle (chkEditGAxisZ w) PI).

(** A widget asking for the mirror pattern about the x axis, with the
    "all" box, the number box and the replace option as given. *)
Definition mirror_widget (all : bool) (number : option Z) (replace : bool)
  : Widget R :=
  mkWidget all number false true false true false false replace None false
           None "klt".

(** A session with the poses loaded and the selection as given. *)
Definition session (poses : list (Pose R)) (selected : Z) : State R :=
  mkState (Some poses) selected [] [] None.

End SessionSpec.

Module TransformSpec.

Import Editor Pattern PatternSpec SessionSpec Transform.
Local Open Scope R_scope.

(** The ten text boxes in the order [read_transform] converts them. *)
Definition boxes (w : TransformWidget) : list (option R) :=
  [ txtTransformLinearX w; txtTransformLinearY w; txtTransformLinearZ w;
    txtTransformAngularR w; txtTransformAngularP w; txtTransformAngularY w;
    txtTransformAngularQx w; txtTransformAngularQy w;
    txtTransformAngularQz w; txtTransformAngularQw w ].

(** An angle of the boxes in radians. *)
Definition angle_of (w : TransformWidget) (a : R) : R :=
  if optTransformUnitsDeg w then radians a else a.

(** The pose the boxes describe: the linear part and the orientation of
    the roll, pitch and yaw typed in. *)
Definition typed_pose (w : TransformWidget) (lx ly lz r p y : R) : Pose R :=
  mkPose (mkVec lx ly lz)
         (quaternion_from_euler (angle_of w r) (angle_of w p) (angle_of w y)).

(** The turn the boxes describe, applied to a grasp. *)
Definition turned (w : TransformWidget) (r p y : R) (g : Pose R) : Pose R :=
  rotated g (angle_of w r) (angle_of w p) (angle_of w y).

(** Boxes filled with a position, a yaw of 90 (degrees or radians as the
    buttons say) and a quaternion. *)
Definition example_transform (deg : bool) : TransformWidget :=
  mkTransformWidget (Some 1) (Some 2) (Some 3) (Some 0) (Some 0) (Some 90)
                    (Some 0) (Some 0) (Some 0) (Some 1) (negb deg) deg.

(** The same boxes with the yaw box left empty. *)
Definition example_transform_no_yaw : TransformWidget :=
  mkTransformWidget (Some 1) (Some 2) (Some 3) (Some 0) (Some 0) None
                    (Some 0) (Some 0) (Some 0) (Some 1) true false.

(** The select group with the number box as given and "all" unchecked. *)
Definition number_widget (number : Z) : Widget R :=
  mkWidget false (Some number) false false false false false false false None
           false None "klt".

(** The handler [m] keeps the orientations of the session unit
    quaternions, also when it raises, and what it returns satisfies
    [Q]. *)
Definition keeps {A} (m : Editor.M R A) (Q : A -> Prop) : Prop :=
  forall st, unit_poses st ->
    unit_poses (exec m st) /\ forall a, outcome m st = Ok a -> Q a.

End TransformSpec.

Module RoundTripSpec.

Import Editor GraspYaml.
Local Open Scope Q_scope.

(** Half a unit of the sixth decimal. *)
Definition half_unit : Q := 1 # 2000000.

(** A number of the loaded file is a float within half a unit of the
    sixth decimal of the number saved. *)
Definition close (x : Q) (y : yaml) : Prop :=
  exists v, y = YFloat v /\ Qabs (v - x) <= half_unit.

(** The pose loaded for a grasp agrees with it field by field. *)
Definition pose_close (grasp : Pose Q) (p : Pose yaml) : Prop :=
  close (v_x (position grasp)) (v_x (position p)) /\
  close (v_y (position grasp)) (v_y (position p)) /\
  close (v_z (position grasp)) (v_z (position p)) /\
  close (q_x (orientation grasp)) (q_x (orientation p)) /\
  close (q_y (orientation grasp)) (q_y (orientation p)) /\
  close (q_z (orientation grasp)) (q_z (orientation p)) /\
  close (q_w (orientation grasp)) (q_w (orientation p)).

(** Two grasps with numbers of more than six decimals. *)
Definition example_grasps : list (Pose Q) :=
  [ mkPose (mkVec (1 # 3) (- (2 # 7)) 0) (mkQuat 0 0 (1 # 1000000000) 1);
    mkPose (mkVec 12 (5 # 2) (- 1)) (mkQuat (1 # 2) (1 # 2) (1 # 2) (1 # 2)) ].

End RoundTripSpec.

(* ================================================================= *)
(** * Properties of support_plane_tools.py *)


Module PlaneToolsProps.
Import PlaneTools PlaneToolsSpec.
Local Open Scope Q_scope.

(** Linear arithmetic over [Q]. *)
Local Ltac lraQ := Lqa.lra.

(** *** The object-height table *)

Lemma getitem_in (d : list (string * Q)) (k : string) :
  (exists v, getitem d k = Ok v /\ In (k, v) d) \/
  (getitem d k = Raise (KeyError k) /\ ~ In k (map fst d)).
Proof.
  induction d as [|[k' v] d IH]; simpl.
  - right; split; [reflexivity | tauto].
  - destruct (String.eqb_spec k' k) as [->|Hne].
    + left; exists v; split; [reflexivity | now left].
    + destruct IH as [(v0 & Hv & Hin) | (Hr & Hnin)].
      * left; exists v0; split; [assumption | now right].
      * right; split; [assumption | intros [H|H]; [now apply Hne | now apply Hnin]].
Qed.

Lemma ohd_keys_correct : map fst ohd = ohd_keys.
Proof. reflexivity. Qed.

(** C9: for two object classes of the height table the function returns
    half the height of the support object plus half the height of the
    inserted object plus the gap; when the support class is not in the
    table the lookup raises KeyError for it, and when only the inserted
    class is missing, KeyError for that one. *)
Theorem compute_object_height_for_insertion_spec
    (object_class_tbi support_obj_class : string) (gap : Q) :
  (forall hs ht,
      getitem ohd support_obj_class = Ok hs ->
      getitem ohd object_class_tbi = Ok ht ->
      compute_object_height_for_insertion object_class_tbi support_obj_class gap
      = Ok (hs / 2 + ht / 2 + gap))
  /\ (In support_obj_class ohd_keys -> In object_class_tbi ohd_keys ->
      exists hs ht,
        In (support_obj_class, hs) ohd /\ In (object_class_tbi, ht) ohd /\
        compute_object_height_for_insertion object_class_tbi support_obj_class gap
        = Ok (hs / 2 + ht / 2 + gap))
  /\ (~ In support_obj_class ohd_keys ->
      compute_object_height_for_insertion object_class_tbi support_obj_class gap
      = Raise (KeyError support_obj_class))
  /\ (In support_obj_class ohd_keys -> ~ In object_class_tbi ohd_keys ->
      compute_object_height_for_insertion object_class_tbi support_obj_class gap
      = Raise (KeyError object_class_tbi)).
Proof.
  unfold compute_object_height_for_insertion.
  rewrite <- ohd_keys_correct.
  destruct (getitem_in ohd support_obj_class) as [(hs & Hs & Hsin) | (Hs & Hsn)];
    destruct (getitem_in ohd object_class_tbi) as [(ht & Ht & Htin) | (Ht & Htn)];
    rewrite Hs; cbn [bind]; try rewrite Ht; cbn [bind];
    (split; [intros hs' ht' E1 E2; congruence |]);
    (split; [intros I1 I2; try contradiction; eauto |]);
    (split; [intros I1; try reflexivity | intros I1 I2; try reflexivity; try contradiction]).
  - exfalso; apply I1. apply in_map_iff. exists (support_obj_class, hs); auto.
  - exfalso; apply I2. apply in_map_iff. exists (object_class_tbi, ht); auto.
  - exfalso; apply I1. apply in_map_iff. exists (support_obj_class, hs); auto.
Qed.

(** The klt box on the bag, and two classes the table does not know. *)
Lemma compute_object_height_for_insertion_witness :
  compute_object_height_for_insertion "klt" "bag" 0.02
  = Ok (0.34 / 2 + 0.14699999809265138 / 2 + 0.02)
  /\ compute_object_height_for_insertion "klt" "shelf" 0.02
     = Raise (KeyError "shelf")
  /\ compute_object_height_for_insertion "mug" "bag" 0.02
     = Raise (KeyError "mug").
Proof.
  assert (Hshelf : ~ In "shelf"%string ohd_keys)
    by (intros H; cbn in H; repeat (destruct H as [H | H]; [discriminate H |]);
        exact H).
  assert (Hmug : ~ In "mug"%string ohd_keys)
    by (intros H; cbn in H; repeat (destruct H as [H | H]; [discriminate H |]);
        exact H).
  assert (Hbag : In "bag"%string ohd_keys) by (cbn; tauto).
  split; [| split].
  - exact (proj1 (compute_object_height_for_insertion_spec "klt" "bag" 0.02)
             _ _ eq_refl eq_refl).
  - exact (proj1 (proj2 (proj2
             (compute_object_height_for_insertion_spec "klt" "shelf" 0.02)))
             Hshelf).
  - exact (proj2 (proj2 (proj2
             (compute_object_height_for_insertion_spec "mug" "bag" 0.02)))
             Hbag Hmug).
Defined.

(** *** Minimum and maximum of a list *)

Lemma is_min_unique l m m' : is_min m l -> is_min m' l -> m == m'.
Proof.
  intros [(x & Hx & Ex) Hm] [(x' & Hx' & Ex') Hm'].
  rewrite Forall_forall in Hm, Hm'.
  specialize (Hm _ Hx'). specialize (Hm' _ Hx). cbv beta in *. lraQ.
Qed.

Lemma is_max_unique l m m' : is_max m l -> is_max m' l -> m == m'.
Proof.
  intros [(x & Hx & Ex) Hm] [(x' & Hx' & Ex') Hm'].
  rewrite Forall_forall in Hm, Hm'.
  specialize (Hm _ Hx'). specialize (Hm' _ Hx). cbv beta in *. lraQ.
Qed.

Lemma is_min_eqv l m m' : m == m' -> is_min m l -> is_min m' l.
Proof.
  intros E [(x & Hx & Ex) Hm]. split.
  - exists x; split; [assumption | lraQ].
  - eapply Forall_impl; [| exact Hm]. simpl; intros; lraQ.
Qed.

Lemma is_max_eqv l m m' : m == m' -> is_max m l -> is_max m' l.
Proof.
  intros E [(x & Hx & Ex) Hm]. split.
  - exists x; split; [assumption | lraQ].
  - eapply Forall_impl; [| exact Hm]. simpl; intros; lraQ.
Qed.

Lemma fold_Qmin_spec xs x : is_min (fold_left Qmin xs x) (x :: xs).
Proof.
  revert x; induction xs as [|y xs IH]; intros x; simpl.
  - split; [exists x; split; [now left | reflexivity] | repeat constructor; lraQ].
  - destruct (IH (Qmin x y)) as [(z & Hz & Ez) Hall].
    inversion Hall as [|? ? Hhd Htl]; subst.
    split.
    + destruct Hz as [<- | Hz].
      * destruct (Q.min_spec x y) as [[_ E] | [_ E]].
        -- exists x; split; [now left | lraQ].
        -- exists y; split; [right; now left | lraQ].
      * exists z; split; [right; now right | assumption].
    + pose proof (Q.le_min_l x y). pose proof (Q.le_min_r x y).
      constructor; [lraQ | constructor; [lraQ | assumption]].
Qed.

Lemma fold_Qmax_spec xs x : is_max (fold_left Qmax xs x) (x :: xs).
Proof.
  revert x; induction xs as [|y xs IH]; intros x; simpl.
  - split; [exists x; split; [now left | reflexivity] | repeat constructor; lraQ].
  - destruct (IH (Qmax x y)) as [(z & Hz & Ez) Hall].
    inversion Hall as [|? ? Hhd Htl]; subst.
    split.
    + destruct Hz as [<- | Hz].
      * destruct (Q.max_spec x y) as [[_ E] | [_ E]].
        -- exists y; split; [right; now left | lraQ].
        -- exists x; split; [now left | lraQ].
      * exists z; split; [right; now right | assumption].
    + pose proof (Q.le_max_l x y). pose proof (Q.le_max_r x y).
      constructor; [lraQ | constructor; [lraQ | assumption]].
Qed.

Lemma py_min_spec l : l <> [] -> exists m, Py.min l = Ok m /\ is_min m l.
Proof.
  destruct l as [|x xs]; [congruence | intros _].
  exists (fold_left Qmin xs x); split; [reflexivity | apply fold_Qmin_spec].
Qed.

Lemma py_max_spec l : l <> [] -> exists m, Py.max l = Ok m /\ is_max m l.
Proof.
  destruct l as [|x xs]; [congruence | intros _].
  exists (fold_left Qmax xs x); split; [reflexivity | apply fold_Qmax_spec].
Qed.

Lemma is_min_perm l l' m : Permutation l l' -> is_min m l -> is_min m l'.
Proof.
  intros P [(x & Hx & Ex) Hm]. split.
  - exists x; split; [eapply Permutation_in; eauto | assumption].
  - eapply Permutation_Forall; eauto.
Qed.

Lemma is_max_perm l l' m : Permutation l l' -> is_max m l -> is_max m l'.
Proof.
  intros P [(x & Hx & Ex) Hm]. split.
  - exists x; split; [eapply Permutation_in; eauto | assumption].
  - eapply Permutation_Forall; eauto.
Qed.

Lemma is_min_map_ext {A} (f g : A -> Q) l m :
  (forall a, f a == g a) -> is_min m (map f l) -> is_min m (map g l).
Proof.
  intros E [(x & Hx & Ex) Hm]. split.
  - apply in_map_iff in Hx. destruct Hx as (a & <- & Ha).
    exists (g a); split; [now apply in_map | rewrite <- (E a); assumption].
  - rewrite Forall_forall in *. intros y Hy.
    apply in_map_iff in Hy. destruct Hy as (a & <- & Ha).
    rewrite <- (E a). apply Hm. now apply in_map.
Qed.

Lemma is_max_map_ext {A} (f g : A -> Q) l m :
  (forall a, f a == g a) -> is_max m (map f l) -> is_max m (map g l).
Proof.
  intros E [(x & Hx & Ex) Hm]. split.
  - apply in_map_iff in Hx. destruct Hx as (a & <- & Ha).
    exists (g a); split; [now apply in_map | rewrite <- (E a); assumption].
  - rewrite Forall_forall in *. intros y Hy.
    apply in_map_iff in Hy. destruct Hy as (a & <- & Ha).
    rewrite <- (E a). apply Hm. now apply in_map.
Qed.

(** Shifting every member shifts the minimum and the maximum. *)
Lemma is_min_shift {A} (f : A -> Q) l m c :
  is_min m (map f l) -> is_min (m + c) (map (fun a => f a + c) l).
Proof.
  intros [(x & Hx & Ex) Hm]. split.
  - apply in_map_iff in Hx. destruct Hx as (a & <- & Ha).
    exists (f a + c); split; [| lraQ].
    apply in_map_iff. exists a; auto.
  - rewrite Forall_forall in *. intros y Hy.
    apply in_map_iff in Hy. destruct Hy as (a & <- & Ha).
    assert (m <= f a) by (apply Hm; now apply in_map). lraQ.
Qed.

Lemma is_max_shift {A} (f : A -> Q) l m c :
  is_max m (map f l) -> is_max (m + c) (map (fun a => f a + c) l).
Proof.
  intros [(x & Hx & Ex) Hm]. split.
  - apply in_map_iff in Hx. destruct Hx as (a & <- & Ha).
    exists (f a + c); split; [| lraQ].
    apply in_map_iff. exists a; auto.
  - rewrite Forall_forall in *. intros y Hy.
    apply in_map_iff in Hy. destruct Hy as (a & <- & Ha).
    assert (f a <= m) by (apply Hm; now apply in_map). lraQ.
Qed.

(** *** adjust_plane *)

Lemma py_set_incl l x : In x (py_set l) -> In x l.
Proof.
  revert x; induction l as [|a l IH]; simpl; intros x H; [assumption |].
  destruct H as [H | H]; [now left |].
  apply filter_In in H. right. apply IH. tauto.
Qed.

Lemma py_set_represents l x : In x l -> exists y, In y (py_set l) /\ y == x.
Proof.
  induction l as [|a l IH]; simpl; intros H; [contradiction |].
  destruct H as [-> | H].
  - exists x; split; [now left | reflexivity].
  - destruct (IH H) as (y & Hy & Ey).
    destruct (Qeq_bool a y) eqn:E.
    + apply Qeq_bool_eq in E. exists a; split; [now left | lraQ].
    + exists y; split; [| assumption].
      right. apply filter_In. split; [assumption | now rewrite E].
Qed.

Lemma py_set_single l :
  (List.length (py_set l) <=? 1)%nat = true <->
  (forall a b, In a l -> In b l -> a == b).
Proof.
  destruct l as [|x l]; simpl.
  - split; [intros _ a b [] | reflexivity].
  - rewrite Nat.leb_le. split.
    + intros Hlen.
      assert (Hnil : filter (fun y => negb (Qeq_bool x y)) (py_set l) = [])
        by (destruct (filter _ _); [reflexivity | simpl in Hlen; lia]).
      assert (Hx : forall a, In a l -> x == a).
      { intros a Ha. destruct (py_set_represents l a Ha) as (y & Hy & Ey).
        destruct (Qeq_bool x y) eqn:E.
        - apply Qeq_bool_eq in E. lraQ.
        - exfalso. assert (Hin : In y []) ; [| exact Hin].
          rewrite <- Hnil. apply filter_In. split; [assumption | now rewrite E]. }
      intros a b [<- | Ha] [<- | Hb].
      * reflexivity.
      * now apply Hx.
      * symmetry; now apply Hx.
      * rewrite <- (Hx a Ha). now apply Hx.
    + intros Hall.
      assert (Hnil : filter (fun y => negb (Qeq_bool x y)) (py_set l) = []).
      { destruct (filter _ _) as [|y r] eqn:E; [reflexivity | exfalso].
        assert (Hy : In y (filter (fun y => negb (Qeq_bool x y)) (py_set l)))
          by (rewrite E; now left).
        apply filter_In in Hy. destruct Hy as [Hy Hneg].
        apply py_set_incl in Hy.
        assert (x == y) by (apply Hall; [now left | now right]).
        apply Qeq_eq_bool in H. rewrite H in Hneg. discriminate. }
      rewrite Hnil. simpl. lia.
Qed.

Lemma coplanar_check plane :
  (List.length (py_set (map p_z plane)) <=? 1)%nat = true <-> coplanar plane.
Proof.
  rewrite py_set_single. unfold coplanar. split.
  - intros H p q Hp Hq. apply H; now apply in_map.
  - intros H a b Ha Hb.
    apply in_map_iff in Ha. destruct Ha as (p & <- & Hp).
    apply in_map_iff in Hb. destruct Hb as (q & <- & Hq).
    now apply H.
Qed.

Lemma adjust_plane_ok plane x_extend y_extend x_offset y_offset :
  plane <> [] -> coplanar plane ->
  exists min_x max_x min_y max_y p0,
    hd_error plane = Some p0 /\
    is_min min_x (map (fun p => p_x p + x_offset) plane) /\
    is_max max_x (map (fun p => p_x p + x_offset) plane) /\
    is_min min_y (map (fun p => p_y p + y_offset) plane) /\
    is_max max_y (map (fun p => p_y p + y_offset) plane) /\
    adjust_plane plane x_extend y_extend x_offset y_offset
    = Ok (rectangle (min_x - x_extend) (max_x + x_extend)
                    (min_y - y_extend) (max_y + y_extend) (p_z p0)).
Proof.
  intros Hne Hco. unfold adjust_plane.
  rewrite (proj2 (coplanar_check plane) Hco). cbn [negb].
  rewrite !map_map. cbn [p_x p_y p_z].
  destruct plane as [|p0 rest]; [congruence |].
  destruct (@py_min_spec (map (fun p => p_x p + x_offset) (p0 :: rest)))
    as (mnx & E1 & H1); [discriminate |].
  destruct (@py_max_spec (map (fun p => p_x p + x_offset) (p0 :: rest)))
    as (mxx & E2 & H2); [discriminate |].
  destruct (@py_min_spec (map (fun p => p_y p + y_offset) (p0 :: rest)))
    as (mny & E3 & H3); [discriminate |].
  destruct (@py_max_spec (map (fun p => p_y p + y_offset) (p0 :: rest)))
    as (mxy & E4 & H4); [discriminate |].
  exists mnx, mxx, mny, mxy, p0.
  rewrite E1, E2, E3, E4. cbn [bind].
  repeat (split; [assumption || reflexivity |]).
  reflexivity.
Qed.

Lemma adjust_plane_not_coplanar plane x_extend y_extend x_offset y_offset :
  ~ coplanar plane ->
  adjust_plane plane x_extend y_extend x_offset y_offset
  = Raise (ValueError not_parallel_msg).
Proof.
  intros Hn. unfold adjust_plane.
  destruct (List.length (py_set (map p_z plane)) <=? 1)%nat eqn:E.
  - exfalso. apply Hn. now apply coplanar_check.
  - reflexivity.
Qed.

Lemma coplanar_perm plane plane' :
  Permutation plane plane' -> coplanar plane -> coplanar plane'.
Proof.
  intros P H p q Hp Hq.
  apply H; (eapply Permutation_in; [apply Permutation_sym; exact P | assumption]).
Qed.

Lemma has_bounds_unique plane a b c d a' b' c' d' :
  has_bounds plane a b c d -> has_bounds plane a' b' c' d' ->
  a == a' /\ b == b' /\ c == c' /\ d == d'.
Proof.
  intros (H1 & H2 & H3 & H4) (K1 & K2 & K3 & K4).
  repeat split;
    eauto using is_min_unique, is_max_unique.
Qed.

Lemma has_bounds_eqv plane a b c d a' b' c' d' :
  a == a' -> b == b' -> c == c' -> d == d' ->
  has_bounds plane a b c d -> has_bounds plane a' b' c' d'.
Proof.
  intros E1 E2 E3 E4 (H1 & H2 & H3 & H4).
  split; [| split; [| split]]; eauto using is_min_eqv, is_max_eqv.
Qed.

Lemma is_min_le_max l m m' : is_min m l -> is_max m' l -> m <= m'.
Proof.
  intros [(x & Hx & Ex) Hm] [_ Hm'].
  rewrite Forall_forall in Hm'. specialize (Hm' _ Hx). cbv beta in *. lraQ.
Qed.

Lemma rectangle_coplanar x0 x1 y0 y1 z : coplanar (rectangle x0 x1 y0 y1 z).
Proof.
  intros p q Hp Hq. unfold rectangle in *. simpl in Hp, Hq.
  repeat (destruct Hp as [<- | Hp]; [|]); try contradiction;
    repeat (destruct Hq as [<- | Hq]; [|]); try contradiction; reflexivity.
Qed.

Lemma is_min_pair a b : is_min (Qmin a b) [a; b; b; a].
Proof.
  split.
  - destruct (Q.min_spec a b) as [[_ E] | [_ E]].
    + exists a; split; [now left | lraQ].
    + exists b; split; [right; now left | lraQ].
  - pose proof (Q.le_min_l a b). pose proof (Q.le_min_r a b).
    repeat constructor; lraQ.
Qed.

Lemma is_max_pair a b : is_max (Qmax a b) [a; b; b; a].
Proof.
  split.
  - destruct (Q.max_spec a b) as [[_ E] | [_ E]].
    + exists b; split; [right; now left | lraQ].
    + exists a; split; [now left | lraQ].
  - pose proof (Q.le_max_l a b). pose proof (Q.le_max_r a b).
    repeat constructor; lraQ.
Qed.

Lemma rectangle_bounds x0 x1 y0 y1 z :
  has_bounds (rectangle x0 x1 y0 y1 z)
             (Qmin x0 x1) (Qmax x0 x1) (Qmin y0 y1) (Qmax y0 y1).
Proof.
  unfold has_bounds, rectangle; cbn [map p_x p_y].
  split; [apply is_min_pair | split; [apply is_max_pair | split]].
  - destruct (is_min_pair y1 y0) as [(x & Hx & Ex) Hall].
    split.
    + exists x. split; [simpl in *; tauto | rewrite Ex; apply Q.min_comm].
    + rewrite Forall_forall in *. intros y Hy. rewrite (Q.min_comm y0 y1).
      apply Hall. simpl in *; tauto.
  - destruct (is_max_pair y1 y0) as [(x & Hx & Ex) Hall].
    split.
    + exists x. split; [simpl in *; tauto | rewrite Ex; apply Q.max_comm].
    + rewrite Forall_forall in *. intros y Hy. rewrite (Q.max_comm y0 y1).
      apply Hall. simpl in *; tauto.
Qed.

(** The bounds found by one call, in terms of the bounds of its input. *)
Lemma adjust_plane_bounds plane x_extend y_extend x_offset y_offset a b c d :
  plane <> [] -> coplanar plane -> has_bounds plane a b c d ->
  exists min_x max_x min_y max_y p0,
    hd_error plane = Some p0 /\
    min_x == a + x_offset /\ max_x == b + x_offset /\
    min_y == c + y_offset /\ max_y == d + y_offset /\
    adjust_plane plane x_extend y_extend x_offset y_offset
    = Ok (rectangle (min_x - x_extend) (max_x + x_extend)
                    (min_y - y_extend) (max_y + y_extend) (p_z p0)).
Proof.
  intros Hne Hco (Ha & Hb & Hc & Hd).
  destruct (adjust_plane_ok x_extend y_extend x_offset y_offset Hne Hco)
    as (mnx & mxx & mny & mxy & p0 & Hhd & H1 & H2 & H3 & H4 & E).
  exists mnx, mxx, mny, mxy, p0.
  repeat (split; [first [ assumption
                        | eapply is_min_unique; [eassumption | now apply is_min_shift]
                        | eapply is_max_unique; [eassumption | now apply is_max_shift] ] |]).
  assumption.
Qed.

Local Ltac minmax_cases :=
  repeat match goal with
         | |- context [Qmin ?a ?b] =>
             let E := fresh "E" in
             destruct (Q.min_spec a b) as [[? E] | [? E]];
             revert E; generalize (Qmin a b); intros ? E
         | |- context [Qmax ?a ?b] =>
             let E := fresh "E" in
             destruct (Q.max_spec a b) as [[? E] | [? E]];
             revert E; generalize (Qmax a b); intros ? E
         end.

(** C10: for a coplanar plane of four points, whatever the order in which
    the corners are given, [adjust_plane] returns the four corners
    (min_x - x_extend, min_y - y_extend), (max_x + x_extend, min_y -
    y_extend), (max_x + x_extend, max_y + y_extend), (min_x - x_extend,
    max_y + y_extend) in this order, where min_x, max_x, min_y, max_y
    are the bounds of the offset input, and every corner has the z of the
    input points. *)
Theorem adjust_plane_canonical_corners
    (plane plane' : list Point) (x_extend y_extend x_offset y_offset : Q)
    (a b c d : Q) :
  List.length plane = 4%nat ->
  coplanar plane ->
  has_bounds plane a b c d ->
  Permutation plane plane' ->
  exists out,
    adjust_plane plane' x_extend y_extend x_offset y_offset = Ok out /\
    forall p, In p plane ->
      Forall2 point_eqv out
        (rectangle (a + x_offset - x_extend) (b + x_offset + x_extend)
                   (c + y_offset - y_extend) (d + y_offset + y_extend)
                   (p_z p)).
Proof.
  intros Hlen Hco Hb P.
  assert (Hne : plane' <> []).
  { intros ->. apply Permutation_length in P. rewrite Hlen in P. discriminate. }
  assert (Hco' : coplanar plane') by (eapply coplanar_perm; eauto).
  assert (Hb' : has_bounds plane' a b c d).
  { destruct Hb as (H1 & H2 & H3 & H4).
    split; [| split; [| split]];
      [ eapply is_min_perm | eapply is_max_perm
      | eapply is_min_perm | eapply is_max_perm ];
      try eassumption; now apply Permutation_map. }
  destruct (adjust_plane_bounds x_extend y_extend x_offset y_offset Hne Hco' Hb')
    as (mnx & mxx & mny & mxy & p0 & Hhd & E1 & E2 & E3 & E4 & E).
  eexists; split; [exact E |].
  intros p Hp.
  assert (Hz : p_z p0 == p_z p).
  { apply Hco'; [| eapply Permutation_in; eauto].
    destruct plane'; [discriminate | injection Hhd as ->; now left]. }
  unfold rectangle, point_eqv.
  repeat constructor; cbn [p_x p_y p_z]; lraQ.
Qed.

(** An instance: the unit square with its first two corners exchanged,
    extended by 1/2 in x and offset by 2 in y. *)
Lemma adjust_plane_canonical_corners_witness :
  exists out,
    adjust_plane
      [mkPoint 1 0 0.75; mkPoint 0 0 0.75; mkPoint 1 1 0.75; mkPoint 0 1 0.75]
      0.5 0 0 2 = Ok out /\
    Forall2 point_eqv out
      (rectangle (0 + 0 - 0.5) (1 + 0 + 0.5) (0 + 2 - 0) (1 + 2 + 0) 0.75).
Proof.
  destruct (@adjust_plane_canonical_corners
              (rectangle 0 1 0 1 0.75)
              [mkPoint 1 0 0.75; mkPoint 0 0 0.75; mkPoint 1 1 0.75;
               mkPoint 0 1 0.75]
              0.5 0 0 2 0 1 0 1) as (out & E & H).
  - reflexivity.
  - apply rectangle_coplanar.
  - eapply has_bounds_eqv; [| | | | apply rectangle_bounds]; reflexivity.
  - apply perm_swap.
  - exists out. split; [exact E |].
    exact (H (mkPoint 0 0 0.75) (or_introl eq_refl)).
Defined.

(** C7 (as amended): for a coplanar plane of four points with bounds
    [a <= x <= b], [c <= y <= d],
    - [adjust_plane] with all four deltas zero returns a rectangle with
      the same bounds;
    - [adjust_plane] with [x_extend = dx] followed by [adjust_plane] with
      [x_extend = -dx] returns a rectangle with the original bounds
      exactly when [a - dx <= b + dx], that is when the first call does
      not shrink the rectangle past zero width (in particular for every
      [dx >= 0]);
    and for an input that is not coplanar [adjust_plane] raises
    ValueError. *)
Theorem adjust_plane_extend_and_back (plane : list Point) (a b c d : Q) :
  List.length plane = 4%nat ->
  coplanar plane ->
  has_bounds plane a b c d ->
  (exists out, adjust_plane plane 0 0 0 0 = Ok out /\ has_bounds out a b c d)
  /\ (forall dx, exists out1 out2,
        adjust_plane plane dx 0 0 0 = Ok out1 /\
        adjust_plane out1 (- dx) 0 0 0 = Ok out2 /\
        (has_bounds out2 a b c d <-> a - dx <= b + dx))
  /\ (forall other x_extend y_extend x_offset y_offset,
        ~ coplanar other ->
        adjust_plane other x_extend y_extend x_offset y_offset
        = Raise (ValueError not_parallel_msg)).
Proof.
  intros Hlen Hco Hb.
  assert (Hne : plane <> []) by (intros ->; discriminate).
  assert (Hab : a <= b) by (destruct Hb as (? & ? & ? & ?); eauto using is_min_le_max).
  assert (Hcd : c <= d) by (destruct Hb as (? & ? & ? & ?); eauto using is_min_le_max).
  split; [| split].
  - destruct (adjust_plane_bounds 0 0 0 0 Hne Hco Hb)
      as (mnx & mxx & mny & mxy & p0 & _ & E1 & E2 & E3 & E4 & E).
    eexists; split; [exact E |].
    eapply has_bounds_eqv; [| | | | apply rectangle_bounds];
      minmax_cases; lraQ.
  - intros dx.
    destruct (adjust_plane_bounds dx 0 0 0 Hne Hco Hb)
      as (mnx & mxx & mny & mxy & p0 & _ & E1 & E2 & E3 & E4 & E).
    set (out1 := rectangle (mnx - dx) (mxx + dx) (mny - 0) (mxy + 0) (p_z p0)) in *.
    assert (Hne1 : out1 <> []) by discriminate.
    destruct (adjust_plane_bounds (- dx) 0 0 0 Hne1
                (@rectangle_coplanar _ _ _ _ _) (@rectangle_bounds _ _ _ _ _))
      as (mnx2 & mxx2 & mny2 & mxy2 & p1 & _ & F1 & F2 & F3 & F4 & F).
    exists out1. eexists. split; [exact E | split; [exact F |]].
    split.
    + intros H.
      destruct (has_bounds_unique H (@rectangle_bounds _ _ _ _ _))
        as (G1 & G2 & G3 & G4).
      revert F1 F2 G1 G2. clear - E1 E2 Hab. intros F1 F2 G1 G2.
      revert F1 F2 G1 G2; minmax_cases; intros; lraQ.
    + intros H.
      eapply has_bounds_eqv; [| | | | apply rectangle_bounds];
        revert F1 F2 F3 F4; minmax_cases; intros; lraQ.
  - intros other xe ye xo yo Hn. now apply adjust_plane_not_coplanar.
Qed.

Local Tactic Notation "concrete_bound" integer(n) :=
  split;
  [ eexists; split; [do n right; left; reflexivity | unfold Qeq; simpl; lia]
  | repeat constructor; unfold Qle; simpl; lia ].

(** An instance: the unit square at height 0, extended and contracted by
    a quarter, and a plane with one corner lifted. *)
Lemma adjust_plane_extend_and_back_witness :
  (exists out,
      adjust_plane (rectangle 0 1 0 1 0) 0 0 0 0 = Ok out /\
      has_bounds out 0 1 0 1)
  /\ (exists out1 out2,
        adjust_plane (rectangle 0 1 0 1 0) 0.25 0 0 0 = Ok out1 /\
        adjust_plane out1 (- 0.25) 0 0 0 = Ok out2 /\
        has_bounds out2 0 1 0 1)
  /\ adjust_plane [mkPoint 0 0 0; mkPoint 1 0 0; mkPoint 1 1 1; mkPoint 0 1 0]
                  0 0 0 0
     = Raise (ValueError not_parallel_msg).
Proof.
  destruct (@adjust_plane_extend_and_back (rectangle 0 1 0 1 0) 0 1 0 1)
    as (H1 & H2 & H3).
  - reflexivity.
  - apply rectangle_coplanar.
  - eapply has_bounds_eqv; [| | | | apply rectangle_bounds]; reflexivity.
  - split; [exact H1 |]. split.
    + destruct (H2 0.25) as (out1 & out2 & E1 & E2 & Hiff).
      exists out1, out2. split; [exact E1 |]. split; [exact E2 |].
      apply Hiff. unfold Qle; cbn; lia.
    + apply H3. intros Hco.
      specialize (Hco (mkPoint 1 1 1) (mkPoint 0 0 0)).
      cbn in Hco. assert (E : 1 == 0) by (apply Hco; tauto).
      discriminate E.
Defined.

(** C7 as stated fails when the first call contracts the plane by more
    than half its width: the unit square, contracted by 1 in x and then
    extended by 1, ends with x between -1 and 2. *)
Lemma adjust_plane_extend_and_back_counterexample :
  coplanar (rectangle 0 1 0 1 0) /\
  has_bounds (rectangle 0 1 0 1 0) 0 1 0 1 /\
  exists out1 out2,
    adjust_plane (rectangle 0 1 0 1 0) (- (1)) 0 0 0 = Ok out1 /\
    adjust_plane out1 (- - (1)) 0 0 0 = Ok out2 /\
    has_bounds out2 (- (1)) 2 0 1 /\
    ~ has_bounds out2 0 1 0 1.
Proof.
  split; [apply rectangle_coplanar |].
  split; [eapply has_bounds_eqv; [| | | | apply rectangle_bounds]; reflexivity |].
  eexists. eexists.
  split; [vm_compute; reflexivity |].
  split; [vm_compute; reflexivity |].
  split.
  - split; [| split; [| split]]; cbn [map p_x p_y].
    + concrete_bound 0.
    + concrete_bound 1.
    + concrete_bound 0.
    + concrete_bound 2.
  - intros (H & _). destruct H as [_ H].
    inversion H as [|x l Hx _]; subst.
    revert Hx. unfold Qle; simpl. lia.
Qed.

End PlaneToolsProps.



Module GeneratorProps.
Import PlaneTools GeneratorSpec.
Local Open Scope Q_scope.
Local Ltac lraQ := Lqa.lra.

(** *** well_separated *)

Lemma count_fold {A} (f : A -> bool) (l : list A) (acc : nat) :
  fold_left (fun tc p => if f p then S tc else tc) l acc
  = (acc + List.length (filter f l))%nat.
Proof.
  revert acc; induction l as [|a l IH]; intros acc; simpl.
  - lia.
  - rewrite IH. destruct (f a); simpl; lia.
Qed.

Lemma filter_all {A} (f : A -> bool) (l : list A) :
  List.length (filter f l) = List.length l <-> Forall (fun a => f a = true) l.
Proof.
  induction l as [|a l IH]; simpl.
  - split; [constructor | reflexivity].
  - pose proof (filter_length_le f l) as Hle.
    destruct (f a) eqn:E; simpl; split; intros H.
    + constructor; [assumption | apply IH; lia].
    + inversion H; subst. f_equal. now apply IH.
    + lia.
    + inversion H; subst. congruence.
Qed.

Lemma well_separated_true (l : list (Q * Q)) (cx cy d : Q) :
  well_separated l cx cy d = true <->
  Forall (fun p => dist_gt (cx, cy) p d = true) l.
Proof.
  unfold well_separated. rewrite count_fold.
  destruct l as [|a l]; [simpl; split; [constructor | reflexivity] |].
  change (List.length (a :: l) =? 0)%nat with false. cbv iota.
  rewrite Nat.add_0_l, <- filter_all.
  match goal with
  | |- context [Nat.eqb ?x ?y] => destruct (Nat.eqb_spec x y) as [E | E]
  end.
  - split; [intros _; exact E | reflexivity].
  - split; [discriminate | intros H; exfalso; apply E; exact H].
Qed.

Lemma Qltb_lt (a b : Q) : Qltb a b = true <-> a < b.
Proof.
  unfold Qltb. rewrite negb_true_iff.
  destruct (Qle_bool b a) eqn:E.
  - apply Qle_bool_iff in E. split; [discriminate | intros; lraQ].
  - split; [intros _ | reflexivity].
    destruct (Qlt_le_dec a b) as [H | H]; [assumption |].
    apply Qle_bool_iff in H. congruence.
Qed.

Lemma dist_gt_iff (a b : Q * Q) (d : Q) :
  dist_gt a b d = true <-> d < 0 \/ d * d < sqdist a b.
Proof.
  unfold dist_gt. rewrite orb_true_iff, !Qltb_lt. tauto.
Qed.

Lemma sqdist_sym (a b : Q * Q) : sqdist a b == sqdist b a.
Proof. unfold sqdist. ring. Qed.

Lemma dist_gt_sym (a b : Q * Q) (d : Q) : dist_gt a b d = dist_gt b a d.
Proof.
  apply eq_true_iff_eq. rewrite !dist_gt_iff. rewrite (sqdist_sym a b). tauto.
Qed.

(** *** The sampling loop *)

Section Sampling.

Variable quat : Type.
Variable quaternion_from_euler : Q -> Q -> Q -> quat.
Variable random : nat -> Q.
Variable object_class : string.
Variable support_object : string.
Variable plane : list Point.
Variable planning_scene : PlanningScene.
Variable number_of_poses : Z.
Variable ignore_min_dist_list : list string.

Local Abbreviation sample :=
  (sample_position random object_class support_object plane ignore_min_dist_list).
Local Abbreviation one :=
  (place_one quaternion_from_euler random object_class support_object plane
             planning_scene number_of_poses ignore_min_dist_list).
Local Abbreviation loop :=
  (place_loop quaternion_from_euler random object_class support_object plane
              planning_scene number_of_poses ignore_min_dist_list).
Local Abbreviation gen :=
  (gen_place_poses_from_plane quaternion_from_euler random object_class
     support_object plane planning_scene number_of_poses ignore_min_dist_list).
Local Abbreviation ignored :=
  (existsb (String.eqb support_object) ignore_min_dist_list).
Local Abbreviation roll := (object_roll object_class).
Local Abbreviation group_at :=
  (poses_at quaternion_from_euler object_class number_of_poses).
Local Abbreviation pose_here := (pose_at quaternion_from_euler object_class).

(** The loop leaves within [max_attempts + 1 - count] iterations. *)
Lemma sample_position_terminates fuel x_y_list min_dist draws count logged :
  (count <= max_attempts)%Z ->
  (Z.to_nat (max_attempts + 1 - count) <= fuel)%nat ->
  sample fuel x_y_list min_dist draws count logged <> None.
Proof.
  revert draws count.
  induction fuel as [|fuel IH]; intros draws count Hc Hf.
  - exfalso. unfold max_attempts in *. lia.
  - simpl. destruct (candidate random plane draws) as [[cx cy] | e]; [| discriminate].
    destruct ignored; [discriminate |].
    destruct (well_separated x_y_list cx cy min_dist); [discriminate |].
    destruct (count + 1 >? max_attempts)%Z eqn:E; [discriminate |].
    apply IH; unfold max_attempts in *; lia.
Qed.

(** What the loop returns: the point of its last attempt, accepted because
    the support object is in the ignore list, or because it is well
    separated, or because the attempts are used up; the cap warning is
    logged in the last case and only then. *)
Lemma sample_position_sound fuel x_y_list min_dist draws count logged
      cx cy draws' logged' :
  (count <= max_attempts)%Z ->
  sample fuel x_y_list min_dist draws count logged
  = Some (Ok (cx, cy, draws', logged')) ->
  exists k, draws' = (draws + 2 * S k)%nat /\
            candidate random plane (draws + 2 * k) = Ok (cx, cy) /\
            ((ignored = true /\
              logged' = logged ++ [WarnIgnoringMinDist object_class])
             \/ (ignored = false /\
                 well_separated x_y_list cx cy min_dist = true /\
                 logged' = logged)
             \/ (ignored = false /\
                 well_separated x_y_list cx cy min_dist = false /\
                 (count + Z.of_nat (S k) = max_attempts + 1)%Z /\
                 logged' = logged ++ [WarnCouldNotSeparate min_dist])).
Proof.
  revert draws count.
  induction fuel as [|fuel IH]; intros draws count Hc H; [discriminate |].
  simpl in H.
  destruct (candidate random plane draws) as [[x y] | e] eqn:Ec; [| discriminate].
  destruct ignored eqn:Ei.
  { injection H as <- <- <- <-. exists O.
    rewrite Nat.add_0_r. split; [lia | split; [assumption |]].
    left; auto. }
  destruct (well_separated x_y_list x y min_dist) eqn:Ew.
  { injection H as <- <- <- <-. exists O.
    rewrite Nat.add_0_r. split; [lia | split; [assumption |]].
    right; left; auto. }
  destruct (count + 1 >? max_attempts)%Z eqn:E.
  { injection H as <- <- <- <-. exists O.
    rewrite Nat.add_0_r. split; [lia | split; [assumption |]].
    right; right. apply Z.gtb_lt in E.
    split; [reflexivity | split; [assumption | split; [lia | reflexivity]]]. }
  assert (Hc' : (count + 1 <= max_attempts)%Z)
    by (rewrite Z.gtb_ltb in E; apply Z.ltb_ge in E; exact E).
  apply IH in H; [| exact Hc']. destruct H as (k & -> & Hcand & Hcases).
  exists (S k). split; [lia |].
  split; [rewrite <- Hcand; f_equal; lia |].
  destruct Hcases as [? | [? | (? & ? & ? & ?)]]; auto.
  right; right. split; [assumption | split; [assumption | split; [lia | assumption]]].
Qed.

Lemma index_in_range {A} (l : list A) (i : nat) :
  (i < List.length l)%nat -> exists a, Py.index l (Z.of_nat i) = Ok a.
Proof.
  intros H. unfold Py.index.
  destruct (Z.of_nat i <? 0)%Z eqn:E1; [apply Z.ltb_lt in E1; lia |].
  rewrite E1. cbn [orb].
  destruct (Z.of_nat (List.length l) <=? Z.of_nat i)%Z eqn:E2;
    [apply Z.leb_le in E2; lia |].
  rewrite Nat2Z.id.
  destruct (nth_error l i) eqn:E3; [eauto |].
  apply nth_error_None in E3. lia.
Qed.

Lemma candidate_total draws :
  (4 <= List.length plane)%nat -> exists c, candidate random plane draws = Ok c.
Proof.
  intros H. unfold candidate.
  destruct (@index_in_range _ plane 0) as (p0 & E0); [lia |].
  destruct (@index_in_range _ plane 1) as (p1 & E1); [lia |].
  destruct (@index_in_range _ plane 3) as (p3 & E3); [lia |].
  change (Z.of_nat 0) with 0%Z in E0. change (Z.of_nat 1) with 1%Z in E1.
  change (Z.of_nat 3) with 3%Z in E3.
  rewrite E0, E1. cbn [bind]. rewrite E3. cbn [bind]. eauto.
Qed.

Lemma sample_position_no_raise fuel x_y_list min_dist draws count logged e :
  (4 <= List.length plane)%nat ->
  sample fuel x_y_list min_dist draws count logged <> Some (Raise e).
Proof.
  intros Hp. revert draws count.
  induction fuel as [|fuel IH]; intros draws count; simpl; [discriminate |].
  destruct (candidate_total draws Hp) as ([cx cy] & ->).
  destruct ignored; [discriminate |].
  destruct (well_separated _ _ _ _); [discriminate |].
  destruct (_ >? _)%Z; [discriminate | apply IH].
Qed.

Lemma place_one_spec fuel min_dist st st' :
  one fuel min_dist st = Some (Ok st') ->
  exists cx cy z yaw added,
    attached_obj_height support_object planning_scene 0.001 = Ok z /\
    x_y_list st' = x_y_list st ++ [(cx, cy)] /\
    logged st' = logged st ++ added /\
    (ignored = false -> existsb is_cap_warning added = false ->
     Forall (fun p => dist_gt (cx, cy) p min_dist = true) (x_y_list st)) /\
    objects st' = objects st ++ group_at cx cy z yaw (place_poses_id st).
Proof.
  unfold place_one. intros H.
  destruct (sample fuel (x_y_list st) min_dist (draws st) 0 (logged st))
    as [[[[[cx cy] dr] lg] | e] |] eqn:Es; try discriminate.
  apply sample_position_sound in Es; [| unfold max_attempts; lia].
  destruct Es as (k & -> & Hcand & Hcases).
  destruct (attached_obj_height support_object planning_scene 0.001)
    as [z | e] eqn:Ez; [| discriminate].
  exists cx, cy, z.
  exists (Py.round (uniform random 0 math_pi (draws st + 2 * S k)) 4).
  unfold poses_at, object_roll.
  destruct (number_of_poses >? 20)%Z; injection H as <-; cbn [x_y_list logged objects].
  - exists ((if ignored then [WarnIgnoringMinDist object_class]
             else if well_separated (x_y_list st) cx cy min_dist then []
                  else [WarnCouldNotSeparate min_dist]) ++ [InfoCovering360]).
    split; [reflexivity | split; [reflexivity |]].
    split; [| split; [| reflexivity]].
    + destruct Hcases as [(-> & ->) | [(-> & -> & ->) | (-> & -> & _ & ->)]];
        rewrite <- ?app_assoc, ?app_nil_r; reflexivity.
    + intros Hi Hcap.
      destruct Hcases as [(Hi' & _) | [(_ & Hw & _) | (_ & Hw & _ & _)]].
      * congruence.
      * now apply well_separated_true.
      * rewrite Hi, Hw in Hcap. discriminate.
  - exists (if ignored then [WarnIgnoringMinDist object_class]
            else if well_separated (x_y_list st) cx cy min_dist then []
                 else [WarnCouldNotSeparate min_dist]).
    split; [reflexivity | split; [reflexivity |]].
    split; [| split; [| reflexivity]].
    + destruct Hcases as [(-> & ->) | [(-> & -> & ->) | (-> & -> & _ & ->)]];
        rewrite ?app_nil_r; reflexivity.
    + intros Hi Hcap.
      destruct Hcases as [(Hi' & _) | [(_ & Hw & _) | (_ & Hw & _ & _)]].
      * congruence.
      * now apply well_separated_true.
      * rewrite Hi, Hw in Hcap. discriminate.
Qed.

Lemma place_one_returns fuel min_dist st :
  (Z.to_nat max_attempts < fuel)%nat ->
  exists r, one fuel min_dist st = Some r.
Proof.
  intros Hf. unfold place_one.
  destruct (sample fuel (x_y_list st) min_dist (draws st) 0 (logged st))
    as [[[[[cx cy] dr] lg] | e] |] eqn:Es.
  - destruct (attached_obj_height _ _ _); [| eauto].
    destruct (_ >? _)%Z; eauto.
  - eauto.
  - exfalso. revert Es. apply sample_position_terminates;
      unfold max_attempts in *; lia.
Qed.

Lemma place_one_ok fuel min_dist st z :
  (Z.to_nat max_attempts < fuel)%nat ->
  (4 <= List.length plane)%nat ->
  attached_obj_height support_object planning_scene 0.001 = Ok z ->
  exists st', one fuel min_dist st = Some (Ok st').
Proof.
  intros Hf Hp Hz. unfold place_one.
  destruct (sample fuel (x_y_list st) min_dist (draws st) 0 (logged st))
    as [[[[[cx cy] dr] lg] | e] |] eqn:Es.
  - rewrite Hz. destruct (_ >? _)%Z; eauto.
  - exfalso. revert Es. now apply sample_position_no_raise.
  - exfalso. revert Es. apply sample_position_terminates;
      unfold max_attempts in *; lia.
Qed.

(** *** The outer loop *)

Lemma place_loop_returns fuel min_dist iterations st :
  (Z.to_nat max_attempts < fuel)%nat ->
  exists r, loop fuel min_dist iterations st = Some r.
Proof.
  intros Hf. revert st.
  induction iterations as [|k IH]; intros st; simpl; [eauto |].
  destruct (place_one_returns min_dist st Hf) as ([st' | e] & ->); [apply IH | eauto].
Qed.

Lemma ForallOrdPairs_snoc {A} (R : A -> A -> Prop) (l : list A) (c : A) :
  ForallOrdPairs R l -> Forall (fun p => R p c) l -> ForallOrdPairs R (l ++ [c]).
Proof.
  induction 1 as [|a l Ha Hl IH]; intros Hc; simpl.
  - constructor; constructor.
  - inversion Hc; subst. constructor; [| now apply IH].
    apply Forall_app; split; [assumption | now constructor].
Qed.

Lemma ForallOrdPairs_nth {A} (R : A -> A -> Prop) (l : list A) :
  ForallOrdPairs R l ->
  forall i j p q, (i < j)%nat ->
    nth_error l i = Some p -> nth_error l j = Some q -> R p q.
Proof.
  induction 1 as [|a l Ha Hl IH]; intros i j p q Hij Hp Hq.
  - destruct i; discriminate.
  - destruct j as [|j]; [lia |]. simpl in Hq.
    destruct i as [|i]; simpl in Hp.
    + injection Hp as <-. rewrite Forall_forall in Ha.
      apply Ha. eapply nth_error_In; eauto.
    + apply (IH i j p q); [lia | assumption | assumption].
Qed.

Lemma place_loop_separated fuel min_dist iterations st st' :
  loop fuel min_dist iterations st = Some (Ok st') ->
  exists added,
    logged st' = logged st ++ added /\
    (ignored = false -> existsb is_cap_warning added = false ->
     ForallOrdPairs (separated min_dist) (x_y_list st) ->
     ForallOrdPairs (separated min_dist) (x_y_list st')).
Proof.
  revert st. induction iterations as [|k IH]; intros st H; simpl in H.
  - injection H as <-. exists []. rewrite app_nil_r. auto.
  - destruct (one fuel min_dist st) as [[st1 | e] |] eqn:E1; try discriminate.
    apply place_one_spec in E1.
    destruct E1 as (cx & cy & z & yaw & added1 & _ & Hxy & Hlog & Hsep & _).
    apply IH in H. destruct H as (added2 & Hlog2 & Hsep2).
    exists (added1 ++ added2). split.
    + rewrite Hlog2, Hlog, app_assoc. reflexivity.
    + intros Hi Hcap Hfop. rewrite existsb_app in Hcap.
      apply orb_false_iff in Hcap. destruct Hcap as [Hc1 Hc2].
      apply Hsep2; auto. rewrite Hxy.
      apply ForallOrdPairs_snoc; [assumption |].
      unfold separated. now apply Hsep.
Qed.

(** C1: the sampling loop of [gen_place_poses_from_plane] leaves after at
    most 50,001 attempts for every input with the point of its last
    attempt (accepted because the support object is in the ignore list,
    or because it is well separated, or, after the warning, because
    50,001 attempts failed), so the function returns or raises whenever
    the model may run that many iterations per candidate; and when it
    returns with the support object outside the ignore list
    and without the warning of the retry cap in its log, any two of the
    accepted positions are at a distance above the separation in force. *)
Theorem gen_place_poses_separated (fuel : nat) (min_dist : Q) :
  (Z.to_nat max_attempts < fuel)%nat ->
  (forall x_y_list d draws logged,
      exists r,
        sample fuel x_y_list d draws 0 logged = Some r /\
        forall cx cy draws' logged',
          r = Ok (cx, cy, draws', logged') ->
          exists k,
            draws' = (draws + 2 * S k)%nat /\
            candidate random plane (draws + 2 * k) = Ok (cx, cy) /\
            ((ignored = true /\
              logged' = logged ++ [WarnIgnoringMinDist object_class])
             \/ (ignored = false /\
                 well_separated x_y_list cx cy d = true /\
                 logged' = logged)
             \/ (ignored = false /\
                 well_separated x_y_list cx cy d = false /\
                 S k = Z.to_nat (max_attempts + 1) /\
                 logged' = logged ++ [WarnCouldNotSeparate d])))
  /\ exists r,
      gen fuel min_dist = Some r /\
      forall st, r = Ok st ->
        ignored = false ->
        existsb is_cap_warning (logged st) = false ->
        forall i j p q, i <> j ->
          nth_error (x_y_list st) i = Some p ->
          nth_error (x_y_list st) j = Some q ->
          dist_gt p q (effective_min_dist number_of_poses min_dist) = true.
Proof.
  intros Hf. split.
  { intros l d dr lg.
    destruct (sample fuel l d dr 0 lg) as [r |] eqn:Es.
    - exists r. split; [reflexivity |].
      intros cx cy dr' lg' ->.
      apply sample_position_sound in Es; [| unfold max_attempts; lia].
      destruct Es as (k & Hd & Hc & Hcases). exists k.
      split; [assumption | split; [assumption |]].
      destruct Hcases as [? | [? | (? & ? & ? & ?)]]; auto.
      right; right. repeat split; auto. unfold max_attempts in *. lia.
    - exfalso. revert Es. apply sample_position_terminates;
        unfold max_attempts in *; lia. }
  unfold gen_place_poses_from_plane.
  match goal with
  | |- context [loop ?f ?d ?k ?s] =>
      destruct (@place_loop_returns f d k s Hf) as (r & Hr)
  end.
  exists r. split; [exact Hr |].
  intros st -> Hi Hcap i j p q Hij Hp Hq.
  apply place_loop_separated in Hr.
  destruct Hr as (added & Hlog & Hsep). cbn [logged x_y_list] in Hlog, Hsep.
  rewrite Hlog, existsb_app in Hcap. apply orb_false_iff in Hcap.
  destruct Hcap as [_ Hcap].
  specialize (Hsep Hi Hcap (FOP_nil _)).
  destruct (Nat.lt_total i j) as [Hlt | [Heq | Hgt]]; [| contradiction |].
  - rewrite dist_gt_sym.
    exact (ForallOrdPairs_nth Hsep Hlt Hp Hq).
  - exact (ForallOrdPairs_nth Hsep Hgt Hq Hp).
Qed.

(** *** The poses generated for one accepted position *)

Lemma place_loop_ok fuel min_dist iterations st z :
  (Z.to_nat max_attempts < fuel)%nat ->
  (4 <= List.length plane)%nat ->
  attached_obj_height support_object planning_scene 0.001 = Ok z ->
  exists st', loop fuel min_dist iterations st = Some (Ok st').
Proof.
  intros Hf Hp Hz. revert st.
  induction iterations as [|k IH]; intros st; simpl; [eauto |].
  destruct (place_one_ok min_dist st Hf Hp Hz) as (st1 & ->). apply IH.
Qed.

Lemma place_loop_objects fuel min_dist iterations st st' z :
  attached_obj_height support_object planning_scene 0.001 = Ok z ->
  loop fuel min_dist iterations st = Some (Ok st') ->
  exists new_xy groups,
    x_y_list st' = x_y_list st ++ new_xy /\
    List.length new_xy = iterations /\
    objects st' = objects st ++ List.concat groups /\
    Forall2 (fun xy g => exists yaw id, g = group_at (fst xy) (snd xy) z yaw id)
            new_xy groups.
Proof.
  intros Hz. revert st. induction iterations as [|k IH]; intros st H; simpl in H.
  - injection H as <-. exists [], []. rewrite !app_nil_r. auto.
  - destruct (one fuel min_dist st) as [[st1 | e] |] eqn:E1; try discriminate.
    apply place_one_spec in E1.
    destruct E1 as (cx & cy & z' & yaw & added1 & Hz' & Hxy & _ & _ & Hobj).
    assert (z' = z) by congruence. subst z'.
    apply IH in H. destruct H as (new_xy & groups & Hxy2 & Hlen & Hobj2 & Hall).
    exists ((cx, cy) :: new_xy), (group_at cx cy z yaw (place_poses_id st) :: groups).
    split; [rewrite Hxy2, Hxy, <- app_assoc; reflexivity |].
    split; [simpl; congruence |].
    split; [rewrite Hobj2, Hobj, <- app_assoc; reflexivity |].
    constructor; [cbn [fst snd]; eauto | assumption].
Qed.

Lemma sweep_poses cx cy z id :
  Forall2 (pose_here (cx, cy) z) yaw_sweep
          (sweep quaternion_from_euler object_class 7 (mkPoint cx cy z)
                 roll 0 0 id).
Proof.
  unfold yaw_sweep. cbn [sweep].
  repeat constructor; eexists; (split; [| reflexivity]); vm_compute; reflexivity.
Qed.

Lemma concat_length_const {A} (groups : list (list A)) (k : nat) :
  Forall (fun g => List.length g = k) groups ->
  List.length (List.concat groups) = (k * List.length groups)%nat.
Proof.
  induction 1 as [|g groups Hg _ IH]; simpl; [lia |].
  rewrite length_app, IH, Hg. lia.
Qed.

(** C8: when the generator returns (the height of the support object is
    known and the plane has its four points), it has accepted
    [number_of_poses] positions and its output is the concatenation of one
    group of poses per accepted position, in acceptance order.  If
    [number_of_poses] exceeds 20, each group holds exactly 7 poses at that
    position with yaw 0, 0.5, 1.0, 1.5, 2.0, 2.5, 3.0 in this order, so
    the output has 7 poses per accepted position; otherwise each group is
    a single pose at that position. *)
Theorem gen_place_poses_yaw_sweep (fuel : nat) (min_dist z : Q) :
  (Z.to_nat max_attempts < fuel)%nat ->
  (4 <= List.length plane)%nat ->
  attached_obj_height support_object planning_scene 0.001 = Ok z ->
  exists st groups,
    gen fuel min_dist = Some (Ok st) /\
    List.length (x_y_list st) = Z.to_nat number_of_poses /\
    objects st = List.concat groups /\
    ((20 < number_of_poses)%Z ->
     Forall2 (fun xy g => Forall2 (pose_here xy z) yaw_sweep g)
             (x_y_list st) groups /\
     List.length (objects st) = (7 * List.length (x_y_list st))%nat) /\
    ((number_of_poses <= 20)%Z ->
     Forall2 (fun xy g => exists yaw, Forall2 (pose_here xy z) [yaw] g)
             (x_y_list st) groups /\
     List.length (objects st) = List.length (x_y_list st)).
Proof.
  intros Hf Hp Hz. unfold gen_place_poses_from_plane.
  match goal with
  | |- context [loop ?f ?d ?k ?s] =>
      destruct (@place_loop_ok f d k s z Hf Hp Hz) as (st & Hr)
  end.
  destruct (place_loop_objects _ _ _ _ Hz Hr)
    as (new_xy & groups & Hxy & Hlen & Hobj & Hall).
  cbn [x_y_list objects app] in Hxy, Hobj.
  exists st, groups. rewrite Hr, Hxy, Hobj.
  split; [reflexivity | split; [assumption | split; [reflexivity |]]].
  split.
  - intros Hn. apply Z.gtb_lt in Hn.
    assert (Hgroups : Forall2 (fun xy g => Forall2 (pose_here xy z) yaw_sweep g)
                              new_xy groups).
    { eapply Forall2_impl; [| exact Hall].
      intros [cx cy] g (yaw & id & ->). unfold poses_at. rewrite Hn.
      apply sweep_poses. }
    split; [assumption |].
    rewrite (@concat_length_const _ groups 7).
    + apply Forall2_length in Hgroups. lia.
    + clear - Hgroups. induction Hgroups as [|xy g ? ? Hg _ IH]; constructor;
        [| assumption].
      apply Forall2_length in Hg. symmetry. exact Hg.
  - intros Hn.
    assert (Hn' : (number_of_poses >? 20)%Z = false)
      by (rewrite Z.gtb_ltb; apply Z.ltb_ge; assumption).
    assert (Hgroups : Forall2 (fun xy g => exists yaw, Forall2 (pose_here xy z) [yaw] g)
                              new_xy groups).
    { eapply Forall2_impl; [| exact Hall].
      intros [cx cy] g (yaw & id & ->). unfold poses_at. rewrite Hn'.
      exists yaw. repeat constructor.
      exists yaw; split; reflexivity. }
    split; [assumption |].
    rewrite (@concat_length_const _ groups 1).
    + apply Forall2_length in Hgroups. lia.
    + clear - Hgroups. induction Hgroups as [|xy g ? ? Hg _ IH]; constructor;
        [| assumption].
      destruct Hg as (yaw & Hg). apply Forall2_length in Hg. symmetry. exact Hg.
Qed.

End Sampling.

(** Three poses more than 0.3 apart.  The draws are 0, 0.37, 0.74, 0.11,
    0.48, 0.85, 0.22, ...: the first position is (0, 0.37), the candidate
    (0.11, 0.48) is too close to it and is rejected, (0.85, 0.22) is
    accepted, and so on. *)
Example example_run_three :
  option_map
    (fun r => match r with
              | Ok st => (map (fun p => (Qred (fst p), Qred (snd p))) (x_y_list st),
                          logged st, List.length (objects st))
              | Raise _ => ([], [], O)
              end)
    (example_run 3 0.3)
  = Some ([(0, 0.37); (17 # 20, 11 # 50); (11 # 25, 0.81)], [], 3%nat).
Proof. vm_compute. reflexivity. Qed.

Lemma gen_place_poses_separated_witness :
  exists st,
    example_run 3 0.3 = Some (Ok st) /\
    forall i j p q, i <> j ->
      nth_error (x_y_list st) i = Some p ->
      nth_error (x_y_list st) j = Some q ->
      dist_gt p q 0.3 = true.
Proof.
  destruct (@gen_place_poses_separated (Q * Q * Q) example_euler example_random
              "klt" "table" example_plane example_scene 3 []
              (S (Z.to_nat max_attempts)) 0.3 (Nat.lt_succ_diag_r _))
    as (_ & r & Hr & Hsep).
  fold (example_run 3 0.3) in Hr.
  destruct r as [st | e].
  - exists st. split; [exact Hr |].
    apply Hsep; [reflexivity | reflexivity |].
    vm_compute in Hr. injection Hr as <-. reflexivity.
  - vm_compute in Hr. discriminate Hr.
Defined.

(** Twenty-five poses requested: 175 poses come back, seven per accepted
    position. *)
Lemma gen_place_poses_yaw_sweep_witness :
  exists st groups,
    example_run 25 0.01 = Some (Ok st) /\
    List.length (x_y_list st) = 25%nat /\
    objects st = List.concat groups /\
    Forall2 (fun xy g =>
               Forall2 (pose_at example_euler "klt" xy (0.15 + 0.35 * 2 + 0.001))
                       yaw_sweep g)
            (x_y_list st) groups /\
    List.length (objects st) = 175%nat.
Proof.
  destruct (@gen_place_poses_yaw_sweep (Q * Q * Q) example_euler example_random
              "klt" "table" example_plane example_scene 25 []
              (S (Z.to_nat max_attempts)) 0.01 (0.15 + 0.35 * 2 + 0.001)
              (Nat.lt_succ_diag_r _))
    as (st & groups & H1 & H2 & H3 & H4 & _).
  - cbn. lia.
  - reflexivity.
  - destruct (H4 ltac:(lia)) as (H5 & H6).
    exists st, groups.
    split; [exact H1 |]. split; [exact H2 |]. split; [exact H3 |].
    split; [exact H5 |]. rewrite H6, H2. reflexivity.
Defined.

End GeneratorProps.


Module DistanceProps.

Import PlaneTools GeneratorProps.

(** [dist_gt] decides the comparison of the Euclidean distance, a real
    square root, with the threshold. *)
Lemma dist_gt_sqrt (a b : Q * Q) (d : Q) :
  dist_gt a b d = true <->
  (Q2R d < sqrt ((Q2R (fst a) - Q2R (fst b)) * (Q2R (fst a) - Q2R (fst b))
                 + (Q2R (snd a) - Q2R (snd b)) * (Q2R (snd a) - Q2R (snd b))))%R.
Proof.
  rewrite dist_gt_iff.
  set (S := ((Q2R (fst a) - Q2R (fst b)) * (Q2R (fst a) - Q2R (fst b))
             + (Q2R (snd a) - Q2R (snd b)) * (Q2R (snd a) - Q2R (snd b)))%R).
  assert (HS : Q2R (sqdist a b) = S).
  { unfold sqdist, S. rewrite Q2R_plus, !Q2R_mult, !Q2R_minus. reflexivity. }
  assert (HS0 : (0 <= S)%R) by (unfold S; apply Rplus_le_le_0_compat; apply Rle_0_sqr).
  pose proof (sqrt_pos S) as Hsq.
  split.
  - intros [H | H].
    + apply Qlt_Rlt in H. rewrite RMicromega.Q2R_0 in H. lra.
    + apply Qlt_Rlt in H. rewrite Q2R_mult, HS in H.
      destruct (Rlt_le_dec (Q2R d) 0) as [Hd | Hd]; [lra |].
      rewrite <- (sqrt_square (Q2R d)) by assumption.
      apply sqrt_lt_1; nra.
  - intros H.
    destruct (Qlt_le_dec d 0) as [Hd | Hd]; [now left | right].
    apply Qle_Rle in Hd. rewrite RMicromega.Q2R_0 in Hd.
    apply Rlt_Qlt. rewrite Q2R_mult, HS.
    rewrite <- (sqrt_sqrt S) by assumption. nra.
Qed.

End DistanceProps.

(* ================================================================= *)
(** * Properties of rqt_grasplan.py *)


Module EditorProps.
Import Editor EditorSpec.

Section Panel.

Variable num : Type.

Local Abbreviation state := (State num).
Local Abbreviation widget := (Widget num).

(** *** Select *)

(** What [update_selected_pose] does with a number typed into the text
    box: a number at or above the length of the pose list is reported and
    leaves the state as it was; any smaller number, negative ones
    included, becomes the selection. *)
Lemma update_selected_pose_number (w : widget) (st : state) l i :
  chkGraspSAllGrasps w = false ->
  txtGraspSGraspNumbers w = Some i ->
  grasps_as_pose_array st = Some l ->
  ((Z.of_nat (List.length l) <= i)%Z ->
   update_selected_pose w st
   = (Ok false,
      mkState (Some l) (selected_pose st) (published st)
              (reported st ++ [out_of_bounds_msg]) (lblGraspSGrasps st)))
  /\ ((i < Z.of_nat (List.length l))%Z ->
      update_selected_pose w st
      = (Ok true,
         mkState (Some l) i (published st) (reported st) (lblGraspSGrasps st))).
Proof.
  intros Hall Htxt Hl. unfold update_selected_pose.
  rewrite Hall, Htxt. unfold mbind, get_poses. rewrite Hl.
  split; intros Hi.
  - destruct (i >=? Z.of_nat (List.length l))%Z eqn:E.
    + unfold log_error, ret. rewrite Hl. reflexivity.
    + rewrite Z.geb_leb in E. apply Z.leb_gt in E. lia.
  - destruct (i >=? Z.of_nat (List.length l))%Z eqn:E.
    + rewrite Z.geb_leb in E. apply Z.leb_le in E. lia.
    + unfold set_selected, ret. rewrite Hl. reflexivity.
Qed.

Lemma update_selected_pose_all (w : widget) (st : state) :
  chkGraspSAllGrasps w = true ->
  update_selected_pose w st
  = (Ok true,
     mkState (grasps_as_pose_array st) select_all (published st) (reported st)
             (lblGraspSGrasps st)).
Proof.
  intros Hall. unfold update_selected_pose. rewrite Hall. reflexivity.
Qed.

(** *** Delete *)

Lemma delete_all_many (w : widget) (st : state) p0 p1 rest :
  chkGraspSAllGrasps w = true ->
  grasps_as_pose_array st = Some (p0 :: p1 :: rest) ->
  handle_grasp_s_delete_button w st
  = (Ok tt,
     mkState (Some [p0]) select_none
             (published st ++ [(select_none, Some [p0])])
             (reported st) (Some 1%nat)).
Proof.
  intros Hall Hl. unfold handle_grasp_s_delete_button. rewrite Hall.
  destruct st as [g s p r lb]. cbn in Hl. subst g. reflexivity.
Qed.

Lemma delete_all_single (w : widget) (st : state) p0 :
  chkGraspSAllGrasps w = true ->
  grasps_as_pose_array st = Some [p0] ->
  handle_grasp_s_delete_button w st
  = (Ok tt,
     mkState (Some []) select_none
             (published st ++ [(select_none, Some [])])
             (reported st) (Some 0%nat)).
Proof.
  intros Hall Hl. unfold handle_grasp_s_delete_button. rewrite Hall.
  destruct st as [g s p r lb]. cbn in Hl. subst g. reflexivity.
Qed.

Lemma delete_all_empty (w : widget) (st : state) :
  chkGraspSAllGrasps w = true ->
  grasps_as_pose_array st = Some [] ->
  handle_grasp_s_delete_button w st = (Raise IndexError, st).
Proof.
  intros Hall Hl. unfold handle_grasp_s_delete_button. rewrite Hall.
  destruct st as [g s p r lb]. cbn in Hl. subst g. reflexivity.
Qed.

(** C3 (as amended): on a non-empty pose list the delete action with
    "all" checked returns normally and resets the selection to -1.  If the
    list has at least two poses, it leaves the single pose 0, and a second
    invocation returns normally, leaves the empty list and resets the
    selection to -1 again; if the list has exactly one pose, the first
    invocation already leaves the empty list. *)
Theorem delete_all_twice (w : widget) (st : state) p0 rest :
  chkGraspSAllGrasps w = true ->
  grasps_as_pose_array st = Some (p0 :: rest) ->
  let once := handle_grasp_s_delete_button w st in
  let twice := handle_grasp_s_delete_button w (snd once) in
  fst once = Ok tt /\
  selected_pose (snd once) = (-1)%Z /\
  match rest with
  | _ :: _ =>
      grasps_as_pose_array (snd once) = Some [p0] /\
      fst twice = Ok tt /\
      grasps_as_pose_array (snd twice) = Some [] /\
      selected_pose (snd twice) = (-1)%Z
  | [] => grasps_as_pose_array (snd once) = Some []
  end.
Proof.
  intros Hall Hl. cbv zeta. destruct rest as [|p1 rest].
  - rewrite (delete_all_single w st Hall Hl). cbn.
    repeat split; reflexivity.
  - rewrite (delete_all_many w st Hall Hl). cbn [fst snd].
    rewrite delete_all_single with (p0 := p0); [| assumption | reflexivity].
    cbn. repeat split; reflexivity.
Qed.

(** Deleting by number: the pose at a valid index is removed and the
    selection is reset. *)
Lemma delete_selected (w : widget) (st : state) l i :
  chkGraspSAllGrasps w = false ->
  txtGraspSGraspNumbers w = Some (Z.of_nat i) ->
  grasps_as_pose_array st = Some l ->
  (i < List.length l)%nat ->
  handle_grasp_s_delete_button w st
  = (Ok tt,
     mkState (Some (firstn i l ++ skipn (S i) l)) select_none
             (published st
              ++ [(select_none, Some (firstn i l ++ skipn (S i) l))])
             (reported st)
             (Some (List.length (firstn i l ++ skipn (S i) l)))).
Proof.
  intros Hall Htxt Hl Hi. unfold handle_grasp_s_delete_button. rewrite Hall.
  unfold mbind at 1 2.
  rewrite (proj2 (update_selected_pose_number w st Hall Htxt Hl)) by lia.
  unfold mbind, get_poses, get_selected, lift, set_poses, set_selected,
    publish_grasps, update_grasp_number, mbind, get_poses.
  cbn [grasps_as_pose_array selected_pose published reported lblGraspSGrasps].
  unfold Py.del.
  destruct (Z.of_nat i <? 0)%Z eqn:E1; [apply Z.ltb_lt in E1; lia |].
  rewrite E1. cbn [orb].
  destruct (Z.of_nat (List.length l) <=? Z.of_nat i)%Z eqn:E2;
    [apply Z.leb_le in E2; lia |].
  rewrite Nat2Z.id. reflexivity.
Qed.

End Panel.

Lemma delete_all_twice_witness :
  let st := example_state [example_pose 0; example_pose 1; example_pose 2] 1 in
  let once := handle_grasp_s_delete_button (example_widget true None) st in
  let twice := handle_grasp_s_delete_button (example_widget true None) (snd once) in
  fst once = Ok tt /\
  selected_pose (snd once) = (-1)%Z /\
  grasps_as_pose_array (snd once) = Some [example_pose 0] /\
  fst twice = Ok tt /\
  grasps_as_pose_array (snd twice) = Some [] /\
  selected_pose (snd twice) = (-1)%Z.
Proof.
  exact (@delete_all_twice Z (example_widget true None)
           (example_state [example_pose 0; example_pose 1; example_pose 2] 1)
           (example_pose 0) [example_pose 1; example_pose 2]
           eq_refl eq_refl).
Defined.

(** C3 as stated fails for a list of one pose: one invocation leaves the
    empty list, not the list of pose 0, and the second invocation raises
    IndexError on the empty list. *)
Lemma delete_all_twice_counterexample :
  let st := example_state [example_pose 0] 0 in
  let w := example_widget true None in
  let once := handle_grasp_s_delete_button w st in
  let twice := handle_grasp_s_delete_button w (snd once) in
  grasps_as_pose_array st = Some [example_pose 0] /\
  grasps_as_pose_array (snd once) = Some [] /\
  grasps_as_pose_array (snd once) <> Some [example_pose 0] /\
  fst twice = Raise IndexError.
Proof.
  cbv zeta. repeat split; try reflexivity. discriminate.
Qed.

(** C6 at the failing input: with three poses and pose 1 selected, the
    number -2 typed into the text box is not reported; it is accepted and
    becomes the selection.  The delete action then removes the pose it
    denotes from the end of the list, and -1 and -10 are taken for the
    "none" and "all" marks. *)
Theorem update_selected_pose_accepts_negative :
  let poses := [example_pose 0; example_pose 1; example_pose 2] in
  let st := example_state poses 1 in
  update_selected_pose (example_widget false (Some (-2)%Z)) st
  = (Ok true, example_state poses (-2))
  /\ reported (snd (update_selected_pose (example_widget false (Some (-2)%Z)) st))
     = []
  /\ grasps_as_pose_array
       (snd (handle_grasp_s_delete_button (example_widget false (Some (-2)%Z)) st))
     = Some [example_pose 0; example_pose 2]
  /\ update_selected_pose (example_widget false (Some (-10)%Z)) st
     = (Ok true, example_state poses select_all)
  /\ update_selected_pose (example_widget false (Some (-7)%Z)) st
     = (Ok true, example_state poses (-7)).
Proof.
  cbv zeta. repeat split; reflexivity.
Qed.

End EditorProps.



Module PatternProps.
Import Editor Pattern PatternSpec EditorProps.
Local Open Scope R_scope.

Local Abbreviation quaternion := (Quaternion R).
Local Abbreviation pose := (Pose R).

(** *** Quaternion algebra *)

Lemma quat_eq (a b : quaternion) :
  q_x a = q_x b -> q_y a = q_y b -> q_z a = q_z b -> q_w a = q_w b -> a = b.
Proof. destruct a, b; simpl; intros; subst; reflexivity. Qed.

Lemma quaternion_multiply_assoc (a b c : quaternion) :
  quaternion_multiply a (quaternion_multiply b c)
  = quaternion_multiply (quaternion_multiply a b) c.
Proof.
  destruct a, b, c. unfold quaternion_multiply. cbn [q_x q_y q_z q_w].
  apply quat_eq; cbn [q_x q_y q_z q_w]; ring.
Qed.

Lemma quaternion_multiply_one_l (q : quaternion) : quaternion_multiply qone q = q.
Proof.
  destruct q. unfold quaternion_multiply, qone. cbn [q_x q_y q_z q_w].
  apply quat_eq; cbn [q_x q_y q_z q_w]; ring.
Qed.

Lemma quaternion_multiply_neg_l (a q : quaternion) :
  quaternion_multiply (qneg a) q = qneg (quaternion_multiply a q).
Proof.
  destruct a, q. unfold quaternion_multiply, qneg. cbn [q_x q_y q_z q_w].
  apply quat_eq; cbn [q_x q_y q_z q_w]; ring.
Qed.

Lemma half_zero : 0 / 2 = 0.
Proof. field. Qed.

(** The quaternion of a half turn about the checked axes, or of no turn. *)
Lemma quaternion_from_euler_half_turns (bx by_ bz : bool) :
  quaternion_from_euler (axis_angle bx PI) (axis_angle by_ PI) (axis_angle bz PI)
  = match bx, by_, bz with
    | false, false, false => qone
    | true, false, false => mkQuat 1 0 0 0
    | false, true, false => mkQuat 0 1 0 0
    | false, false, true => mkQuat 0 0 1 0
    | true, true, false => mkQuat 0 0 (-1) 0
    | true, false, true => mkQuat 0 1 0 0
    | false, true, true => mkQuat (-1) 0 0 0
    | true, true, true => qone
    end.
Proof.
  unfold quaternion_from_euler, axis_angle, qone.
  destruct bx, by_, bz; cbv zeta;
    rewrite ?half_zero, ?cos_0, ?sin_0, ?cos_PI2, ?sin_PI2;
    apply quat_eq; cbn [q_x q_y q_z q_w]; ring.
Qed.

(** *** Mirror *)

Lemma mirror_twice_value (q : quaternion) (bx by_ bz : bool) :
  rotate_quaternion
    (rotate_quaternion q (axis_angle bx PI) (axis_angle by_ PI) (axis_angle bz PI))
    (axis_angle bx PI) (axis_angle by_ PI) (axis_angle bz PI)
  = (if (bx && by_ && bz) || negb (bx || by_ || bz) then q else qneg q).
Proof.
  unfold rotate_quaternion.
  rewrite quaternion_from_euler_half_turns.
  destruct q as [x y z w].
  destruct bx, by_, bz; cbn [andb orb negb];
    unfold quaternion_multiply, qone, qneg; cbn [q_x q_y q_z q_w];
    apply quat_eq; cbn [q_x q_y q_z q_w]; ring.
Qed.

Lemma mirror_twice_orientation (q : quaternion) (bx by_ bz : bool) :
  same_orientation
    (rotate_quaternion
       (rotate_quaternion q (axis_angle bx PI) (axis_angle by_ PI)
                          (axis_angle bz PI))
       (axis_angle bx PI) (axis_angle by_ PI) (axis_angle bz PI))
    q.
Proof.
  rewrite mirror_twice_value. unfold same_orientation.
  destruct ((bx && by_ && bz) || negb (bx || by_ || bz)); [now left | now right].
Qed.

(** C5: rotating a quaternion twice by the mirror rotation (a half turn
    on each checked axis, applied as [new = dq * q_orig]) gives back the
    original orientation: the quaternion [-q] when one or two axes are
    checked and [q] itself when none or all three are.  The identity is
    exact in real arithmetic, and holds for every quaternion. *)
Theorem mirror_twice (q : quaternion) (bx by_ bz : bool) :
  let roll := axis_angle bx PI in
  let pitch := axis_angle by_ PI in
  let yaw := axis_angle bz PI in
  let once := rotate_quaternion q roll pitch yaw in
  let twice := rotate_quaternion once roll pitch yaw in
  same_orientation twice q /\
  twice = (if (bx && by_ && bz) || negb (bx || by_ || bz) then q else qneg q).
Proof.
  cbv zeta. split; [apply mirror_twice_orientation | apply mirror_twice_value].
Qed.

Lemma list_remove_head (p : pose) (l : list pose) : list_remove (p :: l) p = Ok l.
Proof.
  simpl. destruct (pose_eq_dec p p) as [_ | H]; [reflexivity | contradiction].
Qed.

(** The mirror action on a list of one selected pose, in replace mode:
    the pose is replaced by its mirror image. *)
Lemma handle_mirror_single (w : Widget R) (st : State R) (p : pose) :
  optEditGPatternMirror w = true ->
  optEditGPatternCircular w = false ->
  optEditGHandlingCopyR w = true ->
  chkGraspSAllGrasps w = false ->
  txtGraspSGraspNumbers w = Some 0%Z ->
  grasps_as_pose_array st = Some [p] ->
  selected_pose st = 0%Z ->
  let p' := rotated p (axis_angle (chkEditGAxisX w) PI)
                    (axis_angle (chkEditGAxisY w) PI)
                    (axis_angle (chkEditGAxisZ w) PI) in
  handle_edit_g_apply_button w st
  = (Ok tt,
     mkState (Some [p']) 0%Z (published st ++ [(0%Z, Some [p'])])
             (reported st) (Some 1%nat)).
Proof.
  intros Hm Hc Hr Hall Htxt Hl Hs. cbv zeta.
  destruct st as [g s pub rep lb]. cbn in Hl, Hs. subst g s.
  unfold handle_edit_g_apply_button.
  rewrite Hm, Hc, Hr.
  unfold update_selected_pose. rewrite Hall, Htxt.
  unfold Py.index, mirror_loop, append_pose.
  repeat (unfold mbind, get_poses, set_poses, set_selected, get_selected,
            log_error, publish_grasps, update_grasp_number, lift, ret;
          cbn [grasps_as_pose_array selected_pose published reported
               lblGraspSGrasps List.length Z.of_nat Z.geb Z.compare Z.eqb Z.ltb
               Pos.of_succ_nat Z.leb orb nth_error Z.to_nat select_all Pos.compare
               Pos.compare_cont Pos.eqb list_remove bind app Z.add]).
  destruct (pose_eq_dec p p) as [_ | H]; [| contradiction].
  reflexivity.
Qed.

(** Applying the mirror action twice to the single selected pose gives a
    pose at the same position with the original orientation. *)
Lemma handle_mirror_twice (w : Widget R) (st : State R) (p : pose) :
  optEditGPatternMirror w = true ->
  optEditGPatternCircular w = false ->
  optEditGHandlingCopyR w = true ->
  chkGraspSAllGrasps w = false ->
  txtGraspSGraspNumbers w = Some 0%Z ->
  grasps_as_pose_array st = Some [p] ->
  selected_pose st = 0%Z ->
  exists p'',
    grasps_as_pose_array
      (snd (handle_edit_g_apply_button w
              (snd (handle_edit_g_apply_button w st))))
    = Some [p''] /\
    position p'' = position p /\
    same_orientation (orientation p'') (orientation p).
Proof.
  intros Hm Hc Hr Hall Htxt Hl Hs.
  rewrite (handle_mirror_single w st Hm Hc Hr Hall Htxt Hl Hs). cbn [snd].
  erewrite handle_mirror_single; [| assumption .. | reflexivity | reflexivity].
  cbn [snd grasps_as_pose_array]. eexists. split; [reflexivity |].
  split; [reflexivity |].
  cbn [orientation rotated].
  apply (mirror_twice_orientation (orientation p)).
Qed.

(** *** Circular pattern *)

Lemma rotate_n_shift n roll pitch yaw q :
  rotate_n n roll pitch yaw (rotate_quaternion q roll pitch yaw)
  = rotate_n (S n) roll pitch yaw q.
Proof.
  induction n as [|n IH]; simpl; [reflexivity |].
  simpl in IH. rewrite IH. reflexivity.
Qed.

Lemma chain_length k roll pitch yaw g : List.length (chain k roll pitch yaw g) = k.
Proof.
  revert g; induction k as [|k IH]; intros g; simpl; [reflexivity |].
  now rewrite IH.
Qed.

Lemma chain_nth k roll pitch yaw g i :
  (i < k)%nat ->
  nth_error (chain k roll pitch yaw g) i
  = Some (mkPose (position g) (rotate_n (S i) roll pitch yaw (orientation g))).
Proof.
  revert g i; induction k as [|k IH]; intros g i Hi; [lia |].
  destruct i as [|i]; simpl; [reflexivity |].
  rewrite IH by lia. cbn [rotated position orientation].
  rewrite rotate_n_shift. reflexivity.
Qed.

Lemma mbind_ok {A B} (m : Editor.M R A) (k : A -> Editor.M R B) st a st' :
  m st = (Ok a, st') -> mbind m k st = k a st'.
Proof. intros H. unfold mbind. rewrite H. reflexivity. Qed.

Lemma append_pose_run (p : pose) (st : State R) l :
  grasps_as_pose_array st = Some l ->
  append_pose p st
  = (Ok tt,
     mkState (Some (l ++ [p])) (selected_pose st) (published st) (reported st)
             (lblGraspSGrasps st)).
Proof.
  intros Hl. destruct st as [gs s pub rep lb]. cbn in Hl. subst gs. reflexivity.
Qed.

Lemma select_last_run (st : State R) l :
  grasps_as_pose_array st = Some l ->
  mbind (get_poses (num:=R))
        (fun l0 => set_selected (Z.of_nat (List.length l0) - 1)%Z) st
  = (Ok tt,
     mkState (Some l) (Z.of_nat (List.length l) - 1)%Z (published st)
             (reported st) (lblGraspSGrasps st)).
Proof.
  intros Hl. destruct st as [gs s pub rep lb]. cbn in Hl. subst gs. reflexivity.
Qed.

Lemma circular_chain_spec k roll pitch yaw g (st : State R) l :
  grasps_as_pose_array st = Some l ->
  circular_chain k roll pitch yaw g st
  = (Ok tt,
     mkState (Some (l ++ chain k roll pitch yaw g))
             (match k with
              | O => selected_pose st
              | S _ => Z.of_nat (List.length (l ++ chain k roll pitch yaw g)) - 1
              end)%Z
             (published st) (reported st) (lblGraspSGrasps st)).
Proof.
  revert g st l. induction k as [|k IH]; intros g st l Hl.
  - simpl. rewrite app_nil_r. destruct st; simpl in *; subst; reflexivity.
  - cbn [circular_chain chain].
    erewrite mbind_ok; [| apply append_pose_run; exact Hl].
    erewrite mbind_ok; [| apply select_last_run; reflexivity].
    rewrite (IH _ _ (l ++ [rotated g roll pitch yaw])) by reflexivity.
    cbn [grasps_as_pose_array selected_pose published reported lblGraspSGrasps].
    rewrite <- app_assoc. cbn [app].
    destruct k; reflexivity.
Qed.

Lemma circular_loop_spec k roll pitch yaw static (st : State R) l :
  grasps_as_pose_array st = Some l ->
  circular_loop k roll pitch yaw static st
  = (Ok tt,
     mkState (Some (l ++ flat_map (chain k roll pitch yaw) static))
             (match flat_map (chain k roll pitch yaw) static with
              | [] => selected_pose st
              | _ :: _ =>
                  Z.of_nat (List.length (l ++ flat_map (chain k roll pitch yaw) static)) - 1
              end)%Z
             (published st) (reported st) (lblGraspSGrasps st)).
Proof.
  revert st l. induction static as [|g static IH]; intros st l Hl.
  - simpl. rewrite app_nil_r. destruct st; simpl in *; subst; reflexivity.
  - cbn [circular_loop flat_map].
    erewrite mbind_ok; [| apply circular_chain_spec; exact Hl].
    rewrite (IH _ (l ++ chain k roll pitch yaw g)) by reflexivity.
    cbn [grasps_as_pose_array selected_pose published reported lblGraspSGrasps].
    rewrite <- app_assoc.
    destruct k as [|k].
    + cbn [chain app]. reflexivity.
    + destruct (flat_map (chain (S k) roll pitch yaw) static) eqn:E.
      * rewrite app_nil_r. cbn [chain app]. reflexivity.
      * cbn [chain app]. reflexivity.
Qed.

Lemma axis_rotation_compose ux uy uz a b :
  ux * ux + uy * uy + uz * uz = 1 ->
  quaternion_multiply (axis_rotation ux uy uz a) (axis_rotation ux uy uz b)
  = axis_rotation ux uy uz (a + b).
Proof.
  intros Hu. unfold quaternion_multiply, axis_rotation. cbn [q_x q_y q_z q_w].
  replace ((a + b) / 2) with (a / 2 + b / 2) by field.
  rewrite sin_plus, cos_plus.
  apply quat_eq; cbn [q_x q_y q_z q_w]; try ring.
  replace (- (ux * sin (a / 2)) * (ux * sin (b / 2))
           - uy * sin (a / 2) * (uy * sin (b / 2))
           - uz * sin (a / 2) * (uz * sin (b / 2))
           + cos (a / 2) * cos (b / 2))
    with (cos (a / 2) * cos (b / 2)
          - (ux * ux + uy * uy + uz * uz) * (sin (a / 2) * sin (b / 2))) by ring.
  rewrite Hu. ring.
Qed.

Lemma axis_rotation_zero ux uy uz : axis_rotation ux uy uz 0 = qone.
Proof.
  unfold axis_rotation, qone. rewrite half_zero, sin_0, cos_0.
  apply quat_eq; cbn [q_x q_y q_z q_w]; ring.
Qed.

(** With exactly one axis checked the step is the rotation by the step
    angle about that axis. *)
Lemma quaternion_from_euler_single_axis (bx by_ bz : bool) (angle : R) :
  b2r bx + b2r by_ + b2r bz = 1 ->
  quaternion_from_euler (axis_angle bx angle) (axis_angle by_ angle)
                        (axis_angle bz angle)
  = axis_rotation (b2r bx) (b2r by_) (b2r bz) angle.
Proof.
  unfold quaternion_from_euler, axis_rotation, axis_angle, b2r.
  destruct bx, by_, bz; intros H; try (exfalso; lra); cbv zeta;
    rewrite ?half_zero, ?cos_0, ?sin_0;
    apply quat_eq; cbn [q_x q_y q_z q_w]; ring.
Qed.

Lemma rotate_n_single_axis (n : nat) (bx by_ bz : bool) (angle : R) (q : quaternion) :
  b2r bx + b2r by_ + b2r bz = 1 ->
  rotate_n n (axis_angle bx angle) (axis_angle by_ angle) (axis_angle bz angle) q
  = quaternion_multiply
      (axis_rotation (b2r bx) (b2r by_) (b2r bz) (INR n * angle)) q.
Proof.
  intros H.
  assert (Hu : b2r bx * b2r bx + b2r by_ * b2r by_ + b2r bz * b2r bz = 1)
    by (revert H; unfold b2r; destruct bx, by_, bz; intros; lra).
  induction n as [|n IH].
  - cbn [rotate_n INR]. rewrite Rmult_0_l, axis_rotation_zero.
    now rewrite quaternion_multiply_one_l.
  - cbn [rotate_n]. rewrite IH. unfold rotate_quaternion.
    rewrite quaternion_from_euler_single_axis by assumption.
    rewrite quaternion_multiply_assoc, axis_rotation_compose by assumption.
    rewrite S_INR. f_equal. f_equal. ring.
Qed.

(** With no axis checked nothing is rotated. *)
Lemma rotate_n_no_axis (n : nat) (angle : R) (q : quaternion) :
  rotate_n n (axis_angle false angle) (axis_angle false angle)
           (axis_angle false angle) q = q.
Proof.
  induction n as [|n IH]; cbn [rotate_n]; [reflexivity |].
  rewrite IH. unfold rotate_quaternion, axis_angle, quaternion_from_euler.
  cbv zeta. rewrite half_zero, cos_0, sin_0.
  destruct q. unfold quaternion_multiply. cbn [q_x q_y q_z q_w].
  apply quat_eq; cbn [q_x q_y q_z q_w]; ring.
Qed.

Lemma update_selected_pose_accepted (w : Widget R) (st : State R) l :
  grasps_as_pose_array st = Some l ->
  selection_accepted w l ->
  update_selected_pose w st
  = (Ok true,
     mkState (Some l) (selection_of w st) (published st) (reported st)
             (lblGraspSGrasps st)).
Proof.
  intros Hl [Hall | (i & Hall & Htxt & Hi)]; unfold selection_of; rewrite Hall.
  - rewrite (update_selected_pose_all w st Hall). now rewrite Hl.
  - rewrite Htxt.
    apply (proj2 (update_selected_pose_number w st Hall Htxt Hl)). exact Hi.
Qed.

Lemma handle_circular_spec (w : Widget R) (st : State R) l static step count :
  optEditGPatternMirror w = false ->
  optEditGPatternCircular w = true ->
  txtEditGAngStep w = Some step ->
  txtEditGNumberOfGrasps w = Some count ->
  (0 <= count)%Z ->
  grasps_as_pose_array st = Some l ->
  static_grasps_of (selected_pose st) l = Ok static ->
  selection_accepted w l ->
  let roll := axis_angle (chkEditGAxisX w) (step_angle w step) in
  let pitch := axis_angle (chkEditGAxisY w) (step_angle w step) in
  let yaw := axis_angle (chkEditGAxisZ w) (step_angle w step) in
  let added := flat_map (chain (Z.to_nat (count - 1)) roll pitch yaw) static in
  let selection :=
    match added with
    | [] => selection_of w st
    | _ :: _ => (Z.of_nat (List.length (l ++ added)) - 1)%Z
    end in
  handle_edit_g_apply_button w st
  = (Ok tt,
     mkState (Some (l ++ added)) selection
             (published st ++ [(selection, Some (l ++ added))])
             (reported st) (Some (List.length (l ++ added)))).
Proof.
  intros Hm Hc Hstep Hcount Hpos Hl Hstatic Hsel. cbv zeta.
  unfold handle_edit_g_apply_button.
  rewrite Hm, Hc, Hstep, Hcount.
  assert (Hneg : (count <? 0)%Z = false) by (apply Z.ltb_ge; exact Hpos).
  rewrite Hneg.
  erewrite mbind_ok; [| unfold get_selected; reflexivity].
  erewrite mbind_ok; [| unfold get_poses; rewrite Hl; reflexivity].
  erewrite mbind_ok with (a := static).
  2:{ unfold static_grasps_of in Hstatic.
      destruct (selected_pose st =? select_all)%Z; [injection Hstatic as <-; reflexivity |].
      unfold mbind, lift, ret.
      destruct (Py.index l (selected_pose st)); cbn [bind] in Hstatic;
        [injection Hstatic as <-; reflexivity | discriminate]. }
  erewrite mbind_ok; [| unfold ret; reflexivity].
  erewrite mbind_ok.
  2:{ erewrite mbind_ok; [| apply update_selected_pose_accepted; eassumption].
      cbv beta iota.
      erewrite mbind_ok; [| apply circular_loop_spec; reflexivity].
      unfold publish_grasps.
      cbn [grasps_as_pose_array selected_pose published reported lblGraspSGrasps].
      reflexivity. }
  unfold update_grasp_number, mbind, get_poses.
  cbn [grasps_as_pose_array selected_pose published reported lblGraspSGrasps].
  unfold step_angle. reflexivity.
Qed.

(** C4 (as amended): let the pattern be applied to the grasps
    [static] (all poses when the selection is "all", otherwise the
    selected pose), with a non-negative repeat count [count], a step
    angle and a selection that the select step accepts.  Then the action
    returns normally and appends, for every grasp of [static] in turn,
    exactly [count - 1] poses (none when [count <= 1]); each of them has
    the position of the grasp and is the rotation of the pose generated
    before it (the first one of the grasp itself) by the step on the
    checked axes, so that the [i]-th pose generated from a grasp carries
    [i] successive step rotations of its orientation.  When exactly one
    axis is checked, [i] successive steps are the rotation by [i] times
    the step angle about that axis, so the last pose generated from a
    grasp is rotated by [(count - 1) * step] from it.  When at least one
    pose was appended, the last pose of the list becomes the selection. *)
Theorem circular_pattern (w : Widget R) (st : State R)
    (l static : list pose) (step : R) (count : Z) :
  optEditGPatternMirror w = false ->
  optEditGPatternCircular w = true ->
  txtEditGAngStep w = Some step ->
  txtEditGNumberOfGrasps w = Some count ->
  (0 <= count)%Z ->
  grasps_as_pose_array st = Some l ->
  static_grasps_of (selected_pose st) l = Ok static ->
  selection_accepted w l ->
  let angle := step_angle w step in
  let roll := axis_angle (chkEditGAxisX w) angle in
  let pitch := axis_angle (chkEditGAxisY w) angle in
  let yaw := axis_angle (chkEditGAxisZ w) angle in
  let k := Z.to_nat (count - 1) in
  let after := handle_edit_g_apply_button w st in
  exists groups,
    fst after = Ok tt /\
    grasps_as_pose_array (snd after) = Some (l ++ List.concat groups) /\
    Forall2
      (fun g group =>
         List.length group = k /\
         forall i, (i < k)%nat ->
           nth_error group i
           = Some (mkPose (position g)
                          (rotate_n (S i) roll pitch yaw (orientation g))))
      static groups /\
    (forall n q,
        b2r (chkEditGAxisX w) + b2r (chkEditGAxisY w) + b2r (chkEditGAxisZ w) = 1 ->
        rotate_n n roll pitch yaw q
        = quaternion_multiply
            (axis_rotation (b2r (chkEditGAxisX w)) (b2r (chkEditGAxisY w))
                           (b2r (chkEditGAxisZ w)) (INR n * angle))
            q) /\
    (List.concat groups <> [] ->
     selected_pose (snd after)
     = (Z.of_nat (List.length (l ++ List.concat groups)) - 1)%Z).
Proof.
  intros Hm Hc Hstep Hcount Hpos Hl Hstatic Hsel. cbv zeta.
  rewrite (@handle_circular_spec w st l static step count Hm Hc Hstep Hcount Hpos Hl
             Hstatic Hsel).
  cbn [fst snd grasps_as_pose_array selected_pose].
  rewrite flat_map_concat_map.
  eexists. split; [reflexivity |]. split; [reflexivity |].
  split; [| split].
  - clear. induction static as [|g static IH]; cbn [map]; constructor;
      [| exact IH].
    split; [apply chain_length | intros i Hi; now apply chain_nth].
  - intros n q H. now apply rotate_n_single_axis.
  - intros Hne.
    destruct (List.concat _) eqn:E; [contradiction | reflexivity].
Qed.

Lemma circular_widget_accepted x y z step count p rest :
  selection_accepted (circular_widget x y z step count) (p :: rest).
Proof.
  right. exists 0%Z.
  split; [reflexivity | split; [reflexivity | cbn [List.length]; lia]].
Qed.

(** Four poses a quarter of a half turn apart about z: three poses are
    appended after the two of the list, the last one is selected and is
    pose 0 turned by three eighths of a turn. *)
Lemma circular_pattern_witness :
  let after :=
    handle_edit_g_apply_button (circular_widget false false true (PI / 4) 4)
                               (editing [upright 0; upright 1]) in
  exists a b c,
    fst after = Ok tt /\
    grasps_as_pose_array (snd after) = Some [upright 0; upright 1; a; b; c] /\
    selected_pose (snd after) = 4%Z /\
    c = mkPose (mkVec 0 0 0)
               (quaternion_multiply (axis_rotation 0 0 1 (INR 3 * (PI / 4))) qone).
Proof.
  cbv zeta.
  destruct (@circular_pattern
              (circular_widget false false true (PI / 4) 4)
              (editing [upright 0; upright 1])
              [upright 0; upright 1] [upright 0] (PI / 4) 4
              eq_refl eq_refl eq_refl eq_refl
              ltac:(lia) eq_refl eq_refl
              (circular_widget_accepted _ _ _ _ _ _ _))
    as (groups & H1 & H2 & H3 & H4 & H5).
  cbv zeta in H3, H4.
  inversion H3 as [|g group static' groups' [Hlen Hnth] Htail]; subst.
  inversion Htail; subst.
  destruct group as [|a [|b [|c [|d group]]]]; try discriminate Hlen.
  exists a, b, c.
  cbn [List.concat app] in H2, H5.
  split; [exact H1 |]. split; [exact H2 |].
  split; [apply H5; discriminate |].
  specialize (Hnth 2%nat ltac:(cbn; lia)). cbn [nth_error] in Hnth.
  injection Hnth as ->.
  f_equal. apply (H4 3%nat qone). unfold b2r; cbn. lra.
Defined.

Lemma quaternion_multiply_one_r (q : quaternion) : quaternion_multiply q qone = q.
Proof.
  destruct q. unfold quaternion_multiply, qone. cbn [q_x q_y q_z q_w].
  apply quat_eq; cbn [q_x q_y q_z q_w]; ring.
Qed.

Lemma rotated_by_w (q' : quaternion) (theta : R) :
  rotated_by q' qone theta ->
  q_w q' = cos (theta / 2) \/ q_w q' = - cos (theta / 2).
Proof.
  intros (ux & uy & uz & _ & [H | H]);
    rewrite quaternion_multiply_one_r in H; subst q'; [left | right]; reflexivity.
Qed.

Lemma circular_once (x y z : bool) (step : R) :
  handle_edit_g_apply_button (circular_widget x y z step 2) (editing [upright 0])
  = (Ok tt,
     mkState
       (Some [upright 0;
              rotated (upright 0) (axis_angle x step) (axis_angle y step)
                      (axis_angle z step)])
       1%Z
       [(1%Z,
         Some [upright 0;
               rotated (upright 0) (axis_angle x step) (axis_angle y step)
                       (axis_angle z step)])]
       [] (Some 2%nat)).
Proof.
  rewrite (@handle_circular_spec (circular_widget x y z step 2)
             (editing [upright 0]) [upright 0] [upright 0] step 2
             eq_refl eq_refl eq_refl eq_refl ltac:(lia) eq_refl eq_refl
             (circular_widget_accepted _ _ _ _ _ _ _)).
  reflexivity.
Qed.

Lemma cos_PI4_square : cos (PI / 4) * cos (PI / 4) = 1 / 2.
Proof.
  rewrite cos_PI4.
  assert (H : sqrt 2 * sqrt 2 = 2) by (apply sqrt_def; lra).
  assert (H0 : sqrt 2 <> 0) by (intros E; rewrite E in H; lra).
  field_simplify; [| assumption]. rewrite <- (Rmult_1_r (sqrt 2 ^ 2)).
  replace (sqrt 2 ^ 2) with 2 by (simpl; lra). lra.
Qed.

(** C4 as stated fails in three ways.  With no axis checked the generated
    pose has the orientation of the original, which is not the original
    turned by the step (here a half turn).  With two axes checked the
    step rotation is not a turn by the step angle: for a quarter turn on
    x and y the generated pose is not the original turned by a quarter
    turn.  And with the count 0 no pose is appended, not [count - 1]. *)
Lemma circular_pattern_counterexample :
  (let after :=
     handle_edit_g_apply_button (circular_widget false false false PI 2)
                                (editing [upright 0]) in
   exists last,
     grasps_as_pose_array (snd after) = Some [upright 0; last] /\
     orientation last = orientation (upright 0) /\
     ~ rotated_by (orientation last) (orientation (upright 0))
                  (IZR (2 - 1) * PI))
  /\ (let after :=
        handle_edit_g_apply_button (circular_widget true true false (PI / 2) 2)
                                   (editing [upright 0]) in
      exists last,
        grasps_as_pose_array (snd after) = Some [upright 0; last] /\
        ~ rotated_by (orientation last) (orientation (upright 0))
                     (IZR (2 - 1) * (PI / 2)))
  /\ (let after :=
        handle_edit_g_apply_button (circular_widget false false true PI 0)
                                   (editing [upright 0]) in
      exists poses,
        grasps_as_pose_array (snd after) = Some poses /\
        (Z.of_nat (List.length poses)
         <> Z.of_nat (List.length [upright 0]) + (0 - 1))%Z).
Proof.
  split; [| split]; cbv zeta.
  - rewrite circular_once. cbn [snd grasps_as_pose_array].
    eexists. split; [reflexivity |].
    assert (E : orientation (rotated (upright 0) (axis_angle false PI)
                                     (axis_angle false PI) (axis_angle false PI))
                = qone)
      by apply (rotate_n_no_axis 1 PI qone).
    split; [exact E |].
    rewrite E. cbn [orientation upright]. intros H.
    apply rotated_by_w in H. cbn [q_w qone] in H.
    change (IZR (2 - 1)) with 1 in H. rewrite Rmult_1_l, cos_PI2 in H. lra.
  - rewrite circular_once. cbn [snd grasps_as_pose_array].
    eexists. split; [reflexivity |].
    cbn [orientation upright rotated]. intros H.
    apply rotated_by_w in H.
    change (IZR (2 - 1)) with 1 in H. rewrite Rmult_1_l in H.
    unfold rotate_quaternion, quaternion_from_euler, axis_angle,
      quaternion_multiply, qone in H.
    cbv zeta in H. cbn [q_x q_y q_z q_w] in H.
    rewrite half_zero, cos_0, sin_0 in H.
    replace (PI / 2 / 2) with (PI / 4) in H by field.
    pose proof cos_PI4_square as Hc.
    rewrite sin_cos_PI4 in H.
    destruct H as [H | H]; nra.
  - rewrite (@handle_circular_spec (circular_widget false false true PI 0)
               (editing [upright 0]) [upright 0] [upright 0] PI 0
               eq_refl eq_refl eq_refl eq_refl ltac:(lia) eq_refl eq_refl
               (circular_widget_accepted _ _ _ _ _ _ _)).
    eexists. split; [reflexivity |]. cbn. lia.
Qed.

End PatternProps.



Module GraspYamlProps.
Import Editor GraspYaml GraspYamlSpec.
Local Open Scope string_scope.
Local Ltac lraQ := Lqa.lra.

(** *** Decimal digits *)

Lemma digit_char_is_digit (d : N) :
  (d < 10)%N ->
  is_digit (digit_char d) = true /\ (N_of_ascii (digit_char d) - 48 = d)%N.
Proof.
  intros H. unfold is_digit, digit_char.
  rewrite N_ascii_embedding by lia.
  split; [| lia].
  apply andb_true_iff. split; apply N.leb_le; lia.
Qed.

Lemma read_digits_fixed (k : nat) (n : N) (rest : string) :
  starts_without_digit rest ->
  read_digits (digits_fixed k n ++ rest) = (digit_values k n, rest).
Proof.
  intros Hrest. induction k as [|k IH]; cbn [digits_fixed digit_values append].
  - destruct rest as [|c rest]; [reflexivity |].
    cbn in Hrest |- *. now rewrite Hrest.
  - cbn [read_digits].
    destruct (@digit_char_is_digit ((n / 10 ^ N.of_nat k) mod 10)%N) as [H1 H2];
      [apply N.mod_lt; lia |].
    rewrite H1, IH, H2. reflexivity.
Qed.

Lemma horner_digit_values (k : nat) (n acc : N) :
  fold_left (fun a d => (a * 10 + d)%N) (digit_values k n) acc
  = (acc * 10 ^ N.of_nat k + n mod 10 ^ N.of_nat k)%N.
Proof.
  revert acc. induction k as [|k IH]; intros acc; cbn [digit_values fold_left].
  - cbn. rewrite N.mod_1_r. lia.
  - rewrite IH. rewrite Nat2N.inj_succ, N.pow_succ_r'.
    rewrite (N.mul_comm 10 (10 ^ N.of_nat k)).
    rewrite (N.Div0.mod_mul_r n (10 ^ N.of_nat k) 10). lia.
Qed.

Lemma horner_fixed (k : nat) (n : N) :
  horner (digit_values k n) = (n mod 10 ^ N.of_nat k)%N.
Proof. unfold horner. rewrite horner_digit_values. lia. Qed.

Lemma digit_values_length (k : nat) (n : N) : List.length (digit_values k n) = k.
Proof. induction k; cbn [digit_values List.length]; congruence. Qed.

Lemma num_digits_from_spec (fuel k0 : nat) (n : N) :
  (n < 10 ^ N.of_nat (k0 + fuel))%N ->
  (k0 <= num_digits_from fuel k0 n)%nat /\
  (n < 10 ^ N.of_nat (num_digits_from fuel k0 n))%N.
Proof.
  revert k0. induction fuel as [|fuel IH]; intros k0 H; cbn [num_digits_from].
  - rewrite Nat.add_0_r in H. split; [lia | assumption].
  - destruct (n <? 10 ^ N.of_nat k0)%N eqn:E.
    + apply N.ltb_lt in E. split; [lia | assumption].
    + destruct (IH (S k0)) as [H1 H2].
      * replace (S k0 + fuel)%nat with (k0 + S fuel)%nat by lia. assumption.
      * split; [lia | assumption].
Qed.

Lemma num_digits_spec (n : N) :
  (1 <= num_digits n)%nat /\ (n < 10 ^ N.of_nat (num_digits n))%N.
Proof.
  apply num_digits_from_spec.
  apply N.lt_le_trans with (2 ^ N.size n)%N; [apply N.size_gt |].
  rewrite Nat2N.inj_add, N2Nat.id.
  apply N.le_trans with (10 ^ N.size n)%N.
  - apply N.pow_le_mono_l. lia.
  - apply N.pow_le_mono_r; lia.
Qed.

(** *** Reading back what [format_6f] prints *)

Lemma append_assoc (a b c : string) : (a ++ b) ++ c = a ++ (b ++ c).
Proof. induction a as [|x a IH]; cbn [append]; [reflexivity | now rewrite IH]. Qed.

Lemma append_nil_l (s : string) : EmptyString ++ s = s.
Proof. reflexivity. Qed.

Lemma read_float_digit (c : ascii) (s : string) :
  is_digit c = true ->
  read_float (String c s) = read_unsigned (String c s).
Proof.
  intros H. unfold read_float, read_unsigned.
  destruct c as [[] [] [] [] [] [] [] []]; try discriminate H; reflexivity.
Qed.

Lemma read_float_minus (s : string) :
  read_float (String "-"%char s)
  = match read_unsigned s with
    | Some (v, r) => Some ((- v)%Q, r)
    | None => None
    end.
Proof.
  unfold read_float, read_unsigned.
  destruct (read_digits s) as [ip s2].
  destruct ip as [|d ip]; [reflexivity |].
  destruct s2 as [|c s3]; [reflexivity |].
  destruct c as [[] [] [] [] [] [] [] []]; try reflexivity.
  destruct (read_digits s3) as [fp s4]. reflexivity.
Qed.

Lemma read_unsigned_fixed (k : nat) (a b : N) (rest : string) :
  starts_without_digit rest ->
  read_unsigned (digits_fixed (S k) a ++ "." ++ digits_fixed 6 b ++ rest)
  = Some (literal_value (digit_values (S k) a) (digit_values 6 b), rest).
Proof.
  intros Hrest. unfold read_unsigned.
  rewrite read_digits_fixed by reflexivity.
  cbn [digit_values append].
  rewrite (@read_digits_fixed 6 b rest Hrest). reflexivity.
Qed.

Lemma literal_value_fixed (k : nat) (a b : N) :
  (a < 10 ^ N.of_nat k)%N ->
  (literal_value (digit_values k a) (digit_values 6 b)
   == inject_Z (Z.of_N (a * 10 ^ 6 + b mod 10 ^ 6)) / inject_Z (Py.pow10 6))%Q.
Proof.
  intros Ha. unfold literal_value.
  rewrite !horner_fixed, digit_values_length.
  rewrite (N.mod_small a) by assumption.
  rewrite N2Z.inj_add, N2Z.inj_mul, inject_Z_plus, inject_Z_mult.
  change (Z.of_N (10 ^ 6)) with (Py.pow10 6).
  change (N.of_nat 6) with 6%N.
  field. unfold Py.pow10. cbn. discriminate.
Qed.

Lemma read_float_unsigned (k : nat) (a b : N) (rest : string) :
  starts_without_digit rest ->
  read_float (digits_fixed (S k) a ++ "." ++ digits_fixed 6 b ++ rest)
  = Some (literal_value (digit_values (S k) a) (digit_values 6 b), rest).
Proof.
  intros Hrest.
  rewrite <- (read_unsigned_fixed k a b rest Hrest).
  cbn [digits_fixed append].
  apply read_float_digit.
  apply digit_char_is_digit. apply N.mod_lt. lia.
Qed.

Lemma read_float_negative (k : nat) (a b : N) (rest : string) :
  starts_without_digit rest ->
  read_float ("-" ++ digits_fixed (S k) a ++ "." ++ digits_fixed 6 b ++ rest)
  = Some ((- literal_value (digit_values (S k) a) (digit_values 6 b))%Q, rest).
Proof.
  intros Hrest. change ("-" ++ ?s) with (String "-"%char s).
  rewrite read_float_minus, (read_unsigned_fixed k a b rest Hrest). reflexivity.
Qed.

(** *** Rounding *)

Lemma round_half_even_cases (q : Q) :
  Py.round_half_even q = Qfloor q \/ Py.round_half_even q = (Qfloor q + 1)%Z.
Proof.
  unfold Py.round_half_even.
  destruct (q - inject_Z (Qfloor q) ?= 1 # 2)%Q; auto.
  destruct (Z.even (Qfloor q)); auto.
Qed.

Lemma round_half_even_nonneg (q : Q) : (0 <= q)%Q -> (0 <= Py.round_half_even q)%Z.
Proof.
  intros H. apply Qfloor_resp_le in H. change (Qfloor 0) with 0%Z in H.
  destruct (round_half_even_cases q) as [-> | ->]; lia.
Qed.

Lemma round_half_even_nonpos (q : Q) : (q < 0)%Q -> (Py.round_half_even q <= 0)%Z.
Proof.
  intros H. pose proof (Qfloor_le q) as Hf.
  assert (Hlt : (inject_Z (Qfloor q) < inject_Z 0)%Q) by (change (inject_Z 0) with 0%Q; lraQ).
  rewrite <- Zlt_Qlt in Hlt.
  destruct (round_half_even_cases q) as [-> | ->]; lia.
Qed.

(** The nearest integer is at most one half away. *)
Lemma round_half_even_close (q : Q) :
  (Qabs (inject_Z (Py.round_half_even q) - q) <= 1 # 2)%Q.
Proof.
  pose proof (Qfloor_le q) as Hlo. pose proof (Qlt_floor q) as Hhi.
  rewrite inject_Z_plus in Hhi. change (inject_Z 1) with 1%Q in Hhi.
  unfold Py.round_half_even.
  destruct (q - inject_Z (Qfloor q) ?= 1 # 2)%Q eqn:E.
  - apply Qeq_alt in E.
    destruct (Z.even (Qfloor q));
      [| rewrite inject_Z_plus; change (inject_Z 1) with 1%Q];
      apply Qabs_Qle_condition; split; lraQ.
  - apply Qlt_alt in E. apply Qabs_Qle_condition; split; lraQ.
  - apply Qgt_alt in E. rewrite inject_Z_plus. change (inject_Z 1) with 1%Q.
    apply Qabs_Qle_condition; split; lraQ.
Qed.

(** [round(x, 6)] differs from [x] by at most half a unit of the sixth
    decimal. *)
Lemma round6_close (x : Q) : (Qabs (Py.round x 6 - x) <= 1 # 2000000)%Q.
Proof.
  pose proof (round_half_even_close (x * inject_Z (Py.pow10 6))) as H.
  unfold Py.round.
  set (m := inject_Z (Py.round_half_even (x * inject_Z (Py.pow10 6)))) in *.
  change (inject_Z (Py.pow10 6)) with (1000000 # 1)%Q in *.
  apply Qabs_Qle_condition in H. destruct H as [H1 H2].
  apply Qabs_Qle_condition. split.
  - assert (E : (m / (1000000 # 1) - x == (m - x * (1000000 # 1)) / (1000000 # 1))%Q)
      by (field).
    rewrite E. apply Qle_shift_div_l; [reflexivity |]. lraQ.
  - assert (E : (m / (1000000 # 1) - x == (m - x * (1000000 # 1)) / (1000000 # 1))%Q)
      by (field).
    rewrite E. apply Qle_shift_div_r; [reflexivity |]. lraQ.
Qed.

(** A number printed with [.6f] reads back as the number rounded to six
    decimals. *)
Lemma read_float_format (x : Q) (rest : string) :
  starts_without_digit rest ->
  exists v, read_float (format_6f x ++ rest) = Some (v, rest) /\
            (v == Py.round x 6)%Q.
Proof.
  intros Hrest. unfold format_6f, Py.round.
  set (m := Py.round_half_even (x * inject_Z (Py.pow10 6))%Q).
  set (a := Z.abs_N m).
  destruct (num_digits_spec (a / 10 ^ 6)%N) as [Hk Hlt].
  unfold string_of_N.
  destruct (num_digits (a / 10 ^ 6)%N) as [|k]; [lia |].
  assert (Hval : (literal_value (digit_values (S k) (a / 10 ^ 6)%N) (digit_values 6 a)
                  == inject_Z (Z.of_N a) / inject_Z (Py.pow10 6))%Q).
  { rewrite literal_value_fixed by assumption.
    replace (a / 10 ^ 6 * 10 ^ 6 + a mod 10 ^ 6)%N with a; [reflexivity |].
    rewrite (N.div_mod a (10 ^ 6)) at 1 by discriminate. lia. }
  assert (Hp : (0 < inject_Z (Py.pow10 6))%Q) by reflexivity.
  destruct (PlaneTools.Qltb x 0) eqn:Ex.
  - rewrite !append_assoc.
    rewrite (read_float_negative k (a / 10 ^ 6)%N a rest Hrest).
    eexists. split; [reflexivity |].
    rewrite Hval.
    assert (Hx : (x < 0)%Q).
    { unfold PlaneTools.Qltb in Ex. apply negb_true_iff in Ex.
      destruct (Qlt_le_dec x 0) as [H | H]; [assumption |].
      apply Qle_bool_iff in H. congruence. }
    assert (Hm : (m <= 0)%Z).
    { apply round_half_even_nonpos.
      setoid_replace 0%Q with (0 * inject_Z (Py.pow10 6))%Q by ring.
      apply Qmult_lt_compat_r; assumption. }
    unfold a. rewrite N2Z.inj_abs_N, Z.abs_neq by assumption.
    rewrite inject_Z_opp. field. discriminate.
  - rewrite !append_assoc, append_nil_l.
    rewrite (read_float_unsigned k (a / 10 ^ 6)%N a rest Hrest).
    eexists. split; [reflexivity |].
    rewrite Hval.
    assert (Hx : (0 <= x)%Q).
    { unfold PlaneTools.Qltb in Ex. apply negb_false_iff in Ex.
      now apply Qle_bool_iff in Ex. }
    assert (Hm : (0 <= m)%Z).
    { apply round_half_even_nonneg. apply Qmult_le_0_compat; [assumption |].
      apply Qlt_le_weak. assumption. }
    unfold a. rewrite N2Z.inj_abs_N, Z.abs_eq by assumption. reflexivity.
Qed.

(** *** The lines of one entry *)

Lemma read_items_format (fuel : nat) (xs : list Q) :
  xs <> [] ->
  (List.length xs <= fuel)%nat ->
  exists vs, read_items fuel (items_str xs) = Some (map YFloat vs) /\
             Forall2 (fun v x => (v == Py.round x 6)%Q) vs xs.
Proof.
  revert fuel. induction xs as [|x xs IH]; intros fuel Hne Hf; [congruence |].
  destruct fuel as [|fuel]; [cbn in Hf; lia |].
  destruct xs as [|x' xs].
  - cbn [items_str read_items].
    destruct (@read_float_format x "]" eq_refl) as (v & -> & Hv).
    exists [v]. split; [reflexivity | repeat constructor; assumption].
  - destruct (IH fuel) as (vs & Hvs & Hall); [discriminate | cbn in Hf |- *; lia |].
    change (items_str (x :: x' :: xs))
      with (format_6f x ++ ", " ++ items_str (x' :: xs)).
    cbn [read_items].
    destruct (@read_float_format x (", " ++ items_str (x' :: xs)) eq_refl)
      as (v & -> & Hv).
    cbn [append]. rewrite Hvs. cbn [option_map].
    exists (v :: vs). split; [reflexivity | constructor; assumption].
Qed.

Lemma length_append (a b : string) :
  String.length (a ++ b) = (String.length a + String.length b)%nat.
Proof. induction a as [|c a IH]; cbn; [reflexivity | now rewrite IH]. Qed.

Lemma items_str_length (xs : list Q) :
  (List.length xs <= String.length (items_str xs))%nat.
Proof.
  induction xs as [|x xs IH]; [cbn; lia |].
  destruct xs as [|x' xs].
  - cbn [items_str List.length]. rewrite length_append. cbn. lia.
  - change (items_str (x :: x' :: xs))
      with (format_6f x ++ ", " ++ items_str (x' :: xs)).
    rewrite !length_append. cbn [List.length String.length] in *. lia.
Qed.

Lemma strip_prefix_app (p s : string) : strip_prefix p (p ++ s) = Some s.
Proof.
  induction p as [|c p IH]; cbn [strip_prefix append]; [reflexivity |].
  now rewrite Ascii.eqb_refl.
Qed.

Lemma read_field_format (indent key : string) (xs : list Q) :
  xs <> [] ->
  exists ys, read_field indent key ((indent ++ key ++ ": [") ++ items_str xs)
             = Some (YSeq ys) /\
             Forall2 rounded xs ys.
Proof.
  intros Hne. unfold read_field. rewrite strip_prefix_app.
  destruct (@read_items_format (String.length (items_str xs)) xs Hne
              (items_str_length xs)) as (vs & -> & Hall).
  exists (map YFloat vs). split; [reflexivity |].
  clear - Hall. induction Hall as [|v x vs xs Hv _ IH]; cbn [map]; constructor;
    [exists v; split; [reflexivity | assumption] | assumption].
Qed.

Lemma read_entries_format (grasps : list (Pose Q)) :
  exists es, read_entries (flat_map entry_lines grasps) = Some es /\
             Forall2 entry_rounded grasps es.
Proof.
  induction grasps as [|g grasps (es & Hes & Hall)].
  - exists []. split; [reflexivity | constructor].
  - cbn [flat_map entry_lines app read_entries].
    change (String.eqb (tab ++ tab ++ "-") (tab ++ tab ++ "-")) with true.
    cbv iota.
    destruct (@read_field_format (tab ++ tab ++ tab) "translation"
                [v_x (position g); v_y (position g); v_z (position g)])
      as (ts & Ht & Hts); [discriminate |].
    destruct (@read_field_format (tab ++ tab ++ tab) "rotation"
                [q_x (orientation g); q_y (orientation g);
                 q_z (orientation g); q_w (orientation g)])
      as (rs & Hr & Hrs); [discriminate |].
    change (((tab ++ tab ++ tab) ++ "translation" ++ ": [")
            ++ items_str [v_x (position g); v_y (position g); v_z (position g)])
      with (translation_str g) in Ht.
    change (((tab ++ tab ++ tab) ++ "rotation" ++ ": [")
            ++ items_str [q_x (orientation g); q_y (orientation g);
                          q_z (orientation g); q_w (orientation g)])
      with (rotation_str g) in Hr.
    rewrite Ht, Hr, Hes.
    eexists. split; [reflexivity |].
    constructor; [| assumption].
    inversion Hts as [|? tx ? ts1 Hx Hts1]; subst.
    inversion Hts1 as [|? ty ? ts2 Hy Hts2]; subst.
    inversion Hts2 as [|? tz ? ts3 Hz Hts3]; subst.
    inversion Hts3; subst.
    inversion Hrs as [|? rx ? rs1 Hrx Hrs1]; subst.
    inversion Hrs1 as [|? ry ? rs2 Hry Hrs2]; subst.
    inversion Hrs2 as [|? rz ? rs3 Hrz Hrs3]; subst.
    inversion Hrs3 as [|? rw ? rs4 Hrw Hrs4]; subst.
    inversion Hrs4; subst.
    exists tx, ty, tz, rx, ry, rz, rw.
    repeat (split; [reflexivity || assumption |]). assumption.
Qed.

(** *** The whole file *)

Lemma word_char_not_colon (c : ascii) :
  is_word_char c = true -> Ascii.eqb c ":" = false /\ Ascii.eqb c "#" = false.
Proof.
  intros H. split.
  - destruct (Ascii.eqb_spec c ":") as [-> |]; [discriminate H | reflexivity].
  - destruct (Ascii.eqb_spec c "#") as [-> |]; [discriminate H | reflexivity].
Qed.

Lemma key_of_line_plain (name : string) :
  all_chars is_word_char name = true -> key_of_line (name ++ ":") = Some name.
Proof.
  induction name as [|c name IH]; intros H; [reflexivity |].
  cbn [all_chars] in H. apply andb_true_iff in H. destruct H as [Hc Hn].
  cbn [append key_of_line].
  rewrite (proj1 (word_char_not_colon c Hc)), (IH Hn). reflexivity.
Qed.

Lemma plain_key_chars (name : string) :
  plain_key name = true ->
  all_chars is_word_char name = true /\ is_comment (name ++ ":") = false.
Proof.
  unfold plain_key. destruct name as [|c name]; [discriminate |].
  intros H. apply andb_true_iff in H. destruct H as [H _].
  apply andb_true_iff in H. destruct H as [_ H].
  split; [assumption |].
  cbn [all_chars] in H. apply andb_true_iff in H. destruct H as [Hc _].
  cbn [append is_comment]. apply (word_char_not_colon c Hc).
Qed.

Lemma entry_lines_kept (grasps : list (Pose Q)) :
  filter (fun l => negb (is_comment l)) (flat_map entry_lines grasps)
  = flat_map entry_lines grasps.
Proof.
  induction grasps as [|g grasps IH]; [reflexivity |].
  cbn [flat_map entry_lines app filter].
  change (is_comment (tab ++ tab ++ "-")) with false.
  change (is_comment (translation_str g)) with false.
  change (is_comment (rotation_str g)) with false.
  cbn [negb]. now rewrite IH.
Qed.

Lemma yaml_full_load_written (grasps : list (Pose Q)) (name : string) :
  plain_key name = true ->
  exists es,
    Forall2 entry_rounded grasps es /\
    yaml_full_load (write_grasps_to_yaml_file grasps name)
    = Some (YMap [(name,
                   YMap [("grasp_poses",
                          match es with [] => YNull | _ :: _ => YSeq es end)])]).
Proof.
  intros Hk. destruct (plain_key_chars name Hk) as [Hchars Hcomment].
  destruct (read_entries_format grasps) as (es & Hes & Hall).
  exists es. split; [assumption |].
  unfold yaml_full_load, write_grasps_to_yaml_file.
  fold entry_lines.
  cbn [app filter is_comment negb].
  change (Ascii.eqb "#" "#") with true. cbn [negb].
  rewrite Hcomment. cbn [negb].
  change (is_comment (tab ++ "grasp_poses:")) with false. cbn [negb].
  rewrite entry_lines_kept, (key_of_line_plain name Hchars), Hk.
  change (String.eqb (tab ++ "grasp_poses:") (tab ++ "grasp_poses:")) with true.
  cbn [andb]. rewrite Hes.
  destruct es; reflexivity.
Qed.

Lemma load_poses_entries (grasps : list (Pose Q)) (es : list yaml) :
  Forall2 entry_rounded grasps es ->
  exists poses, load_poses es = Ok poses /\ Forall2 pose_rounded grasps poses.
Proof.
  induction 1 as [|g e grasps es He _ (poses & Hp & Hall)].
  - exists []. split; [reflexivity | constructor].
  - destruct He as (tx & ty & tz & rx & ry & rz & rw & -> & H).
    cbn [load_poses]. rewrite Hp.
    eexists. split; [reflexivity |].
    constructor; [| assumption].
    unfold pose_rounded. cbn [position orientation v_x v_y v_z q_x q_y q_z q_w].
    exact H.
Qed.

(** Saving a non-empty pose list and loading the file again gives, pose
    by pose, the saved numbers rounded to six decimals. *)
Lemma save_then_load_roundtrip (remove_object_id : string -> string)
    (grasps : list (Pose Q)) (name : string) :
  plain_key name = true ->
  remove_object_id name = name ->
  grasps <> [] ->
  exists poses,
    save_then_load remove_object_id grasps name name
    = Some (Ok (PoseArray poses)) /\
    Forall2 pose_rounded grasps poses.
Proof.
  intros Hk Hid Hne.
  destruct (@yaml_full_load_written grasps name Hk) as (es & Hall & Hload).
  destruct (load_poses_entries Hall) as (poses & Hp & Hposes).
  exists poses. split; [| assumption].
  unfold save_then_load. rewrite Hload.
  unfold load_grasps_from_yaml. rewrite Hid.
  cbn [lookup]. rewrite String.eqb_refl.
  destruct es as [|e es].
  - inversion Hall; subst. congruence.
  - cbn [getitem_str lookup String.eqb Ascii.eqb Bool.eqb bind iterate].
    rewrite Hp. reflexivity.
Qed.

(** C2 at the failing input: the empty pose list is saved as a
    [grasp_poses:] key with nothing under it, which loads as [None]; the
    loader iterates over it and raises TypeError, so no pose list comes
    back, whatever [remove_object_id] does. *)
Theorem save_then_load_empty_list :
  write_grasps_to_yaml_file [] "klt"
  = [ "# this file was generated automatically by grasplan grasp editor";
      "klt:"; "  grasp_poses:" ]
  /\ yaml_full_load (write_grasps_to_yaml_file [] "klt")
     = Some (YMap [("klt", YMap [("grasp_poses", YNull)])])
  /\ save_then_load (fun name => name) [] "klt" "klt" = Some (Raise TypeError)
  /\ forall remove_object_id poses,
       save_then_load remove_object_id [] "klt" "klt"
       <> Some (Ok (PoseArray poses)).
Proof.
  split; [reflexivity |]. split; [reflexivity |]. split; [reflexivity |].
  intros rid poses. unfold save_then_load.
  change (yaml_full_load (write_grasps_to_yaml_file [] "klt"))
    with (Some (YMap [("klt", YMap [("grasp_poses", YNull)])])).
  unfold load_grasps_from_yaml. cbn [lookup].
  destruct (String.eqb "klt" (rid "klt")); discriminate.
Qed.

End GraspYamlProps.

(* ================================================================= *)
(** * Further properties of the two files *)

Module SeparationProps.

Import PlaneTools PlaneToolsSpec PlaneToolsProps GeneratorProps.
Local Open Scope Q_scope.

Local Ltac lraQ := Lqa.lra.

Lemma dist_gt_weaken (a b : Q * Q) (d d' : Q) :
  d' <= d -> dist_gt a b d = true -> dist_gt a b d' = true.
Proof.
  intros Hd H. apply dist_gt_iff in H. apply dist_gt_iff.
  destruct (Qlt_le_dec d' 0) as [Hn | Hp]; [left; exact Hn | right].
  destruct H as [H | H]; [lraQ |].
  assert (d' * d' <= d * d) by Lqa.nra.
  lraQ.
Qed.

(** X1: [well_separated] is monotone: a candidate accepted against the
    positions [l] with threshold [d] is also accepted against any
    selection [l'] of those positions and with any threshold [d' <= d]. *)
Theorem well_separated_monotone (l l' : list (Q * Q)) (cx cy d d' : Q) :
  incl l' l -> d' <= d ->
  well_separated l cx cy d = true -> well_separated l' cx cy d' = true.
Proof.
  intros Hi Hd H. apply well_separated_true in H. apply well_separated_true.
  rewrite Forall_forall in *. intros p Hp.
  apply (dist_gt_weaken _ _ Hd). apply H, Hi, Hp.
Qed.

Lemma well_separated_monotone_witness :
  well_separated [(0, 0)] 1 1 0.5 = true.
Proof.
  apply (@well_separated_monotone [(0, 0); (3, 0)] [(0, 0)] 1 1 1 0.5).
  - intros p [E | []]. left. exact E.
  - vm_compute. discriminate.
  - reflexivity.
Defined.

(** X2: a candidate that coincides with a position already in the list
    is never accepted when the threshold is not negative, and a negative
    threshold accepts every candidate. *)
Theorem well_separated_coincident (l : list (Q * Q)) (p : Q * Q) (cx cy d : Q) :
  (In p l -> fst p == cx -> snd p == cy -> 0 <= d ->
   well_separated l cx cy d = false)
  /\ (d < 0 -> well_separated l cx cy d = true).
Proof.
  split.
  - intros Hin Hx Hy Hd.
    destruct (well_separated l cx cy d) eqn:E; [| reflexivity].
    apply well_separated_true in E. rewrite Forall_forall in E.
    specialize (E p Hin). apply dist_gt_iff in E.
    unfold sqdist in E. cbn [fst snd] in E.
    destruct E as [E | E]; [lraQ |].
    assert (0 <= d * d) by Lqa.nra.
    assert ((cx - fst p) * (cx - fst p) + (cy - snd p) * (cy - snd p) == 0)
      by (rewrite Hx, Hy; ring).
    lraQ.
  - intros Hd. apply well_separated_true. apply Forall_forall. intros q _.
    apply dist_gt_iff. left. exact Hd.
Qed.

Lemma well_separated_coincident_witness :
  well_separated [(0, 0); (1, 2)] 1 2 0.2 = false
  /\ well_separated [(0, 0); (1, 2)] 1 2 (- 0.2) = true.
Proof.
  split.
  - apply (proj1 (@well_separated_coincident [(0, 0); (1, 2)] (1, 2) 1 2 0.2)).
    + right. left. reflexivity.
    + reflexivity.
    + reflexivity.
    + vm_compute. discriminate.
  - apply (proj2 (@well_separated_coincident [(0, 0); (1, 2)] (1, 2) 1 2 (- 0.2))).
    reflexivity.
Defined.

End SeparationProps.

Module AdjustPlaneProps.

Import PlaneTools PlaneToolsSpec PlaneToolsProps.
Local Open Scope Q_scope.

Local Ltac lraQ := Lqa.lra.

(** X3: what [adjust_plane] does with every input.  It returns exactly
    when the plane is a non-empty list of coplanar points (of any length),
    and then the result has four coplanar points; an empty list passes the
    coplanarity test and fails in [min()] with its ValueError; every other
    failure is the ValueError of a plane that is not coplanar. *)
Theorem adjust_plane_outcome (plane : list Point)
    (x_extend y_extend x_offset y_offset : Q) :
  match adjust_plane plane x_extend y_extend x_offset y_offset with
  | Ok out =>
      plane <> [] /\ coplanar plane /\ List.length out = 4%nat /\ coplanar out
  | Raise e =>
      (plane = [] /\ e = ValueError "min() arg is an empty sequence")
      \/ (~ coplanar plane /\ e = ValueError not_parallel_msg)
  end.
Proof.
  destruct (List.length (py_set (map p_z plane)) <=? 1)%nat eqn:C.
  - apply coplanar_check in C.
    destruct plane as [| p plane'].
    + left. split; reflexivity.
    + destruct (@adjust_plane_ok (p :: plane') x_extend y_extend x_offset y_offset)
        as (min_x & max_x & min_y & max_y & p0 & _ & _ & _ & _ & _ & E);
        [discriminate | exact C |].
      rewrite E. repeat split; [discriminate | exact C | apply rectangle_coplanar].
  - assert (N : ~ coplanar plane).
    { intros H. apply coplanar_check in H. congruence. }
    rewrite (adjust_plane_not_coplanar _ _ _ _ N). right. split; [exact N | reflexivity].
Qed.

Lemma Qmin_le_l (x y : Q) : x <= y -> Qmin x y == x.
Proof. intros H. apply Q.min_l. exact H. Qed.

Lemma Qmax_le_r (x y : Q) : x <= y -> Qmax x y == y.
Proof. intros H. apply Q.max_r. exact H. Qed.

(** X4: two calls of [adjust_plane] compose.  For a non-empty coplanar
    plane with bounds [a <= x <= b], [c <= y <= d], adjusting by
    [(xe1, ye1, xo1, yo1)] and the result by [(xe2, ye2, xo2, yo2)] gives
    the corners of one call with the sums, provided the first call leaves
    a rectangle that is not turned inside out ([a - xe1 <= b + xe1] and
    [c - ye1 <= d + ye1], true for every extension that is not
    negative). *)
Theorem adjust_plane_compose (plane : list Point) (a b c d : Q)
    (xe1 ye1 xo1 yo1 xe2 ye2 xo2 yo2 : Q) :
  plane <> [] ->
  coplanar plane ->
  has_bounds plane a b c d ->
  a - xe1 <= b + xe1 ->
  c - ye1 <= d + ye1 ->
  exists out1 out2 direct,
    adjust_plane plane xe1 ye1 xo1 yo1 = Ok out1 /\
    adjust_plane out1 xe2 ye2 xo2 yo2 = Ok out2 /\
    adjust_plane plane (xe1 + xe2) (ye1 + ye2) (xo1 + xo2) (yo1 + yo2)
    = Ok direct /\
    Forall2 point_eqv out2 direct.
Proof.
  intros Hne Hco Hb Hx Hy.
  destruct (adjust_plane_bounds xe1 ye1 xo1 yo1 Hne Hco Hb)
    as (x0 & x1 & y0 & y1 & p0 & Hp0 & Ex0 & Ex1 & Ey0 & Ey1 & E1).
  destruct (adjust_plane_bounds (xe1 + xe2) (ye1 + ye2) (xo1 + xo2) (yo1 + yo2)
              Hne Hco Hb)
    as (u0 & u1 & v0 & v1 & p0' & Hp0' & Eu0 & Eu1 & Ev0 & Ev1 & E3).
  assert (p0' = p0) by congruence. subst p0'.
  set (out1 := rectangle (x0 - xe1) (x1 + xe1) (y0 - ye1) (y1 + ye1) (p_z p0)) in *.
  assert (Hb1 : has_bounds out1 (x0 - xe1) (x1 + xe1) (y0 - ye1) (y1 + ye1)).
  { eapply has_bounds_eqv; [| | | | apply rectangle_bounds].
    - apply Qmin_le_l. lraQ.
    - apply Qmax_le_r. lraQ.
    - apply Qmin_le_l. lraQ.
    - apply Qmax_le_r. lraQ. }
  assert (Hne1 : out1 <> []) by discriminate.
  destruct (adjust_plane_bounds xe2 ye2 xo2 yo2 Hne1
              (@rectangle_coplanar _ _ _ _ _) Hb1)
    as (s0 & s1 & t0 & t1 & q0 & Hq0 & Es0 & Es1 & Et0 & Et1 & E2).
  cbn in Hq0. injection Hq0 as <-. cbn [p_z] in E2.
  exists out1, (rectangle (s0 - xe2) (s1 + xe2) (t0 - ye2) (t1 + ye2) (p_z p0)),
         (rectangle (u0 - (xe1 + xe2)) (u1 + (xe1 + xe2))
                    (v0 - (ye1 + ye2)) (v1 + (ye1 + ye2)) (p_z p0)).
  repeat split; try assumption.
  unfold rectangle.
  repeat (constructor; [unfold point_eqv; cbn [p_x p_y p_z]; repeat split; lraQ |]).
  constructor.
Qed.

Lemma adjust_plane_compose_witness :
  exists out1 out2 direct,
    adjust_plane (rectangle 0 1 0 1 0.75) 0.5 0 0 2 = Ok out1 /\
    adjust_plane out1 (- 0.25) 1 3 0 = Ok out2 /\
    adjust_plane (rectangle 0 1 0 1 0.75) (0.5 + - 0.25) (0 + 1) (0 + 3) (2 + 0)
    = Ok direct /\
    Forall2 point_eqv out2 direct.
Proof.
  apply (@adjust_plane_compose (rectangle 0 1 0 1 0.75) 0 1 0 1
           0.5 0 0 2 (- 0.25) 1 3 0).
  - discriminate.
  - apply rectangle_coplanar.
  - eapply has_bounds_eqv; [| | | | apply rectangle_bounds]; reflexivity.
  - vm_compute. discriminate.
  - vm_compute. discriminate.
Defined.

End AdjustPlaneProps.

Module PlacementProps.

Import PlaneTools GeneratorSpec GeneratorProps PlacementSpec.
Local Open Scope Q_scope.

Local Ltac lraQ := Lqa.lra.

(** [round(x, 4)] differs from [x] by at most half a unit of the fourth
    decimal. *)
Lemma round4_close (x : Q) : Qabs (Py.round x 4 - x) <= 1 # 20000.
Proof.
  pose proof (GraspYamlProps.round_half_even_close (x * inject_Z (Py.pow10 4))) as H.
  unfold Py.round.
  set (m := inject_Z (Py.round_half_even (x * inject_Z (Py.pow10 4)))) in *.
  change (inject_Z (Py.pow10 4)) with (10000 # 1) in *.
  apply Qabs_Qle_condition in H. destruct H as [H1 H2].
  assert (E : m / (10000 # 1) - x == (m - x * (10000 # 1)) / (10000 # 1))
    by field.
  apply Qabs_Qle_condition. split; rewrite E.
  - apply Qle_shift_div_l; [reflexivity |]. lraQ.
  - apply Qle_shift_div_r; [reflexivity |]. lraQ.
Qed.

Lemma index_outcome {A} (l : list A) (i : Z) :
  (exists a, Py.index l i = Ok a) \/ Py.index l i = Raise IndexError.
Proof.
  unfold Py.index.
  destruct (_ || _)%bool; [right; reflexivity |].
  destruct (nth_error l _); [left; eauto | right; reflexivity].
Qed.

Lemma index_beyond {A} (l : list A) (i : nat) :
  (List.length l <= i)%nat -> Py.index l (Z.of_nat i) = Raise IndexError.
Proof.
  intros H. unfold Py.index.
  destruct (Z.of_nat i <? 0)%Z eqn:E; [apply Z.ltb_lt in E; lia |].
  destruct (Z.of_nat i <? 0)%Z; [discriminate |].
  destruct (Z.of_nat (List.length l) <=? Z.of_nat i)%Z eqn:E2;
    [reflexivity | apply Z.leb_gt in E2; lia].
Qed.

Section Placement.

Variable quat : Type.
Variable quaternion_from_euler : Q -> Q -> Q -> quat.
Variable random : nat -> Q.
Variable object_class : string.
Variable support_object : string.
Variable plane : list Point.
Variable planning_scene : PlanningScene.
Variable number_of_poses : Z.
Variable ignore_min_dist_list : list string.

Local Abbreviation sample :=
  (sample_position random object_class support_object plane ignore_min_dist_list).
Local Abbreviation one :=
  (place_one quaternion_from_euler random object_class support_object plane
             planning_scene number_of_poses ignore_min_dist_list).
Local Abbreviation loop :=
  (place_loop quaternion_from_euler random object_class support_object plane
              planning_scene number_of_poses ignore_min_dist_list).
Local Abbreviation gen :=
  (gen_place_poses_from_plane quaternion_from_euler random object_class
     support_object plane planning_scene number_of_poses ignore_min_dist_list).
Local Abbreviation height :=
  (attached_obj_height support_object planning_scene 0.001).

(** One iteration of the outer loop, when it returns. *)
Lemma place_one_step fuel min_dist st st' :
  one fuel min_dist st = Some (Ok st') ->
  exists cx cy draws1 logged1 z added,
    sample fuel (x_y_list st) min_dist (draws st) 0 (logged st)
    = Some (Ok (cx, cy, draws1, logged1)) /\
    height = Ok z /\
    x_y_list st' = x_y_list st ++ [(cx, cy)] /\
    objects st' = objects st ++ added /\
    place_poses_id st' = (place_poses_id st + Z.of_nat (List.length added))%Z /\
    map (@instance_id quat) added
    = map (fun i => (place_poses_id st + Z.of_nat i)%Z)
          (seq 0 (List.length added)) /\
    Forall (fun o => class_id o = object_class /\
                     position o = mkPoint cx cy z) added.
Proof.
  unfold place_one.
  destruct (sample fuel (x_y_list st) min_dist (draws st) 0 (logged st))
    as [[[[[cx cy] draws1] logged1] | e] |]; try discriminate.
  destruct height as [z | e]; try discriminate.
  destruct (number_of_poses >? 20)%Z; intros H; injection H as <-;
    exists cx, cy, draws1, logged1, z; eexists;
    (split; [reflexivity |]); (split; [reflexivity |]);
    (split; [reflexivity |]); (split; [reflexivity |]); cbn.
  - split; [reflexivity |]. split.
    + repeat (apply (f_equal2 (@cons Z)); [lia |]). reflexivity.
    + repeat (constructor; [split; reflexivity |]). constructor.
  - split; [reflexivity |]. split.
    + repeat (apply (f_equal2 (@cons Z)); [lia |]). reflexivity.
    + repeat (constructor; [split; reflexivity |]). constructor.
Qed.

Lemma place_loop_invariant (P : gen_state quat -> Prop) fuel min_dist :
  (forall st st', P st -> one fuel min_dist st = Some (Ok st') -> P st') ->
  forall iterations st st',
    P st -> loop fuel min_dist iterations st = Some (Ok st') -> P st'.
Proof.
  intros Hstep. induction iterations as [| n IH]; intros st st' HP H; cbn in H.
  - injection H as <-. exact HP.
  - destruct (one fuel min_dist st) as [[st1 | e] |] eqn:E; try discriminate.
    exact (IH st1 st' (Hstep st st1 HP E) H).
Qed.

Lemma shifted_seq (s m : nat) :
  map (fun i => (Z.of_nat (S s) + Z.of_nat i)%Z) (seq 0 m)
  = map Z.of_nat (seq (S s) m).
Proof.
  assert (G : forall a,
             map (fun i => (Z.of_nat (S s) + Z.of_nat i)%Z) (seq a m)
             = map Z.of_nat (seq (S s + a) m)).
  { induction m as [| m IH]; intros a; cbn [seq map]; [reflexivity |].
    f_equal; [lia |]. rewrite IH. f_equal. f_equal. lia. }
  rewrite G. f_equal. f_equal. lia.
Qed.

(** What the outer loop keeps true of the poses collected so far: their
    numbering, class, height and sampled position. *)
Lemma gen_place_poses_collected (fuel : nat) (min_dist : Q)
    (st : gen_state quat) :
  gen fuel min_dist = Some (Ok st) ->
  map (@instance_id quat) (objects st) = ids_from_one (List.length (objects st))
  /\ Forall (fun o =>
               class_id o = object_class /\
               height = Ok (p_z (position o)) /\
               In (p_x (position o), p_y (position o)) (x_y_list st))
            (objects st).
Proof.
  intros H. unfold gen_place_poses_from_plane in H.
  set (P := fun s : gen_state quat =>
              (map (@instance_id quat) (objects s)
               = ids_from_one (List.length (objects s)) /\
               place_poses_id s = Z.of_nat (S (List.length (objects s)))) /\
              Forall (fun o =>
                        class_id o = object_class /\
                        height = Ok (p_z (position o)) /\
                        In (p_x (position o), p_y (position o)) (x_y_list s))
                     (objects s)).
  assert (HP : P st).
  { refine (@place_loop_invariant P _ _ _ _ _ _ _ H).
    - clear. intros st st' [[Hids Hid] Hall] Hone.
      destruct (place_one_step _ _ _ Hone)
        as (cx & cy & draws1 & logged1 & z & added & _ & Hz & Hxy & Hob & Hid'
            & Hadd & Hf).
      split; [split |].
      + rewrite Hob, map_app, length_app, Hids, Hadd, Hid.
        unfold ids_from_one. rewrite seq_app, map_app. f_equal.
        apply shifted_seq.
      + rewrite Hid', Hob, length_app, Hid. lia.
      + rewrite Hob. apply Forall_app. split.
        * eapply Forall_impl; [| exact Hall]. cbv beta.
          intros o (Hc & Hh & Hin). rewrite Hxy.
          repeat split; try assumption. apply in_or_app. left. exact Hin.
        * eapply Forall_impl; [| exact Hf]. cbv beta.
          intros o (Hc & Hp). rewrite Hp, Hxy. cbn [p_x p_y p_z].
          repeat split; try assumption. apply in_or_app. right. left. reflexivity.
    - repeat split; constructor. }
  destruct HP as [[Hids _] Hall].
  split; [exact Hids | exact Hall].
Qed.

(** X5: the poses [gen_place_poses_from_plane] returns are numbered
    1, 2, 3, ... in the order of the list (so no instance id occurs
    twice), each carries the object class, its height is the value of
    [attached_obj_height] for the support object, and its x and y are one
    of the sampled positions. *)
Theorem gen_place_poses_ids_and_height (fuel : nat) (min_dist : Q)
    (st : gen_state quat) :
  gen fuel min_dist = Some (Ok st) ->
  map (@instance_id quat) (objects st) = ids_from_one (List.length (objects st))
  /\ NoDup (map (@instance_id quat) (objects st))
  /\ Forall (fun o =>
               class_id o = object_class /\
               height = Ok (p_z (position o)) /\
               In (p_x (position o), p_y (position o)) (x_y_list st))
            (objects st).
Proof.
  intros H. destruct (gen_place_poses_collected _ _ H) as [Hids Hall].
  split; [exact Hids |]. split; [| exact Hall].
  rewrite Hids. unfold ids_from_one.
  apply NoDup_map_NoDup_ForallPairs; [intros a b _ _ E; lia | apply seq_NoDup].
Qed.

(** The value [uniform a b] draws lies between [a] and [b]. *)
Lemma uniform_between (a b : Q) (k : nat) :
  0 <= random k <= 1 -> between a b 0 (uniform random a b k).
Proof.
  intros [H0 H1]. unfold between, uniform.
  destruct (Qlt_le_dec a b) as [Hab | Hab].
  - rewrite (Q.min_l a b), (Q.max_r a b) by lraQ. split; Lqa.nra.
  - rewrite (Q.min_r a b), (Q.max_l a b) by lraQ. split; Lqa.nra.
Qed.

Lemma rounded_between (a b v : Q) :
  between a b 0 v -> between a b (1 # 20000) (Py.round v 4).
Proof.
  intros [H0 H1]. pose proof (round4_close v) as H.
  apply Qabs_Qle_condition in H. destruct H as [Ha Hb].
  unfold between. split; lraQ.
Qed.

(** X6: with a random source that returns numbers of [0, 1], every
    position the generator samples, and so the x and y of every pose it
    returns, lies between the x of [plane[0]] and [plane[1]] and between
    the y of [plane[0]] and [plane[3]], up to the half unit of the fourth
    decimal that [round(..., 4)] can add. *)
Theorem gen_place_poses_inside_plane (fuel : nat) (min_dist : Q)
    (st : gen_state quat) (p0 p1 p3 : Point) :
  (forall k, 0 <= random k <= 1) ->
  nth_error plane 0 = Some p0 ->
  nth_error plane 1 = Some p1 ->
  nth_error plane 3 = Some p3 ->
  gen fuel min_dist = Some (Ok st) ->
  Forall (fun xy => between (p_x p0) (p_x p1) (1 # 20000) (fst xy) /\
                    between (p_y p0) (p_y p3) (1 # 20000) (snd xy))
         (x_y_list st)
  /\ Forall (fun o =>
               between (p_x p0) (p_x p1) (1 # 20000) (p_x (position o)) /\
               between (p_y p0) (p_y p3) (1 # 20000) (p_y (position o)))
            (objects st).
Proof.
  intros Hr H0 H1 H3 H.
  assert (Hxy : Forall (fun xy => between (p_x p0) (p_x p1) (1 # 20000) (fst xy) /\
                                  between (p_y p0) (p_y p3) (1 # 20000) (snd xy))
                       (x_y_list st)).
  { unfold gen_place_poses_from_plane in H.
    refine (@place_loop_invariant
              (fun s => Forall (fun xy => between (p_x p0) (p_x p1) (1 # 20000) (fst xy) /\
                                          between (p_y p0) (p_y p3) (1 # 20000) (snd xy))
                               (x_y_list s)) _ _ _ _ _ _ _ H).
    - clear H st. intros st st' Hall Hone.
      destruct (place_one_step _ _ _ Hone)
        as (cx & cy & draws1 & logged1 & z & added & Hs & _ & Hxy & _).
      rewrite Hxy. apply Forall_app. split; [exact Hall |].
      constructor; [| constructor].
      apply sample_position_sound in Hs; [| unfold max_attempts; lia].
      destruct Hs as (k & _ & Hc & _).
      unfold candidate, Py.index in Hc.
      assert (Hlen : (4 <= List.length plane)%nat).
      { assert (nth_error plane 3 <> None) as N by congruence.
        apply nth_error_Some in N. lia. }
      destruct (0 <? 0)%Z eqn:E0; [discriminate |].
      destruct (1 <? 0)%Z eqn:E1; [discriminate |].
      destruct (3 <? 0)%Z eqn:E3; [discriminate |].
      cbn [orb] in Hc.
      destruct (Z.of_nat (List.length plane) <=? 0)%Z eqn:L0;
        [apply Z.leb_le in L0; lia |].
      destruct (Z.of_nat (List.length plane) <=? 1)%Z eqn:L1;
        [apply Z.leb_le in L1; lia |].
      destruct (Z.of_nat (List.length plane) <=? 3)%Z eqn:L3;
        [apply Z.leb_le in L3; lia |].
      change (Z.to_nat 0) with 0%nat in Hc. change (Z.to_nat 1) with 1%nat in Hc.
      change (Z.to_nat 3) with 3%nat in Hc.
      rewrite H0, H1 in Hc. cbn [bind] in Hc. rewrite H3 in Hc. cbn [bind] in Hc.
      injection Hc as <- <-. cbn [fst snd].
      split; apply rounded_between, uniform_between, Hr.
    - constructor. }
  split; [exact Hxy |].
  destruct (gen_place_poses_collected _ _ H) as (_ & Hall).
  rewrite Forall_forall in *. intros o Ho.
  destruct (Hall o Ho) as (_ & _ & Hin).
  exact (Hxy _ Hin).
Qed.

Lemma candidate_short draws :
  (List.length plane < 4)%nat -> candidate random plane draws = Raise IndexError.
Proof.
  intros H. unfold candidate.
  pose proof (@index_beyond _ plane 3) as E3. change (Z.of_nat 3) with 3%Z in E3.
  destruct (index_outcome plane 0) as [(p0 & ->) | ->]; [| reflexivity].
  destruct (index_outcome plane 1) as [(p1 & ->) | ->]; [| reflexivity].
  cbn [bind]. rewrite E3 by lia. reflexivity.
Qed.

(** X7: every way [gen_place_poses_from_plane] can end, given fuel for the
    attempts of one position.  A count below 1 returns the empty list
    whatever the plane and the scene are.  Otherwise a plane of fewer than
    four points raises IndexError at the first draw; with four points the
    first position is sampled and then the exception of
    [attached_obj_height] (ValueError for an unknown support object,
    IndexError when nothing is attached) is raised; and when
    [attached_obj_height] returns, the function returns. *)
Theorem gen_place_poses_outcome (fuel : nat) (min_dist : Q) :
  (Z.to_nat max_attempts < fuel)%nat ->
  ((number_of_poses <= 0)%Z ->
   gen fuel min_dist = Some (Ok (mkGen 0 [] [] 1 [])))
  /\ ((1 <= number_of_poses)%Z -> (List.length plane < 4)%nat ->
      gen fuel min_dist = Some (Raise IndexError))
  /\ ((1 <= number_of_poses)%Z -> (4 <= List.length plane)%nat ->
      forall e, height = Raise e -> gen fuel min_dist = Some (Raise e))
  /\ ((4 <= List.length plane)%nat ->
      forall z, height = Ok z -> exists st, gen fuel min_dist = Some (Ok st)).
Proof.
  intros Hfuel. unfold gen_place_poses_from_plane.
  split; [| split; [| split]].
  - intros Hn. replace (Z.to_nat number_of_poses) with 0%nat by lia.
    destruct (number_of_poses >? 100)%Z eqn:E; [apply Z.gtb_lt in E; lia |].
    reflexivity.
  - intros Hn Hp.
    destruct (Z.to_nat number_of_poses) as [| n] eqn:En; [lia |].
    destruct fuel as [| fuel']; [lia |].
    cbn [place_loop]. unfold place_one at 1.
    cbn [sample_position draws x_y_list logged].
    rewrite (candidate_short _ Hp). reflexivity.
  - intros Hn Hp e He.
    destruct (Z.to_nat number_of_poses) as [| n] eqn:En; [lia |].
    cbn [place_loop]. unfold place_one at 1. cbn [draws x_y_list logged].
    match goal with
    | |- context [sample_position ?r ?oc ?so ?pl ?ig ?f ?xs ?d ?dr ?c ?lg] =>
        pose proof (@sample_position_terminates r oc so pl ig f xs d dr c lg) as Ht;
        pose proof (fun e' => @sample_position_no_raise r oc so pl ig f xs d dr c lg e' Hp)
          as Hr;
        destruct (sample_position r oc so pl ig f xs d dr c lg)
          as [[[[[cx cy] draws1] logged1] | e'] |]
    end.
    + rewrite He. reflexivity.
    + exfalso. exact (Hr e' eq_refl).
    + exfalso. apply Ht; [unfold max_attempts; lia | | reflexivity].
      unfold max_attempts in *. lia.
  - intros Hp z Hz.
    match goal with
    | |- context [place_loop _ _ _ _ _ _ _ _ _ ?d ?n ?s] =>
        exact (@place_loop_ok _ quaternion_from_euler random object_class
                 support_object plane planning_scene number_of_poses
                 ignore_min_dist_list fuel d n s z Hfuel Hp Hz)
    end.
Qed.

End Placement.

Lemma example_random_unit (k : nat) : 0 <= example_random k <= 1.
Proof.
  unfold example_random.
  assert (H : (0 <= Z.of_nat ((k * 37) mod 100) < 100)%Z).
  { pose proof (Nat.mod_upper_bound (k * 37) 100). lia. }
  destruct H as [H0 H1].
  split.
  - apply Qle_shift_div_l; [reflexivity |].
    rewrite Qmult_0_l. change 0 with (inject_Z 0). rewrite <- Zle_Qle. exact H0.
  - apply Qle_shift_div_r; [reflexivity |].
    rewrite Qmult_1_l. change 100 with (inject_Z 100). rewrite <- Zle_Qle. lia.
Qed.

Lemma gen_place_poses_ids_and_height_witness :
  exists st,
    example_run 3 0.3 = Some (Ok st) /\
    map (@instance_id _) (objects st) = ids_from_one (List.length (objects st)) /\
    NoDup (map (@instance_id _) (objects st)) /\
    Forall (fun o =>
              class_id o = "klt"%string /\
              attached_obj_height "table" example_scene 0.001
              = Ok (p_z (position o)) /\
              In (p_x (position o), p_y (position o)) (x_y_list st))
           (objects st).
Proof.
  assert (E : exists st, example_run 3 0.3 = Some (Ok st))
    by (vm_compute; eexists; reflexivity).
  destruct E as (st & E). exists st. split; [exact E |].
  exact (@gen_place_poses_ids_and_height _ example_euler example_random "klt"
           "table" example_plane example_scene 3 []
           (S (Z.to_nat max_attempts)) 0.3 st E).
Defined.

Lemma gen_place_poses_inside_plane_witness :
  exists st,
    example_run 3 0.3 = Some (Ok st) /\
    Forall (fun xy => between 0 1 (1 # 20000) (fst xy) /\
                      between 0 1 (1 # 20000) (snd xy))
           (x_y_list st) /\
    Forall (fun o => between 0 1 (1 # 20000) (p_x (position o)) /\
                     between 0 1 (1 # 20000) (p_y (position o)))
           (objects st).
Proof.
  assert (E : exists st, example_run 3 0.3 = Some (Ok st))
    by (vm_compute; eexists; reflexivity).
  destruct E as (st & E). exists st. split; [exact E |].
  exact (@gen_place_poses_inside_plane _ example_euler example_random "klt"
           "table" example_plane example_scene 3 []
           (S (Z.to_nat max_attempts)) 0.3 st
           (mkPoint 0 0 0.701) (mkPoint 1 0 0.701) (mkPoint 0 1 0.701)
           example_random_unit eq_refl eq_refl eq_refl E).
Defined.

Lemma gen_place_poses_outcome_witness :
  shelf_run 0 = Some (Ok (mkGen 0 [] [] 1 []))
  /\ shelf_run 3
     = Some (Raise (ValueError "Object 'shelf' not in planning scene")).
Proof.
  assert (F : (Z.to_nat max_attempts < S (Z.to_nat max_attempts))%nat) by lia.
  split.
  - apply (@gen_place_poses_outcome _ example_euler example_random "klt"
             "shelf" example_plane example_scene 0 []
             (S (Z.to_nat max_attempts)) 0.3 F).
    lia.
  - apply (@gen_place_poses_outcome _ example_euler example_random "klt"
             "shelf" example_plane example_scene 3 []
             (S (Z.to_nat max_attempts)) 0.3 F).
    + lia.
    + cbn. lia.
    + reflexivity.
Defined.

End PlacementProps.

Module PlaneObjectsProps.

Import PlaneTools Editor PlaneObjects PlaneToolsSpec PlaneToolsProps.
Import GeneratorSpec PlacementSpec PlaneObjectsSpec.
Local Open Scope Q_scope.

Local Ltac lraQ := Lqa.lra.

Section Insertion.

Variable quaternion_from_euler : Q -> Q -> Q -> Quaternion Q.
Variable euler_from_quaternion : Quaternion Q -> Q * Q * Q.
Variable object_class : string.

Local Abbreviation gen_insert :=
  (gen_insert_poses_from_obj quaternion_from_euler euler_from_quaternion
                             object_class).

(** X8: [gen_insert_poses_from_obj] returns seven poses, or two when the
    orientation of the support object is to be kept; they are numbered
    1, 2, ... in the order of the list, carry the object class, and all
    sit at the position of the support object raised by [obj_height]. *)
Theorem gen_insert_poses_shape (support_object_pose : Pose Q) (obj_height : Q)
    (same_orientation_as_support_obj : bool) :
  let out := gen_insert support_object_pose obj_height
                        same_orientation_as_support_obj in
  List.length out = (if same_orientation_as_support_obj then 2 else 7)%nat
  /\ map (@instance_id _) out = ids_from_one (List.length out)
  /\ Forall (fun o =>
               class_id o = object_class /\
               PlaneTools.position o
               = insert_position support_object_pose obj_height)
            out.
Proof.
  unfold gen_insert_poses_from_obj.
  destruct same_orientation_as_support_obj; cbn.
  - repeat split. repeat (constructor; [split; reflexivity |]). constructor.
  - repeat split. repeat (constructor; [split; reflexivity |]). constructor.
Qed.

(** X9: for every object class but 'insole', the seven poses of the sweep
    are the poses the placement generator appends for one position in its
    sweep mode (same roll of the class, yaw 0, 0.5, ..., 3.0, ids counted
    from 1), at the insertion position. *)
Theorem gen_insert_poses_is_placement_sweep (support_object_pose : Pose Q)
    (obj_height : Q) :
  String.eqb object_class "insole" = false ->
  gen_insert support_object_pose obj_height false
  = sweep quaternion_from_euler object_class 7
          (insert_position support_object_pose obj_height)
          (object_roll object_class) 0 0 1.
Proof.
  intros E. unfold gen_insert_poses_from_obj, object_roll, insert_position.
  cbn [negb]. cbv iota. rewrite E.
  destruct (String.eqb object_class "power_drill_with_grip");
    cbn [insert_sweep sweep]; rewrite E; reflexivity.
Qed.

(** X10: an 'insole' placed with the orientation of the support object
    gets, as its first pose, the quaternion of the support object with
    1.54 subtracted from the field x; for a support object whose
    orientation has norm 1 this first orientation has norm 1 only when
    that field is 0.77. *)
Theorem gen_insert_poses_insole_first (support_object_pose : Pose Q)
    (obj_height : Q) :
  object_class = "insole"%string ->
  norm2 (Editor.orientation support_object_pose) == 1 ->
  exists first second,
    gen_insert support_object_pose obj_height true = [first; second] /\
    PlaneTools.orientation first
    = mkQuat (q_x (Editor.orientation support_object_pose) - 1.54)
             (q_y (Editor.orientation support_object_pose))
             (q_z (Editor.orientation support_object_pose))
             (q_w (Editor.orientation support_object_pose)) /\
    (norm2 (PlaneTools.orientation first) == 1
     <-> q_x (Editor.orientation support_object_pose) == 0.77).
Proof.
  intros E Hn. unfold gen_insert_poses_from_obj. cbn [negb]. cbv iota.
  rewrite E. cbn [String.eqb Ascii.eqb Bool.eqb].
  cbv iota. eexists. eexists. split; [reflexivity |].
  cbn [PlaneTools.orientation]. split; [reflexivity |].
  unfold norm2 in *. cbn [q_x q_y q_z q_w].
  destruct support_object_pose as [p [x y z w]]. cbn [Editor.orientation q_x q_y q_z q_w] in *.
  split; intros H.
  - assert (F : 1.54 * (1.54 - 2 * x) == 0) by lraQ.
    apply Qmult_integral in F. destruct F as [F | F]; [discriminate F | lraQ].
  - rewrite H in Hn. rewrite H. lraQ.
Qed.

End Insertion.

Lemma gen_insert_poses_is_placement_sweep_witness :
  gen_insert_poses_from_obj example_from_euler example_to_euler "klt"
                            example_support 0.1 false
  = sweep example_from_euler "klt" 7 (insert_position example_support 0.1)
          (object_roll "klt") 0 0 1.
Proof.
  apply gen_insert_poses_is_placement_sweep. reflexivity.
Defined.

Lemma gen_insert_poses_insole_first_witness :
  exists first second,
    gen_insert_poses_from_obj example_from_euler example_to_euler "insole"
                              example_support 0.1 true
    = [first; second] /\
    PlaneTools.orientation first = mkQuat (0 - 1.54) 0 0 1 /\
    (norm2 (PlaneTools.orientation first) == 1 <-> 0 == 0.77).
Proof.
  apply (@gen_insert_poses_insole_first example_from_euler example_to_euler
           "insole" example_support 0.1).
  - reflexivity.
  - reflexivity.
Defined.

Lemma index_nth {A} (l : list A) (i : nat) (a : A) :
  nth_error l i = Some a -> Py.index l (Z.of_nat i) = Ok a.
Proof.
  intros H. assert (L : (i < List.length l)%nat).
  { apply nth_error_Some. congruence. }
  unfold Py.index.
  destruct (Z.of_nat i <? 0)%Z eqn:E; [apply Z.ltb_lt in E; lia |].
  rewrite E. cbn [orb].
  destruct (Z.of_nat (List.length l) <=? Z.of_nat i)%Z eqn:E2;
    [apply Z.leb_le in E2; lia |].
  rewrite Nat2Z.id, H. reflexivity.
Qed.

Section BoxPlane.

Variable rotation_angle_of : CollisionObject -> result (Q * Q * Q).
Variable math_cos : Q -> Q.
Variable math_sin : Q -> Q.

Local Abbreviation to_plane := (obj_to_plane rotation_angle_of math_cos math_sin).

(** X11: what [obj_to_plane] rejects, in the order it checks.  A name
    that is not known in the planning scene; then an object that does not
    consist of exactly one primitive of type 1 (a box), before its
    orientation is looked at; then a box whose roll or pitch is not
    zero, before its dimensions are read. *)
Theorem obj_to_plane_rejects (support_obj : string)
    (planning_scene : PlanningScene) (offset : Q) :
  (lookup_object (known_objects planning_scene) support_obj = None ->
   to_plane support_obj planning_scene offset
   = Raise (ValueError ("Object '" ++ support_obj ++ "' not in planning scene")))
  /\ (forall co,
        lookup_object (known_objects planning_scene) support_obj = Some co ->
        match primitives co with
        | [prim] => prim_type prim <> 1%Z
        | _ => True
        end ->
        to_plane support_obj planning_scene offset
        = Raise (ValueError (not_a_box_msg support_obj)))
  /\ (forall co prim roll pitch yaw,
        lookup_object (known_objects planning_scene) support_obj = Some co ->
        primitives co = [prim] ->
        prim_type prim = 1%Z ->
        rotation_angle_of co = Ok (roll, pitch, yaw) ->
        ~ (roll == 0 /\ pitch == 0) ->
        to_plane support_obj planning_scene offset
        = Raise (ValueError (not_aligned_msg support_obj))).
Proof.
  unfold obj_to_plane, get_obj_from_planning_scene.
  split; [| split].
  - intros ->. reflexivity.
  - intros co -> Hp. cbn [bind].
    destruct (primitives co) as [| prim [| prim' rest]]; try reflexivity.
    cbn. destruct (prim_type prim =? 1)%Z eqn:E; [| reflexivity].
    apply Z.eqb_eq in E. contradiction.
  - intros co prim roll pitch yaw -> Hp Ht Hr Hn. cbn [bind].
    rewrite Hp. cbn. rewrite Ht. cbn. rewrite Hr. cbn [bind].
    destruct (Qeq_bool roll 0) eqn:E1; [| reflexivity].
    destruct (Qeq_bool pitch 0) eqn:E2; [| reflexivity].
    apply Qeq_bool_iff in E1. apply Qeq_bool_iff in E2. tauto.
Qed.

(** X12: the plane [obj_to_plane] returns for a box that lies flat.  It
    has four corners at twice the height of the centre of the box plus
    [offset], so [adjust_plane] accepts it; opposite corners are
    symmetric about the centre of the box; [attached_obj_height] of the
    same object and offset is this height plus the third dimension of the
    attached object; and when the box is not turned (cosine 1 and sine 0
    of its yaw) corners 0 and 1 span its width in x and corners 0 and 3
    its depth in y, the two intervals the placement generator samples
    from. *)
Theorem obj_to_plane_corners (support_obj : string)
    (planning_scene : PlanningScene) (offset : Q)
    (co : CollisionObject) (prim : SolidPrimitive)
    (roll pitch yaw d0 d1 : Q) :
  lookup_object (known_objects planning_scene) support_obj = Some co ->
  primitives co = [prim] ->
  prim_type prim = 1%Z ->
  rotation_angle_of co = Ok (roll, pitch, yaw) ->
  roll == 0 -> pitch == 0 ->
  nth_error (dimensions prim) 0 = Some d0 ->
  nth_error (dimensions prim) 1 = Some d1 ->
  exists p0 p1 p2 p3,
    to_plane support_obj planning_scene offset = Ok [p0; p1; p2; p3] /\
    Forall (fun p => p_z p = p_z (co_position co) * 2 + offset) [p0; p1; p2; p3] /\
    (forall x_extend y_extend x_offset y_offset,
        exists out,
          adjust_plane [p0; p1; p2; p3] x_extend y_extend x_offset y_offset
          = Ok out) /\
    (p_x p0 + p_x p2 == 2 * p_x (co_position co) /\
     p_y p0 + p_y p2 == 2 * p_y (co_position co) /\
     p_x p1 + p_x p3 == 2 * p_x (co_position co) /\
     p_y p1 + p_y p3 == 2 * p_y (co_position co)) /\
    (forall h, attached_obj_height support_obj planning_scene offset = Ok h ->
               exists att att_prim d,
                 hd_error (map snd (attached_objects planning_scene)) = Some att /\
                 hd_error (primitives att) = Some att_prim /\
                 nth_error (dimensions att_prim) 2 = Some d /\
                 h == p_z p0 + d) /\
    (math_cos yaw == 1 -> math_sin yaw == 0 ->
     p_x p0 == p_x (co_position co) + d0 / 2 /\
     p_x p1 == p_x (co_position co) - d0 / 2 /\
     p_y p0 == p_y (co_position co) + d1 / 2 /\
     p_y p3 == p_y (co_position co) - d1 / 2).
Proof.
  intros Hl Hp Ht Hr Hroll Hpitch H0 H1.
  apply Qeq_bool_iff in Hroll. apply Qeq_bool_iff in Hpitch.
  apply index_nth in H0. apply index_nth in H1.
  change (Z.of_nat 0) with 0%Z in H0. change (Z.of_nat 1) with 1%Z in H1.
  unfold obj_to_plane, get_obj_from_planning_scene.
  rewrite Hl. cbn [bind]. rewrite Hp.
  change (Py.index [prim] 0) with (Ok prim).
  cbn [List.length Nat.eqb negb bind]. rewrite Ht. cbn [Z.eqb negb bind].
  change (negb (1 =? 1)%Z) with false. cbv iota.
  rewrite Hr. cbn [bind]. rewrite Hroll, Hpitch. cbn [negb orb].
  rewrite H0. cbn [bind]. rewrite H1. cbn [bind map fst snd].
  do 4 eexists. split; [reflexivity |].
  split; [repeat constructor |].
  split; [| split; [| split]].
  - intros xe ye xo yo.
    match goal with
    | |- context [adjust_plane ?pl _ _ _ _] =>
        destruct (@adjust_plane_ok pl xe ye xo yo)
          as (a & b & c & d & q & _ & _ & _ & _ & _ & E)
    end.
    + discriminate.
    + intros p q Hin Hin'. cbn in Hin, Hin'.
      repeat (destruct Hin as [<- | Hin]; [| ]);
        repeat (destruct Hin' as [<- | Hin']; [| ]);
        try contradiction; reflexivity.
    + eexists. exact E.
  - cbn [p_x p_y]. repeat split; ring.
  - intros h Hh. unfold attached_obj_height, get_obj_from_planning_scene in Hh.
    rewrite Hl in Hh. cbn [bind] in Hh.
    destruct (map snd (attached_objects planning_scene)) as [| att atts];
      [discriminate Hh |].
    change (Py.index (att :: atts) 0) with (Ok att) in Hh. cbn [bind] in Hh.
    destruct (primitives att) as [| att_prim prims] eqn:Ep; [discriminate Hh |].
    change (Py.index (att_prim :: prims) 0) with (Ok att_prim) in Hh.
    cbn [bind] in Hh.
    destruct (dimensions att_prim) as [| e0 [| e1 [| e2 rest]]] eqn:Ed;
      try discriminate Hh.
    change 2%Z with (Z.of_nat 2) in Hh at 1.
    rewrite (@index_nth _ (e0 :: e1 :: e2 :: rest) 2 e2 eq_refl) in Hh.
    cbn [bind] in Hh. injection Hh as <-.
    exists att, att_prim, e2. rewrite Ep, Ed.
    split; [reflexivity |]. split; [reflexivity |]. split; [reflexivity |].
    cbn [p_z]. ring.
  - intros Hc Hs. cbn [p_x p_y]. rewrite Hc, Hs. repeat split; field.
Qed.

End BoxPlane.

Lemma obj_to_plane_rejects_witness :
  obj_to_plane not_turned cos_not_turned sin_not_turned "shelf" scene_with_can 0.001
  = Raise (ValueError "Object 'shelf' not in planning scene")
  /\ obj_to_plane not_turned cos_not_turned sin_not_turned "can" scene_with_can 0.001
     = Raise (ValueError "Object 'can' is not a box")
  /\ obj_to_plane tilted cos_not_turned sin_not_turned "table" scene_with_can 0.001
     = Raise (ValueError "Object 'table' is not aligned with the XY plane").
Proof.
  split; [| split].
  - apply (proj1 (obj_to_plane_rejects not_turned cos_not_turned sin_not_turned
                    "shelf" scene_with_can 0.001)).
    reflexivity.
  - apply (proj1 (proj2 (obj_to_plane_rejects not_turned cos_not_turned
                           sin_not_turned "can" scene_with_can 0.001))
             (mkCollisionObject (mkPoint 1 1 0.8) [mkPrimitive 3 [0.12; 0.03]])).
    + reflexivity.
    + cbn. discriminate.
  - apply (proj2 (proj2 (obj_to_plane_rejects tilted cos_not_turned
                           sin_not_turned "table" scene_with_can 0.001))
             (mkCollisionObject (mkPoint 2 3 0.35) [mkPrimitive 1 [1.2; 0.8; 0.7]])
             (mkPrimitive 1 [1.2; 0.8; 0.7]) 0.1 0 0).
    + reflexivity.
    + reflexivity.
    + reflexivity.
    + reflexivity.
    + intros [H _]. discriminate H.
Defined.

Lemma obj_to_plane_corners_witness :
  exists p0 p1 p2 p3,
    obj_to_plane not_turned cos_not_turned sin_not_turned "table"
                 example_scene 0.001
    = Ok [p0; p1; p2; p3] /\
    p_x p0 == 2 + 1.2 / 2 /\ p_x p1 == 2 - 1.2 / 2 /\
    p_y p0 == 3 + 0.8 / 2 /\ p_y p3 == 3 - 0.8 / 2.
Proof.
  destruct (@obj_to_plane_corners not_turned cos_not_turned sin_not_turned
              "table" example_scene 0.001
              (mkCollisionObject (mkPoint 2 3 0.35) [mkPrimitive 1 [1.2; 0.8; 0.7]])
              (mkPrimitive 1 [1.2; 0.8; 0.7]) 0 0 0 1.2 0.8
              eq_refl eq_refl eq_refl eq_refl (Qeq_refl 0) (Qeq_refl 0)
              eq_refl eq_refl)
    as (p0 & p1 & p2 & p3 & E & _ & _ & _ & _ & H).
  exists p0, p1, p2, p3. split; [exact E |].
  apply H; reflexivity.
Defined.

End PlaneObjectsProps.

Module SelectDeleteProps.

Import Editor EditorSpec EditorProps.

Lemma index_nonneg {A} (l : list A) (i : Z) :
  (0 <= i < Z.of_nat (List.length l))%Z -> exists a, Py.index l i = Ok a.
Proof.
  intros [H0 H1]. unfold Py.index.
  destruct (i <? 0)%Z eqn:E; [apply Z.ltb_lt in E; lia |].
  rewrite E. cbn [orb].
  destruct (Z.of_nat (List.length l) <=? i)%Z eqn:E2; [apply Z.leb_le in E2; lia |].
  destruct (nth_error l (Z.to_nat i)) as [a |] eqn:E3; [eauto |].
  apply nth_error_None in E3. lia.
Qed.

Lemma del_below {A} (l : list A) (i : Z) :
  (i < - Z.of_nat (List.length l))%Z -> Py.del l i = Raise IndexError.
Proof.
  intros H. unfold Py.del.
  destruct (i <? 0)%Z eqn:E; [| apply Z.ltb_ge in E; lia].
  destruct (i + Z.of_nat (List.length l) <? 0)%Z eqn:E2;
    [reflexivity | apply Z.ltb_ge in E2; lia].
Qed.

Section Panel.

Variable num : Type.

Local Abbreviation state := (State num).
Local Abbreviation widget := (Widget num).

(** X13: the select button with a number typed in.  A number at or above
    the length of the pose list is reported in the error dialog and
    nothing else changes: no pose is selected or published.  A number
    from 0 to the length minus one becomes the selection and is published
    with the pose list, whether or not the selected pose is also loaded
    into the transform boxes. *)
Theorem select_button_number (w : widget) (st : state) (l : list (Pose num))
    (i : Z) :
  chkGraspSAllGrasps w = false ->
  txtGraspSGraspNumbers w = Some i ->
  grasps_as_pose_array st = Some l ->
  ((Z.of_nat (List.length l) <= i)%Z ->
   handle_grasp_s_select_button w st
   = (Ok tt,
      mkState (Some l) (selected_pose st) (published st)
              (reported st ++ [out_of_bounds_msg]) (lblGraspSGrasps st)))
  /\ ((0 <= i < Z.of_nat (List.length l))%Z ->
      handle_grasp_s_select_button w st
      = (Ok tt,
         mkState (Some l) i (published st ++ [(i, Some l)]) (reported st)
                 (lblGraspSGrasps st))).
Proof.
  intros Hall Htxt Hl.
  destruct (update_selected_pose_number w st Hall Htxt Hl) as [Hhi Hlo].
  split; intros Hi; unfold handle_grasp_s_select_button; unfold mbind at 1.
  - rewrite (Hhi Hi). reflexivity.
  - rewrite (Hlo (proj2 Hi)).
    unfold mbind, publish_grasps, get_selected, get_poses, lift, ret.
    cbn [grasps_as_pose_array selected_pose published reported lblGraspSGrasps].
    destruct (chkTransformLoadSelected w); [| reflexivity].
    assert (E1 : (i =? select_all)%Z = false)
      by (apply Z.eqb_neq; unfold select_all; lia).
    assert (E2 : (i =? select_none)%Z = false)
      by (apply Z.eqb_neq; unfold select_none; lia).
    cbn [grasps_as_pose_array selected_pose published reported lblGraspSGrasps].
    rewrite E1, E2. cbn [negb andb].
    cbn [grasps_as_pose_array selected_pose published reported lblGraspSGrasps].
    destruct (index_nonneg l Hi) as (a & ->). reflexivity.
Qed.

(** X14: text in the number box that is not an integer.  Select and
    delete both raise the ValueError of [int()]; the error dialog is not
    shown and nothing of the state changes. *)
Theorem number_not_an_integer (w : widget) (st : state) :
  chkGraspSAllGrasps w = false ->
  txtGraspSGraspNumbers w = None ->
  handle_grasp_s_select_button w st = (Raise int_error, st)
  /\ handle_grasp_s_delete_button w st = (Raise int_error, st).
Proof.
  intros Hall Htxt.
  unfold handle_grasp_s_select_button, handle_grasp_s_delete_button,
    update_selected_pose.
  rewrite Hall, Htxt. split; reflexivity.
Qed.

(** X15: deleting by number.  For a number [i] from 0 to the length minus
    one, exactly the pose at index [i] goes: the list is one shorter, the
    poses before [i] keep their index and the poses after it move down by
    one; the selection is reset to -1, the new list is published and the
    label shows the new length. *)
Theorem delete_button_removes_selected (w : widget) (st : state)
    (l : list (Pose num)) (i : nat) :
  chkGraspSAllGrasps w = false ->
  txtGraspSGraspNumbers w = Some (Z.of_nat i) ->
  grasps_as_pose_array st = Some l ->
  (i < List.length l)%nat ->
  exists l',
    handle_grasp_s_delete_button w st
    = (Ok tt,
       mkState (Some l') select_none (published st ++ [(select_none, Some l')])
               (reported st) (Some (List.length l'))) /\
    S (List.length l') = List.length l /\
    (forall k, (k < i)%nat -> nth_error l' k = nth_error l k) /\
    (forall k, (i <= k)%nat -> nth_error l' k = nth_error l (S k)).
Proof.
  intros Hall Htxt Hl Hi.
  exists (firstn i l ++ skipn (S i) l).
  split; [exact (delete_selected w st Hall Htxt Hl Hi) |].
  assert (Hf : List.length (firstn i l) = i) by (rewrite length_firstn; lia).
  split; [| split].
  - rewrite length_app, length_skipn, Hf. lia.
  - intros k Hk. rewrite nth_error_app1 by lia. rewrite nth_error_firstn.
    destruct (k <? i)%nat eqn:E; [reflexivity | apply Nat.ltb_ge in E; lia].
  - intros k Hk. rewrite nth_error_app2 by lia. rewrite Hf, nth_error_skipn.
    f_equal. lia.
Qed.

(** X16: the delete button when there is nothing to delete.  With "all"
    checked on an empty list it raises IndexError and changes nothing.
    With a number at or above the length nothing is deleted, the error
    dialog is shown and only the label is refreshed.  With a number below
    minus the length it raises IndexError after the selection has been
    set: the pose list stays, nothing is published, and [selected_pose]
    is left at that number. *)
Theorem delete_button_nothing_to_delete (w : widget) (st : state)
    (l : list (Pose num)) (i : Z) :
  grasps_as_pose_array st = Some l ->
  (chkGraspSAllGrasps w = true -> l = [] ->
   handle_grasp_s_delete_button w st = (Raise IndexError, st))
  /\ (chkGraspSAllGrasps w = false -> txtGraspSGraspNumbers w = Some i ->
      (Z.of_nat (List.length l) <= i)%Z ->
      handle_grasp_s_delete_button w st
      = (Ok tt,
         mkState (Some l) (selected_pose st) (published st)
                 (reported st ++ [out_of_bounds_msg])
                 (Some (List.length l))))
  /\ (chkGraspSAllGrasps w = false -> txtGraspSGraspNumbers w = Some i ->
      (i < - Z.of_nat (List.length l))%Z ->
      handle_grasp_s_delete_button w st
      = (Raise IndexError,
         mkState (Some l) i (published st) (reported st) (lblGraspSGrasps st))).
Proof.
  intros Hl. split; [| split].
  - intros Hall ->. exact (delete_all_empty w st Hall Hl).
  - intros Hall Htxt Hi.
    unfold handle_grasp_s_delete_button. rewrite Hall. unfold mbind at 1 2.
    rewrite (proj1 (update_selected_pose_number w st Hall Htxt Hl) Hi).
    reflexivity.
  - intros Hall Htxt Hi.
    unfold handle_grasp_s_delete_button. rewrite Hall. unfold mbind at 1 2.
    rewrite (proj2 (update_selected_pose_number w st Hall Htxt Hl)) by lia.
    unfold mbind, get_poses, get_selected, lift.
    cbn [grasps_as_pose_array selected_pose published reported lblGraspSGrasps].
    rewrite (del_below l Hi). reflexivity.
Qed.

(** X17: before any file was loaded ([grasps_as_pose_array] is [None])
    the handlers that read the pose list raise AttributeError and leave
    the session as it was: delete with "all" checked, and select and
    delete with a number in the box (whatever the number). *)
Theorem buttons_before_load (w : widget) (st : state) (i : Z) :
  grasps_as_pose_array st = None ->
  (chkGraspSAllGrasps w = true ->
   handle_grasp_s_delete_button w st = (Raise AttributeError, st))
  /\ (chkGraspSAllGrasps w = false -> txtGraspSGraspNumbers w = Some i ->
      handle_grasp_s_select_button w st = (Raise AttributeError, st)
      /\ handle_grasp_s_delete_button w st = (Raise AttributeError, st)).
Proof.
  intros Hl. destruct st as [g s p r lb]. cbn in Hl. subst g.
  unfold handle_grasp_s_select_button, handle_grasp_s_delete_button,
    update_selected_pose.
  split.
  - intros ->. reflexivity.
  - intros -> ->. split; reflexivity.
Qed.

End Panel.

Lemma select_button_number_witness :
  let poses := [example_pose 0; example_pose 1; example_pose 2] in
  handle_grasp_s_select_button (example_widget false (Some 3%Z))
                               (example_state poses 1)
  = (Ok tt, mkState (Some poses) 1%Z [] [out_of_bounds_msg] None)
  /\ handle_grasp_s_select_button (example_widget false (Some 2%Z))
                                  (example_state poses 1)
     = (Ok tt, mkState (Some poses) 2%Z [(2%Z, Some poses)] [] None).
Proof.
  cbv zeta. split.
  - apply (proj1 (@select_button_number Z (example_widget false (Some 3%Z))
                    (example_state
                       [example_pose 0; example_pose 1; example_pose 2] 1)
                    [example_pose 0; example_pose 1; example_pose 2] 3
                    eq_refl eq_refl eq_refl)).
    cbn. lia.
  - apply (proj2 (@select_button_number Z (example_widget false (Some 2%Z))
                    (example_state
                       [example_pose 0; example_pose 1; example_pose 2] 1)
                    [example_pose 0; example_pose 1; example_pose 2] 2
                    eq_refl eq_refl eq_refl)).
    cbn. lia.
Defined.

Lemma number_not_an_integer_witness :
  let st := example_state [example_pose 0; example_pose 1] 0 in
  handle_grasp_s_select_button (example_widget false None) st
  = (Raise int_error, st)
  /\ handle_grasp_s_delete_button (example_widget false None) st
     = (Raise int_error, st).
Proof.
  cbv zeta. apply number_not_an_integer; reflexivity.
Defined.

Lemma delete_button_removes_selected_witness :
  exists l',
    handle_grasp_s_delete_button
      (example_widget false (Some 1%Z))
      (example_state [example_pose 0; example_pose 1; example_pose 2] 0)
    = (Ok tt, mkState (Some l') select_none [(select_none, Some l')] []
                      (Some (List.length l'))) /\
    S (List.length l') = 3%nat /\
    nth_error l' 0 = Some (example_pose 0) /\
    nth_error l' 1 = Some (example_pose 2).
Proof.
  destruct (@delete_button_removes_selected Z
              (example_widget false (Some 1%Z))
              (example_state [example_pose 0; example_pose 1; example_pose 2] 0)
              [example_pose 0; example_pose 1; example_pose 2] 1
              eq_refl eq_refl eq_refl)
    as (l' & E & Hlen & Hlo & Hhi).
  - cbn. lia.
  - exists l'. split; [exact E |]. split; [exact Hlen |]. split.
    + rewrite (Hlo 0%nat) by lia. reflexivity.
    + rewrite (Hhi 1%nat) by lia. reflexivity.
Defined.

Lemma delete_button_nothing_to_delete_witness :
  handle_grasp_s_delete_button (example_widget true None) (example_state [] 0)
  = (Raise IndexError, example_state [] 0)
  /\ handle_grasp_s_delete_button (example_widget false (Some 5%Z))
                                  (example_state [example_pose 0] 0)
     = (Ok tt, mkState (Some [example_pose 0]) 0%Z [] [out_of_bounds_msg]
                       (Some 1%nat))
  /\ handle_grasp_s_delete_button (example_widget false (Some (-7)%Z))
                                  (example_state [example_pose 0] 0)
     = (Raise IndexError, mkState (Some [example_pose 0]) (-7)%Z [] [] None).
Proof.
  split; [| split].
  - apply (proj1 (@delete_button_nothing_to_delete Z (example_widget true None)
                    (example_state [] 0) [] 0 eq_refl));
      reflexivity.
  - apply (proj1 (proj2 (@delete_button_nothing_to_delete Z
                           (example_widget false (Some 5%Z))
                           (example_state [example_pose 0] 0)
                           [example_pose 0] 5 eq_refl)));
      [reflexivity | reflexivity | cbn; lia].
  - apply (proj2 (proj2 (@delete_button_nothing_to_delete Z
                           (example_widget false (Some (-7)%Z))
                           (example_state [example_pose 0] 0)
                           [example_pose 0] (-7) eq_refl)));
      [reflexivity | reflexivity | cbn; lia].
Defined.

Lemma buttons_before_load_witness :
  handle_grasp_s_delete_button (example_widget true None)
                               (mkState None (-1)%Z [] [] None)
  = (Raise AttributeError, mkState (num:=Z) None (-1)%Z [] [] None)
  /\ handle_grasp_s_select_button (example_widget false (Some 0%Z))
                                  (mkState None (-1)%Z [] [] None)
     = (Raise AttributeError, mkState (num:=Z) None (-1)%Z [] [] None).
Proof.
  split.
  - apply (proj1 (@buttons_before_load Z (example_widget true None)
                    (mkState None (-1)%Z [] [] None) 0 eq_refl)).
    reflexivity.
  - apply (proj1 (proj2 (@buttons_before_load Z
                           (example_widget false (Some 0%Z))
                           (mkState None (-1)%Z [] [] None) 0 eq_refl)
                    eq_refl eq_refl)).
Defined.

End SelectDeleteProps.

Module PatternMoreProps.

Import Editor Pattern PatternSpec SessionSpec EditorProps PatternProps.
Local Open Scope R_scope.

Local Abbreviation quaternion := (Quaternion R).
Local Abbreviation pose := (Pose R).

Lemma qnorm2_multiply (a b : quaternion) :
  qnorm2 (quaternion_multiply a b) = qnorm2 a * qnorm2 b.
Proof.
  destruct a, b. unfold quaternion_multiply, qnorm2. cbn [q_x q_y q_z q_w]. ring.
Qed.

Lemma qnorm2_from_euler (ai aj ak : R) :
  qnorm2 (quaternion_from_euler ai aj ak) = 1.
Proof.
  unfold quaternion_from_euler, qnorm2. cbv zeta. cbn [q_x q_y q_z q_w].
  pose proof (sin2_cos2 (ai / 2)) as Hi.
  pose proof (sin2_cos2 (aj / 2)) as Hj.
  pose proof (sin2_cos2 (ak / 2)) as Hk.
  unfold Rsqr in Hi, Hj, Hk.
  set (ci := cos (ai / 2)) in *. set (si := sin (ai / 2)) in *.
  set (cj := cos (aj / 2)) in *. set (sj := sin (aj / 2)) in *.
  set (ck := cos (ak / 2)) in *. set (sk := sin (ak / 2)) in *.
  replace 1 with ((si * si + ci * ci) * (sj * sj + cj * cj) * (sk * sk + ck * ck))
    by (rewrite Hi, Hj, Hk; ring).
  ring.
Qed.

Lemma quaternion_from_euler_zero : quaternion_from_euler 0 0 0 = qone.
Proof.
  unfold quaternion_from_euler, qone. cbv zeta.
  rewrite half_zero, cos_0, sin_0.
  apply quat_eq; cbn [q_x q_y q_z q_w]; ring.
Qed.

Lemma rotate_quaternion_norm (q : quaternion) (roll pitch yaw : R) :
  qnorm2 (rotate_quaternion q roll pitch yaw) = qnorm2 q.
Proof.
  unfold rotate_quaternion. cbv zeta.
  rewrite qnorm2_multiply, qnorm2_from_euler. ring.
Qed.

(** X18: [rotate_quaternion] keeps the norm of the quaternion it is given
    (so a unit orientation stays a unit orientation whatever the angles),
    and with the default angles, all zero, it returns the quaternion
    itself. *)
Theorem rotate_quaternion_keeps_norm (q : quaternion) (roll pitch yaw : R) :
  qnorm2 (rotate_quaternion q roll pitch yaw) = qnorm2 q
  /\ rotate_quaternion q 0 0 0 = q.
Proof.
  split; [apply rotate_quaternion_norm |].
  unfold rotate_quaternion. cbv zeta.
  rewrite quaternion_from_euler_zero. apply quaternion_multiply_one_l.
Qed.

Lemma rotated_unit (g : pose) (roll pitch yaw : R) :
  unit_pose g -> unit_pose (rotated g roll pitch yaw).
Proof.
  unfold unit_pose, rotated. cbn [orientation]. intros H.
  rewrite rotate_quaternion_norm. exact H.
Qed.

(** *** The mirror loop *)

Lemma remove_run (g : pose) (st : State R) (l l' : list pose) :
  grasps_as_pose_array st = Some l ->
  list_remove l g = Ok l' ->
  mbind (get_poses (num:=R))
        (fun l0 => mbind (lift (list_remove l0 g)) (fun l1 => set_poses l1)) st
  = (Ok tt,
     mkState (Some l') (selected_pose st) (published st) (reported st)
             (lblGraspSGrasps st)).
Proof.
  intros Hl Hr. destruct st as [gs s pub rep lb]. cbn in Hl. subst gs.
  unfold mbind, get_poses, lift, set_poses.
  cbn [grasps_as_pose_array selected_pose published reported lblGraspSGrasps].
  rewrite Hr. reflexivity.
Qed.

Lemma mirror_loop_run (replace : bool) (roll pitch yaw : R)
    (static keep acc : list pose) (st : State R) :
  grasps_as_pose_array st = Some ((if replace then static else keep) ++ acc) ->
  mirror_loop replace roll pitch yaw static st
  = (Ok tt,
     mkState (Some ((if replace then [] else keep) ++ acc
                    ++ map (fun g => rotated g roll pitch yaw) static))
             (selected_pose st) (published st) (reported st)
             (lblGraspSGrasps st)).
Proof.
  revert acc st. induction static as [| g static IH]; intros acc st Hl.
  - cbn [mirror_loop map]. rewrite app_nil_r.
    destruct st as [gs s pub rep lb]. cbn in Hl. subst gs.
    destruct replace; reflexivity.
  - cbn [mirror_loop map].
    destruct replace.
    + erewrite mbind_ok; [| apply (@remove_run g st _ (static ++ acc) Hl);
                            apply list_remove_head].
      erewrite mbind_ok; [| apply append_pose_run; reflexivity].
      rewrite (IH (acc ++ [rotated g roll pitch yaw])).
      * cbn [grasps_as_pose_array selected_pose published reported
               lblGraspSGrasps app].
        rewrite <- app_assoc. reflexivity.
      * cbn [grasps_as_pose_array]. rewrite app_assoc. reflexivity.
    + erewrite mbind_ok; [| unfold ret; reflexivity].
      erewrite mbind_ok; [| apply append_pose_run; exact Hl].
      rewrite (IH (acc ++ [rotated g roll pitch yaw])).
      * cbn [grasps_as_pose_array selected_pose published reported
               lblGraspSGrasps app].
        rewrite <- (app_assoc acc). reflexivity.
      * cbn [grasps_as_pose_array]. rewrite <- app_assoc. reflexivity.
Qed.

(** X19: the mirror pattern with "all" selected.  Every pose of the list
    gets a mirror image, in the order of the list; in copy mode the images
    follow the poses, in replace mode only the images remain (also when
    the list holds equal poses).  The selection stays "all", the new list
    is published once and the label shows its length. *)
Theorem mirror_all (w : Widget R) (st : State R) (l : list pose) :
  optEditGPatternMirror w = true ->
  optEditGPatternCircular w = false ->
  chkGraspSAllGrasps w = true ->
  grasps_as_pose_array st = Some l ->
  selected_pose st = select_all ->
  let l' := (if optEditGHandlingCopyR w then [] else l) ++ map (mirrored w) l in
  handle_edit_g_apply_button w st
  = (Ok tt,
     mkState (Some l') select_all (published st ++ [(select_all, Some l')])
             (reported st) (Some (List.length l'))).
Proof.
  intros Hm Hc Hall Hl Hs. cbv zeta.
  unfold handle_edit_g_apply_button. rewrite Hm, Hc.
  erewrite mbind_ok; [| unfold get_selected; reflexivity].
  erewrite mbind_ok; [| unfold get_poses; rewrite Hl; reflexivity].
  rewrite Hs. change (select_all =? select_all)%Z with true. cbv iota.
  erewrite mbind_ok; [| unfold ret; reflexivity].
  erewrite mbind_ok.
  2:{ erewrite mbind_ok.
      2:{ erewrite mbind_ok; [| apply update_selected_pose_all; exact Hall].
          cbv iota.
          apply (@mirror_loop_run (optEditGHandlingCopyR w) _ _ _ l l []).
          cbn [grasps_as_pose_array]. rewrite app_nil_r, Hl.
          destruct (optEditGHandlingCopyR w); reflexivity. }
      unfold publish_grasps.
      cbn [grasps_as_pose_array selected_pose published reported lblGraspSGrasps].
      reflexivity. }
  unfold update_grasp_number, mbind, get_poses.
  cbn [grasps_as_pose_array selected_pose published reported lblGraspSGrasps app].
  reflexivity.
Qed.

Lemma index_in {A} (l : list A) (i : Z) (a : A) : Py.index l i = Ok a -> In a l.
Proof.
  unfold Py.index. intros H.
  destruct (_ || _)%bool; [discriminate |].
  destruct (nth_error l _) eqn:E; [| discriminate].
  injection H as <-. eapply nth_error_In. exact E.
Qed.

Lemma list_remove_in (l : list pose) (g : pose) :
  In g l ->
  exists before after,
    l = before ++ g :: after /\ ~ In g before /\
    list_remove l g = Ok (before ++ after).
Proof.
  induction l as [| y l IH]; intros Hin; [contradiction |].
  cbn [list_remove].
  destruct (pose_eq_dec y g) as [-> | Hne].
  - exists [], l. repeat split. intros [].
  - destruct Hin as [E | Hin]; [contradiction |].
    destruct (IH Hin) as (before & after & -> & Hb & ->).
    exists (y :: before), after. cbn [bind app]. repeat split.
    intros [E | H]; [contradiction | exact (Hb H)].
Qed.

(** X20: the pattern is applied to the pose selected before the button
    was pressed, not to the number in the box.  With the selection [s] of
    the session (an index, or -1 for "nothing selected", which Python
    reads as the last pose) and a number [i] below the length in the box,
    the mirror pattern derives the image of [poses[s]]; in copy mode it is
    appended, in replace mode the first pose equal to [poses[s]] is taken
    out first.  Only afterwards is [i] the selection. *)
Theorem mirror_uses_previous_selection (w : Widget R) (st : State R)
    (l : list pose) (i : Z) (g : pose) :
  optEditGPatternMirror w = true ->
  optEditGPatternCircular w = false ->
  chkGraspSAllGrasps w = false ->
  txtGraspSGraspNumbers w = Some i ->
  (i < Z.of_nat (List.length l))%Z ->
  grasps_as_pose_array st = Some l ->
  selected_pose st <> select_all ->
  Py.index l (selected_pose st) = Ok g ->
  exists before after,
    l = before ++ g :: after /\ ~ In g before /\
    let l' := (if optEditGHandlingCopyR w then before ++ after else l)
              ++ [mirrored w g] in
    handle_edit_g_apply_button w st
    = (Ok tt,
       mkState (Some l') i (published st ++ [(i, Some l')]) (reported st)
               (Some (List.length l'))).
Proof.
  intros Hm Hc Hall Htxt Hi Hl Hs Hg.
  destruct (@list_remove_in l g (@index_in _ l _ g Hg)) as (before & after & El & Hb & Hr).
  exists before, after. split; [exact El |]. split; [exact Hb |]. cbv zeta.
  unfold handle_edit_g_apply_button. rewrite Hm, Hc.
  erewrite mbind_ok; [| unfold get_selected; reflexivity].
  erewrite mbind_ok; [| unfold get_poses; rewrite Hl; reflexivity].
  apply Z.eqb_neq in Hs. rewrite Hs.
  erewrite mbind_ok; [| unfold mbind, lift, ret; rewrite Hg; reflexivity].
  destruct (optEditGHandlingCopyR w).
  - erewrite mbind_ok.
    2:{ erewrite mbind_ok.
        2:{ erewrite mbind_ok;
              [| apply (proj2 (update_selected_pose_number w st Hall Htxt Hl));
                 exact Hi].
            cbv iota. cbn [mirror_loop].
            erewrite mbind_ok; [| apply (@remove_run g _ l (before ++ after));
                                  [reflexivity | exact Hr]].
            erewrite mbind_ok; [| apply append_pose_run; reflexivity].
            unfold ret. reflexivity. }
        unfold publish_grasps.
        cbn [grasps_as_pose_array selected_pose published reported
             lblGraspSGrasps].
        reflexivity. }
    unfold update_grasp_number, mbind, get_poses.
    cbn [grasps_as_pose_array selected_pose published reported lblGraspSGrasps].
    reflexivity.
  - erewrite mbind_ok.
    2:{ erewrite mbind_ok.
        2:{ erewrite mbind_ok;
              [| apply (proj2 (update_selected_pose_number w st Hall Htxt Hl));
                 exact Hi].
            cbv iota. cbn [mirror_loop].
            erewrite mbind_ok; [| unfold ret; reflexivity].
            erewrite mbind_ok; [| apply append_pose_run; reflexivity].
            unfold ret. reflexivity. }
        unfold publish_grasps.
        cbn [grasps_as_pose_array selected_pose published reported
             lblGraspSGrasps].
        reflexivity. }
    unfold update_grasp_number, mbind, get_poses.
    cbn [grasps_as_pose_array selected_pose published reported lblGraspSGrasps].
    reflexivity.
Qed.

(** X21: a negative repeat count.  The circular pattern reports it in the
    error dialog and returns at once: no pose is added, the selection is
    not touched (the number box is not even read), nothing is published
    and the label is not refreshed. *)
Theorem circular_negative_count (w : Widget R) (st : State R) (l static : list pose)
    (step : R) (count : Z) :
  optEditGPatternMirror w = false ->
  optEditGPatternCircular w = true ->
  txtEditGAngStep w = Some step ->
  txtEditGNumberOfGrasps w = Some count ->
  (count < 0)%Z ->
  grasps_as_pose_array st = Some l ->
  static_grasps_of (selected_pose st) l = Ok static ->
  handle_edit_g_apply_button w st
  = (Ok tt,
     mkState (Some l) (selected_pose st) (published st)
             (reported st ++ [negative_count_msg]) (lblGraspSGrasps st)).
Proof.
  intros Hm Hc Hstep Hcount Hneg Hl Hstatic.
  unfold handle_edit_g_apply_button. rewrite Hm, Hc, Hstep, Hcount.
  apply Z.ltb_lt in Hneg. rewrite Hneg.
  erewrite mbind_ok; [| unfold get_selected; reflexivity].
  erewrite mbind_ok; [| unfold get_poses; rewrite Hl; reflexivity].
  erewrite mbind_ok with (a := static).
  2:{ unfold static_grasps_of in Hstatic.
      destruct (selected_pose st =? select_all)%Z;
        [injection Hstatic as <-; reflexivity |].
      unfold mbind, lift, ret.
      destruct (Py.index l (selected_pose st)); cbn [bind] in Hstatic;
        [injection Hstatic as <-; reflexivity | discriminate]. }
  erewrite mbind_ok; [| unfold ret; reflexivity].
  unfold log_error. rewrite Hl. reflexivity.
Qed.

Lemma mirror_all_witness :
  let w := mirror_widget true None false in
  let l := [upright 0; upright 1] in
  handle_edit_g_apply_button w (session l select_all)
  = (Ok tt,
     mkState (Some (l ++ map (mirrored w) l)) select_all
             [(select_all, Some (l ++ map (mirrored w) l))] []
             (Some (List.length (l ++ map (mirrored w) l)))).
Proof.
  cbv zeta.
  apply (@mirror_all (mirror_widget true None false)
           (session [upright 0; upright 1] select_all)
           [upright 0; upright 1]); reflexivity.
Defined.

Lemma mirror_uses_previous_selection_witness :
  let w := mirror_widget false (Some 0%Z) false in
  let l := [upright 0; upright 1; upright 2] in
  exists before after,
    l = before ++ upright 2 :: after /\ ~ In (upright 2) before /\
    handle_edit_g_apply_button w (session l select_none)
    = (Ok tt,
       mkState (Some (l ++ [mirrored w (upright 2)])) 0%Z
               [(0%Z, Some (l ++ [mirrored w (upright 2)]))] []
               (Some (List.length (l ++ [mirrored w (upright 2)])))).
Proof.
  cbv zeta.
  apply (@mirror_uses_previous_selection
           (mirror_widget false (Some 0%Z) false)
           (session [upright 0; upright 1; upright 2] select_none)
           [upright 0; upright 1; upright 2] 0 (upright 2));
    try reflexivity.
  cbv. discriminate.
Defined.

Lemma circular_negative_count_witness :
  handle_edit_g_apply_button (circular_widget true false false 1 (-3))
                             (editing [upright 0; upright 1])
  = (Ok tt,
     mkState (Some [upright 0; upright 1]) 0%Z [] [negative_count_msg] None).
Proof.
  apply (@circular_negative_count (circular_widget true false false 1 (-3))
           (editing [upright 0; upright 1]) [upright 0; upright 1]
           [upright 0] 1 (-3)); try reflexivity.
Defined.

End PatternMoreProps.

Module TransformProps.

Import Editor Pattern PatternSpec SessionSpec Transform TransformSpec.
Import EditorProps PatternProps PatternMoreProps.
Local Open Scope R_scope.

Local Abbreviation quaternion := (Quaternion R).
Local Abbreviation pose := (Pose R).

(** *** Unit conversion *)

Lemma degrees_radians (x : R) : radians (degrees x) = x /\ degrees (radians x) = x.
Proof.
  unfold radians, degrees. split; field; apply PI_neq0.
Qed.

Lemma index_short {A} (l : list A) (i : nat) :
  (List.length l <= i)%nat -> Py.index l (Z.of_nat i) = Raise IndexError.
Proof.
  intros H. unfold Py.index.
  destruct (Z.of_nat i <? 0)%Z eqn:E; [apply Z.ltb_lt in E; lia |].
  rewrite E. cbn [orb].
  destruct (Z.of_nat (List.length l) <=? Z.of_nat i)%Z eqn:E2;
    [reflexivity | apply Z.leb_gt in E2; lia].
Qed.

Lemma convert_three (f : R -> R) (a b c : R) (rest : list R) :
  convert_loop f (a :: b :: c :: rest) [0; 1; 2]%Z [] = Ok [f a; f b; f c].
Proof.
  cbn [convert_loop].
  change 0%Z with (Z.of_nat 0). change 1%Z with (Z.of_nat 1).
  change 2%Z with (Z.of_nat 2).
  rewrite (@PlaneObjectsProps.index_nth _ (a :: b :: c :: rest) 0 a eq_refl).
  cbn [bind].
  rewrite (@PlaneObjectsProps.index_nth _ (a :: b :: c :: rest) 1 b eq_refl).
  cbn [bind].
  rewrite (@PlaneObjectsProps.index_nth _ (a :: b :: c :: rest) 2 c eq_refl).
  reflexivity.
Qed.

Lemma convert_short (f : R -> R) (l : list R) :
  (List.length l < 3)%nat -> convert_loop f l [0; 1; 2]%Z [] = Raise IndexError.
Proof.
  intros H. destruct l as [| a [| b [| c rest]]]; [reflexivity .. |].
  cbn in H. lia.
Qed.

(** X22: the two unit conversions.  Each reads the items 0, 1 and 2 of its
    list: a list of fewer than three items raises IndexError, any further
    items are dropped; on exact numbers, converting to degrees and back to
    radians (or the other way round) gives the first three items again. *)
Theorem convert_rpy_round_trip (rpy : list R) :
  ((List.length rpy < 3)%nat ->
   convert_rpy_rad_to_deg rpy = Raise IndexError
   /\ convert_rpy_deg_to_rad rpy = Raise IndexError)
  /\ ((3 <= List.length rpy)%nat ->
      exists in_deg in_rad,
        convert_rpy_rad_to_deg rpy = Ok in_deg /\
        convert_rpy_deg_to_rad in_deg = Ok (firstn 3 rpy) /\
        convert_rpy_deg_to_rad rpy = Ok in_rad /\
        convert_rpy_rad_to_deg in_rad = Ok (firstn 3 rpy) /\
        List.length in_deg = 3%nat /\ List.length in_rad = 3%nat).
Proof.
  split; intros H.
  - split; apply convert_short; exact H.
  - destruct rpy as [| a [| b [| c rest]]]; cbn in H; try lia.
    exists [degrees a; degrees b; degrees c], [radians a; radians b; radians c].
    unfold convert_rpy_rad_to_deg, convert_rpy_deg_to_rad.
    rewrite !convert_three. cbn [firstn].
    rewrite !(proj1 (degrees_radians _)), !(proj2 (degrees_radians _)).
    repeat split; reflexivity.
Qed.

(** *** Reading the boxes *)

Lemma read_transform_parsed (w : TransformWidget)
    (lx ly lz r p y qx qy qz qw : R) :
  boxes w = map Some [lx; ly; lz; r; p; y; qx; qy; qz; qw] ->
  read_transform w true
  = Ok ([lx; ly; lz], [angle_of w r; angle_of w p; angle_of w y],
        let q := quaternion_from_euler (angle_of w r) (angle_of w p)
                                       (angle_of w y) in
        [q_x q; q_y q; q_z q; q_w q]).
Proof.
  intros H. unfold boxes in H. cbn [map] in H.
  injection H as H1 H2 H3 H4 H5 H6 H7 H8 H9 H10.
  unfold read_transform, angle_of.
  rewrite H1, H2, H3, H4, H5, H6, H7, H8, H9, H10. cbn [float bind].
  destruct (optTransformUnitsDeg w).
  - unfold convert_rpy_deg_to_rad. rewrite convert_three. reflexivity.
  - reflexivity.
Qed.

Lemma read_transform_unparsable (w : TransformWidget) (apply_rpy_to_q : bool) :
  In None (boxes w) -> read_transform w apply_rpy_to_q = Raise float_error.
Proof.
  unfold boxes, read_transform. intros H.
  destruct (txtTransformLinearX w); [| reflexivity].
  destruct (txtTransformLinearY w); [| reflexivity].
  destruct (txtTransformLinearZ w); [| reflexivity].
  destruct (txtTransformAngularR w); [| reflexivity].
  destruct (txtTransformAngularP w); [| reflexivity].
  destruct (txtTransformAngularY w); [| reflexivity].
  destruct (txtTransformAngularQx w); [| reflexivity].
  destruct (txtTransformAngularQy w); [| reflexivity].
  destruct (txtTransformAngularQz w); [| reflexivity].
  destruct (txtTransformAngularQw w); [| reflexivity].
  exfalso. cbn [In] in H.
  repeat (destruct H as [H | H]; [discriminate |]). exact H.
Qed.

Lemma boxes_parsed (w : TransformWidget) :
  ~ In None (boxes w) ->
  exists lx ly lz r p y qx qy qz qw,
    boxes w = map Some [lx; ly; lz; r; p; y; qx; qy; qz; qw].
Proof.
  unfold boxes. intros H.
  destruct (txtTransformLinearX w) as [lx |]; [| exfalso; apply H; cbn; tauto].
  destruct (txtTransformLinearY w) as [ly |]; [| exfalso; apply H; cbn; tauto].
  destruct (txtTransformLinearZ w) as [lz |]; [| exfalso; apply H; cbn; tauto].
  destruct (txtTransformAngularR w) as [r |]; [| exfalso; apply H; cbn; tauto].
  destruct (txtTransformAngularP w) as [p |]; [| exfalso; apply H; cbn; tauto].
  destruct (txtTransformAngularY w) as [y |]; [| exfalso; apply H; cbn; tauto].
  destruct (txtTransformAngularQx w) as [qx |]; [| exfalso; apply H; cbn; tauto].
  destruct (txtTransformAngularQy w) as [qy |]; [| exfalso; apply H; cbn; tauto].
  destruct (txtTransformAngularQz w) as [qz |]; [| exfalso; apply H; cbn; tauto].
  destruct (txtTransformAngularQw w) as [qw |]; [| exfalso; apply H; cbn; tauto].
  exists lx, ly, lz, r, p, y, qx, qy, qz, qw. reflexivity.
Qed.

Lemma typed_pose_built (w : TransformWidget) (lx ly lz r p y : R) :
  list_to_pose_msg [lx; ly; lz]
    (let q := quaternion_from_euler (angle_of w r) (angle_of w p) (angle_of w y) in
     [q_x q; q_y q; q_z q; q_w q])
  = Ok (typed_pose w lx ly lz r p y).
Proof. reflexivity. Qed.

Lemma typed_pose_unit (w : TransformWidget) (lx ly lz r p y : R) :
  unit_pose (typed_pose w lx ly lz r p y).
Proof. unfold unit_pose, typed_pose. cbn [orientation]. apply qnorm2_from_euler. Qed.

Lemma setitem_nat {A} (l : list A) (i : nat) (x : A) :
  (i < List.length l)%nat ->
  setitem l (Z.of_nat i) x = Ok (firstn i l ++ x :: skipn (S i) l).
Proof.
  intros H. unfold setitem.
  destruct (Z.of_nat i <? 0)%Z eqn:E; [apply Z.ltb_lt in E; lia |].
  rewrite E. cbn [orb].
  destruct (Z.of_nat (List.length l) <=? Z.of_nat i)%Z eqn:E2;
    [apply Z.leb_le in E2; lia |].
  rewrite Nat2Z.id. reflexivity.
Qed.

Lemma setitem_outside {A} (l : list A) (i : Z) (x : A) :
  (Z.of_nat (List.length l) <= i \/ i < - Z.of_nat (List.length l))%Z ->
  setitem l i x = Raise IndexError.
Proof.
  intros H. unfold setitem.
  destruct (i <? 0)%Z eqn:E.
  - apply Z.ltb_lt in E.
    destruct (i + Z.of_nat (List.length l) <? 0)%Z eqn:E2;
      [reflexivity | apply Z.ltb_ge in E2; lia].
  - rewrite E. cbn [orb]. apply Z.ltb_ge in E.
    destruct (Z.of_nat (List.length l) <=? i)%Z eqn:E2;
      [reflexivity | apply Z.leb_gt in E2; lia].
Qed.

Lemma rotate_each_run (a b c : R) (l : list pose) :
  rotate_each [a; b; c] l = Ok (map (fun g => rotated g a b c) l).
Proof.
  induction l as [| g l IH]; [reflexivity |].
  cbn [rotate_each rotate_quaternion_star bind map]. rewrite IH. reflexivity.
Qed.

(** *** The apply button *)

(** X23: the apply button with one pose selected.  With every box filled
    in and the selection an index [i] of the list, the pose at [i] is
    replaced by the pose of the linear boxes and of the roll, pitch and
    yaw boxes; the quaternion boxes must hold numbers but their values are
    not used.  Every other pose keeps its place, the new orientation is a
    unit quaternion, the selection stays and the list is published. *)
Theorem transform_apply_selected (w : TransformWidget) (st : State R)
    (l : list pose) (i : nat) (lx ly lz r p y qx qy qz qw : R) :
  boxes w = map Some [lx; ly; lz; r; p; y; qx; qy; qz; qw] ->
  grasps_as_pose_array st = Some l ->
  selected_pose st = Z.of_nat i ->
  (i < List.length l)%nat ->
  let l' := firstn i l ++ typed_pose w lx ly lz r p y :: skipn (S i) l in
  handle_transform_apply_button w st
  = (Ok tt,
     mkState (Some l') (Z.of_nat i) (published st ++ [(Z.of_nat i, Some l')])
             (reported st) (lblGraspSGrasps st))
  /\ List.length l' = List.length l
  /\ nth_error l' i = Some (typed_pose w lx ly lz r p y)
  /\ (forall k, k <> i -> nth_error l' k = nth_error l k)
  /\ unit_pose (typed_pose w lx ly lz r p y).
Proof.
  intros Hb Hl Hs Hi. cbv zeta.
  assert (Hf : List.length (firstn i l) = i) by (rewrite length_firstn; lia).
  split; [| split; [| split; [| split]]].
  - unfold handle_transform_apply_button.
    erewrite mbind_ok; [| unfold lift; rewrite (@read_transform_parsed w lx ly lz r p y qx qy qz qw Hb); reflexivity].
    cbv beta iota.
    erewrite mbind_ok; [| unfold get_selected; reflexivity].
    rewrite Hs.
    assert (E1 : (Z.of_nat i =? select_all)%Z = false)
      by (apply Z.eqb_neq; unfold select_all; lia).
    assert (E2 : (Z.of_nat i =? select_none)%Z = false)
      by (apply Z.eqb_neq; unfold select_none; lia).
    rewrite E1, E2. cbn [orb].
    erewrite mbind_ok; [| unfold lift; rewrite typed_pose_built; reflexivity].
    erewrite mbind_ok; [| unfold get_poses; rewrite Hl; reflexivity].
    erewrite mbind_ok; [| unfold lift; rewrite (@setitem_nat _ l i _ Hi); reflexivity].
    unfold mbind, set_poses, publish_grasps. rewrite Hl, Hs.
    cbn [grasps_as_pose_array selected_pose published reported lblGraspSGrasps].
    reflexivity.
  - rewrite length_app. cbn [List.length]. rewrite length_skipn, Hf. lia.
  - rewrite nth_error_app2 by lia. rewrite Hf, Nat.sub_diag. reflexivity.
  - intros k Hk. destruct (Nat.lt_ge_cases k i) as [Hlt | Hge].
    + rewrite nth_error_app1 by lia. rewrite nth_error_firstn.
      destruct (k <? i)%nat eqn:E; [reflexivity | apply Nat.ltb_ge in E; lia].
    + rewrite nth_error_app2 by lia. rewrite Hf.
      destruct (k - i)%nat as [| d] eqn:Ed; [lia |].
      cbn [nth_error]. rewrite nth_error_skipn. f_equal. lia.
  - apply typed_pose_unit.
Qed.

(** X24: the apply button with "all" or nothing selected.  Every pose of
    the list is turned by the roll, pitch and yaw of the boxes and keeps
    its position; the linear boxes and the quaternion boxes must hold
    numbers but their values are not used.  The selection stays and the
    list is published. *)
Theorem transform_apply_all (w : TransformWidget) (st : State R)
    (l : list pose) (lx ly lz r p y qx qy qz qw : R) :
  boxes w = map Some [lx; ly; lz; r; p; y; qx; qy; qz; qw] ->
  grasps_as_pose_array st = Some l ->
  selected_pose st = select_all \/ selected_pose st = select_none ->
  let l' := map (turned w r p y) l in
  handle_transform_apply_button w st
  = (Ok tt,
     mkState (Some l') (selected_pose st)
             (published st ++ [(selected_pose st, Some l')])
             (reported st) (lblGraspSGrasps st))
  /\ map (@position R) l' = map (@position R) l.
Proof.
  intros Hb Hl Hs. cbv zeta. split.
  - unfold handle_transform_apply_button.
    erewrite mbind_ok; [| unfold lift; rewrite (@read_transform_parsed w lx ly lz r p y qx qy qz qw Hb); reflexivity].
    cbv beta iota.
    erewrite mbind_ok; [| unfold get_selected; reflexivity].
    assert (E : ((selected_pose st =? select_all)
                 || (selected_pose st =? select_none))%Z%bool = true).
    { destruct Hs as [-> | ->]; reflexivity. }
    rewrite E.
    erewrite mbind_ok; [| unfold get_poses; rewrite Hl; reflexivity].
    erewrite mbind_ok; [| unfold lift; rewrite rotate_each_run; reflexivity].
    unfold mbind, set_poses, publish_grasps. rewrite Hl.
    cbn [grasps_as_pose_array selected_pose published reported lblGraspSGrasps].
    reflexivity.
  - rewrite map_map. apply map_ext. intros g. reflexivity.
Qed.

(** *** The create button *)

Lemma create_run (w : TransformWidget) (st : State R) (l : list pose)
    (lx ly lz r p y qx qy qz qw : R) :
  boxes w = map Some [lx; ly; lz; r; p; y; qx; qy; qz; qw] ->
  grasps_as_pose_array st = Some l ->
  let l' := l ++ [typed_pose w lx ly lz r p y] in
  handle_transform_create_grasp_button w st
  = (Ok tt,
     mkState (Some l') (Z.of_nat (List.length l))
             (published st ++ [(Z.of_nat (List.length l), Some l')])
             (reported st) (Some (S (List.length l)))).
Proof.
  intros Hb Hl. cbv zeta.
  unfold handle_transform_create_grasp_button.
  erewrite mbind_ok; [| unfold lift; rewrite (@read_transform_parsed w lx ly lz r p y qx qy qz qw Hb); reflexivity].
  cbv beta iota.
  erewrite mbind_ok; [| unfold lift; rewrite typed_pose_built; reflexivity].
  erewrite mbind_ok; [| apply append_pose_run; exact Hl].
  erewrite mbind_ok; [| apply select_last_run; reflexivity].
  unfold update_grasp_number. unfold mbind, publish_grasps, get_poses.
  cbn [grasps_as_pose_array selected_pose published reported lblGraspSGrasps].
  rewrite length_app. cbn [List.length].
  replace (Z.of_nat (List.length l + 1) - 1)%Z with (Z.of_nat (List.length l))
    by lia.
  replace (List.length l + 1)%nat with (S (List.length l)) by lia.
  reflexivity.
Qed.

(** X25: create, then delete.  The create button appends the pose of the
    boxes, selects it (its index is the old length), publishes the list
    and shows the new length.  Deleting the pose with that number
    afterwards gives the old list back, with nothing selected and the old
    length in the label. *)
Theorem create_then_delete (w : TransformWidget) (wd : Widget R) (st : State R)
    (l : list pose) (lx ly lz r p y qx qy qz qw : R) :
  boxes w = map Some [lx; ly; lz; r; p; y; qx; qy; qz; qw] ->
  grasps_as_pose_array st = Some l ->
  chkGraspSAllGrasps wd = false ->
  txtGraspSGraspNumbers wd = Some (Z.of_nat (List.length l)) ->
  let n := Z.of_nat (List.length l) in
  let l' := l ++ [typed_pose w lx ly lz r p y] in
  handle_transform_create_grasp_button w st
  = (Ok tt,
     mkState (Some l') n (published st ++ [(n, Some l')]) (reported st)
             (Some (S (List.length l))))
  /\ handle_grasp_s_delete_button wd
       (snd (handle_transform_create_grasp_button w st))
     = (Ok tt,
        mkState (Some l) select_none
                (published st ++ [(n, Some l'); (select_none, Some l)])
                (reported st) (Some (List.length l))).
Proof.
  intros Hb Hl Hall Htxt. cbv zeta.
  rewrite (@create_run w st l lx ly lz r p y qx qy qz qw Hb Hl). split; [reflexivity |]. cbn [snd].
  rewrite (@delete_selected R wd
             (mkState (Some (l ++ [typed_pose w lx ly lz r p y]))
                      (Z.of_nat (List.length l))
                      (published st
                       ++ [(Z.of_nat (List.length l),
                            Some (l ++ [typed_pose w lx ly lz r p y]))])
                      (reported st) (Some (S (List.length l))))
             (l ++ [typed_pose w lx ly lz r p y])
             (List.length l) Hall Htxt eq_refl)
    by (rewrite length_app; cbn [List.length]; lia).
  cbn [grasps_as_pose_array selected_pose published reported lblGraspSGrasps].
  assert (E : firstn (List.length l) (l ++ [typed_pose w lx ly lz r p y])
              ++ skipn (S (List.length l)) (l ++ [typed_pose w lx ly lz r p y])
              = l).
  { rewrite firstn_app, Nat.sub_diag, firstn_all. cbn [firstn].
    rewrite skipn_all2 by (rewrite length_app; cbn [List.length]; lia).
    rewrite !app_nil_r. reflexivity. }
  rewrite E, <- app_assoc. reflexivity.
Qed.

(** *** Errors of the two buttons *)

(** X26: when the two buttons fail.  A box that does not hold a number
    makes both raise the ValueError of [float()] before anything is read
    or changed.  With every box filled in, both raise AttributeError
    before a file was loaded, and the apply button raises IndexError when
    the selection is an index outside the list (as after loading a
    shorter file); in each case the session is left as it was. *)
Theorem transform_buttons_errors (w : TransformWidget) (st : State R) :
  (In None (boxes w) ->
   handle_transform_apply_button w st = (Raise float_error, st)
   /\ handle_transform_create_grasp_button w st = (Raise float_error, st))
  /\ (~ In None (boxes w) -> grasps_as_pose_array st = None ->
      handle_transform_apply_button w st = (Raise AttributeError, st)
      /\ handle_transform_create_grasp_button w st = (Raise AttributeError, st))
  /\ (~ In None (boxes w) ->
      forall l, grasps_as_pose_array st = Some l ->
      selected_pose st <> select_all -> selected_pose st <> select_none ->
      (Z.of_nat (List.length l) <= selected_pose st
       \/ selected_pose st < - Z.of_nat (List.length l))%Z ->
      handle_transform_apply_button w st = (Raise IndexError, st)).
Proof.
  split; [| split].
  - intros H.
    unfold handle_transform_apply_button, handle_transform_create_grasp_button.
    unfold mbind at 1 3. unfold lift at 1 3.
    rewrite (@read_transform_unparsable w true H). split; reflexivity.
  - intros H Hl.
    destruct (@boxes_parsed w H) as (lx & ly & lz & r & p & y & qx & qy & qz & qw & Hb).
    split.
    + unfold handle_transform_apply_button.
      erewrite mbind_ok; [| unfold lift; rewrite (@read_transform_parsed w lx ly lz r p y qx qy qz qw Hb); reflexivity].
      cbv beta iota.
      erewrite mbind_ok; [| unfold get_selected; reflexivity].
      destruct ((selected_pose st =? select_all) || (selected_pose st =? select_none))%Z%bool.
      * unfold mbind, get_poses. rewrite Hl. reflexivity.
      * erewrite mbind_ok; [| unfold lift; rewrite typed_pose_built; reflexivity].
        unfold mbind, get_poses. rewrite Hl. reflexivity.
    + unfold handle_transform_create_grasp_button.
      erewrite mbind_ok; [| unfold lift; rewrite (@read_transform_parsed w lx ly lz r p y qx qy qz qw Hb); reflexivity].
      cbv beta iota.
      erewrite mbind_ok; [| unfold lift; rewrite typed_pose_built; reflexivity].
      unfold append_pose, mbind, get_poses. rewrite Hl. reflexivity.
  - intros H l Hl Hs1 Hs2 Hout.
    destruct (@boxes_parsed w H) as (lx & ly & lz & r & p & y & qx & qy & qz & qw & Hb).
    unfold handle_transform_apply_button.
    erewrite mbind_ok; [| unfold lift; rewrite (@read_transform_parsed w lx ly lz r p y qx qy qz qw Hb); reflexivity].
    cbv beta iota.
    erewrite mbind_ok; [| unfold get_selected; reflexivity].
    apply Z.eqb_neq in Hs1. apply Z.eqb_neq in Hs2. rewrite Hs1, Hs2. cbn [orb].
    erewrite mbind_ok; [| unfold lift; rewrite typed_pose_built; reflexivity].
    erewrite mbind_ok; [| unfold get_poses; rewrite Hl; reflexivity].
    unfold mbind, lift. rewrite (@setitem_outside _ l (selected_pose st) _ Hout). reflexivity.
Qed.

(** *** Unit orientations are kept *)

Lemma keeps_ret {A} (a : A) (Q : A -> Prop) : Q a -> keeps (ret (num:=R) a) Q.
Proof.
  intros H st Hst. split; [exact Hst |]. intros b E. injection E as <-. exact H.
Qed.

Lemma keeps_raise {A} (e : exn) (Q : A -> Prop) : keeps (raise (num:=R) e) Q.
Proof. intros st Hst. split; [exact Hst |]. intros b E. discriminate. Qed.

Lemma keeps_bind {A B} (m : Editor.M R A) (k : A -> Editor.M R B)
    (Q : A -> Prop) (S : B -> Prop) :
  keeps m Q -> (forall a, Q a -> keeps (k a) S) -> keeps (mbind m k) S.
Proof.
  intros Hm Hk st Hst. destruct (Hm st Hst) as [H1 H2].
  unfold exec, outcome, mbind in *.
  destruct (m st) as [[a | e] st']; cbn [fst snd] in *.
  - apply (Hk a (H2 a eq_refl) st' H1).
  - split; [exact H1 |]. intros b E. discriminate.
Qed.

Lemma bind_any {A B} (m : Editor.M R A) (k : A -> Editor.M R B) (S : B -> Prop) :
  keeps m (fun _ => True) -> (forall a, keeps (k a) S) -> keeps (mbind m k) S.
Proof. intros Hm Hk. eapply keeps_bind; [exact Hm | intros a _; apply Hk]. Qed.

Lemma bind_lift {A B} (r : result A) (k : A -> Editor.M R B) (S : B -> Prop) :
  (forall a, r = Ok a -> keeps (k a) S) -> keeps (mbind (lift r) k) S.
Proof.
  intros Hk. apply keeps_bind with (Q := fun a => r = Ok a); [| exact Hk].
  intros st Hst. split; [exact Hst |]. intros a E. exact E.
Qed.

Lemma bind_poses {B} (k : list pose -> Editor.M R B) (S : B -> Prop) :
  (forall l, Forall unit_pose l -> keeps (k l) S) ->
  keeps (mbind (get_poses (num:=R)) k) S.
Proof.
  intros Hk. apply keeps_bind with (Q := Forall unit_pose); [| exact Hk].
  intros st Hst. unfold exec, outcome, get_poses.
  destruct (grasps_as_pose_array st) as [l |] eqn:E; cbn [fst snd].
  - split; [exact Hst |]. intros a Ea. injection Ea as <-. apply Hst, E.
  - split; [exact Hst |]. intros a Ea. discriminate.
Qed.

Lemma keeps_get_selected : keeps (get_selected (num:=R)) (fun _ => True).
Proof. intros st Hst. split; [exact Hst | intros; exact I]. Qed.

Lemma keeps_set_poses (l : list pose) :
  Forall unit_pose l -> keeps (set_poses l) (fun _ => True).
Proof.
  intros Hl st Hst. unfold exec, outcome, set_poses.
  destruct (grasps_as_pose_array st); cbn [fst snd].
  - split; [| intros; exact I]. intros l' E. cbn in E. injection E as <-. exact Hl.
  - split; [exact Hst | intros; exact I].
Qed.

Lemma keeps_set_selected (i : Z) : keeps (set_selected (num:=R) i) (fun _ => True).
Proof. intros st Hst. split; [exact Hst | intros; exact I]. Qed.

Lemma keeps_log_error (msg : string) : keeps (log_error (num:=R) msg) (fun _ => True).
Proof. intros st Hst. split; [exact Hst | intros; exact I]. Qed.

Lemma keeps_publish_grasps : keeps (publish_grasps (num:=R)) (fun _ => True).
Proof. intros st Hst. split; [exact Hst | intros; exact I]. Qed.

Lemma keeps_update_grasp_number :
  keeps (update_grasp_number (num:=R)) (fun _ => True).
Proof.
  unfold update_grasp_number. apply bind_poses. intros l _ st Hst.
  split; [exact Hst | intros; exact I].
Qed.

Lemma keeps_update_selected_pose (w : Widget R) :
  keeps (update_selected_pose w) (fun _ => True).
Proof.
  unfold update_selected_pose. destruct (chkGraspSAllGrasps w).
  - apply bind_any; [apply keeps_set_selected | intros _; apply keeps_ret; exact I].
  - destruct (txtGraspSGraspNumbers w) as [n |]; [| apply keeps_raise].
    apply bind_poses. intros l _.
    destruct (n >=? Z.of_nat (List.length l))%Z.
    + apply bind_any; [apply keeps_log_error | intros _; apply keeps_ret; exact I].
    + apply bind_any; [apply keeps_set_selected | intros _; apply keeps_ret; exact I].
Qed.

Lemma keeps_append_pose (p : pose) :
  unit_pose p -> keeps (append_pose p) (fun _ => True).
Proof.
  intros Hp. unfold append_pose. apply bind_poses. intros l Hl.
  apply keeps_set_poses. apply Forall_app. split; [exact Hl |].
  constructor; [exact Hp | constructor].
Qed.

Lemma index_unit (l : list pose) (i : Z) (g : pose) :
  Forall unit_pose l -> Py.index l i = Ok g -> unit_pose g.
Proof.
  intros Hl Hg. rewrite Forall_forall in Hl. apply Hl.
  exact (@PatternMoreProps.index_in _ l i g Hg).
Qed.

Lemma Forall_first {A} (P : A -> Prop) (l : list A) (n : nat) :
  Forall P l -> Forall P (firstn n l).
Proof.
  intros H. rewrite <- (firstn_skipn n l) in H. apply Forall_app in H. apply H.
Qed.

Lemma Forall_skip {A} (P : A -> Prop) (l : list A) (n : nat) :
  Forall P l -> Forall P (skipn n l).
Proof.
  intros H. rewrite <- (firstn_skipn n l) in H. apply Forall_app in H. apply H.
Qed.

Lemma del_unit (l l' : list pose) (i : Z) :
  Forall unit_pose l -> Py.del l i = Ok l' -> Forall unit_pose l'.
Proof.
  intros Hl H. unfold Py.del in H.
  destruct (_ || _)%bool; [discriminate |]. injection H as <-.
  apply Forall_app. split; [apply Forall_first; exact Hl |].
  exact (@Forall_skip _ unit_pose l
           (S (Z.to_nat (if (i <? 0)%Z then (i + Z.of_nat (List.length l))%Z else i))) Hl).
Qed.

Lemma setitem_unit (l l' : list pose) (i : Z) (p : pose) :
  Forall unit_pose l -> unit_pose p -> setitem l i p = Ok l' ->
  Forall unit_pose l'.
Proof.
  intros Hl Hp H. unfold setitem in H.
  destruct (_ || _)%bool; [discriminate |]. injection H as <-.
  apply Forall_app. split; [apply Forall_first; exact Hl |].
  constructor; [exact Hp |].
  exact (@Forall_skip _ unit_pose l
           (S (Z.to_nat (if (i <? 0)%Z then (i + Z.of_nat (List.length l))%Z else i))) Hl).
Qed.

Lemma list_remove_unit (l l' : list pose) (g : pose) :
  Forall unit_pose l -> list_remove l g = Ok l' -> Forall unit_pose l'.
Proof.
  revert l'. induction l as [| y l IH]; intros l' Hl H; [discriminate |].
  cbn [list_remove] in H. inversion Hl as [| ? ? Hy Hl']; subst.
  destruct (pose_eq_dec y g).
  - injection H as <-. exact Hl'.
  - destruct (list_remove l g) as [l'' |]; cbn [bind] in H; [| discriminate].
    injection H as <-. constructor; [exact Hy | apply IH; [exact Hl' | reflexivity]].
Qed.

Lemma rotate_each_unit (angular_rpy : list R) (l l' : list pose) :
  Forall unit_pose l -> rotate_each angular_rpy l = Ok l' -> Forall unit_pose l'.
Proof.
  revert l'. induction l as [| g l IH]; intros l' Hl H.
  - injection H as <-. constructor.
  - cbn [rotate_each] in H. inversion Hl as [| ? ? Hg Hl']; subst.
    destruct (rotate_quaternion_star (orientation g) angular_rpy) as [q |] eqn:Eq;
      cbn [bind] in H; [| discriminate].
    destruct (rotate_each angular_rpy l) as [rest |]; cbn [bind] in H;
      [| discriminate].
    injection H as <-. constructor; [| apply IH; [exact Hl' | reflexivity]].
    unfold unit_pose. cbn [orientation].
    unfold rotate_quaternion_star in Eq.
    destruct angular_rpy as [| a [| b [| c [| d rest']]]]; try discriminate;
      injection Eq as <-;
      rewrite rotate_quaternion_norm; exact Hg.
Qed.

Lemma keeps_mirror_loop (replace : bool) (roll pitch yaw : R) (static : list pose) :
  Forall unit_pose static ->
  keeps (mirror_loop replace roll pitch yaw static) (fun _ => True).
Proof.
  induction 1 as [| g static Hg _ IH]; cbn [mirror_loop].
  - apply keeps_ret. exact I.
  - apply bind_any.
    + destruct replace; [| apply keeps_ret; exact I].
      apply bind_poses. intros l Hl. apply bind_lift. intros l' Hr.
      apply keeps_set_poses. eapply list_remove_unit; eassumption.
    + intros _. apply bind_any; [| intros _; exact IH].
      apply keeps_append_pose, rotated_unit, Hg.
Qed.

Lemma keeps_circular_chain (k : nat) (roll pitch yaw : R) (g : pose) :
  unit_pose g -> keeps (circular_chain k roll pitch yaw g) (fun _ => True).
Proof.
  revert g. induction k as [| k IH]; intros g Hg; cbn [circular_chain].
  - apply keeps_ret. exact I.
  - apply bind_any; [apply keeps_append_pose, rotated_unit, Hg | intros _].
    apply bind_any; [| intros _; apply IH, rotated_unit, Hg].
    apply bind_poses. intros l _. apply keeps_set_selected.
Qed.

Lemma keeps_circular_loop (k : nat) (roll pitch yaw : R) (static : list pose) :
  Forall unit_pose static ->
  keeps (circular_loop k roll pitch yaw static) (fun _ => True).
Proof.
  induction 1 as [| g static Hg _ IH]; cbn [circular_loop].
  - apply keeps_ret. exact I.
  - apply bind_any; [apply keeps_circular_chain, Hg | intros _; exact IH].
Qed.

Lemma keeps_select (w : Widget R) :
  keeps (handle_grasp_s_select_button w) (fun _ => True).
Proof.
  unfold handle_grasp_s_select_button.
  apply bind_any; [apply keeps_update_selected_pose | intros ok].
  destruct ok; [| apply keeps_ret; exact I].
  apply bind_any; [apply keeps_publish_grasps | intros _].
  destruct (chkTransformLoadSelected w); [| apply keeps_ret; exact I].
  apply bind_any; [apply keeps_get_selected | intros sel].
  destruct (negb (sel =? select_all)%Z && negb (sel =? select_none)%Z)%bool;
    [| apply keeps_ret; exact I].
  apply bind_poses. intros l _. apply bind_lift. intros g _.
  apply keeps_ret. exact I.
Qed.

Lemma keeps_delete (w : Widget R) :
  keeps (handle_grasp_s_delete_button w) (fun _ => True).
Proof.
  unfold handle_grasp_s_delete_button.
  apply bind_any; [| intros _; apply keeps_update_grasp_number].
  destruct (chkGraspSAllGrasps w).
  - apply bind_poses. intros l Hl.
    apply bind_any.
    + destruct (List.length l =? 1)%nat; [apply keeps_set_poses; constructor |].
      apply bind_lift. intros pose0 H0.
      apply bind_any; [apply keeps_set_poses; constructor | intros _].
      apply keeps_set_poses. constructor; [| constructor].
      eapply index_unit; eassumption.
    + intros _. apply bind_any; [apply keeps_set_selected | intros _].
      apply keeps_publish_grasps.
  - apply bind_any; [apply keeps_update_selected_pose | intros ok].
    destruct ok; [| apply keeps_ret; exact I].
    apply bind_poses. intros l Hl.
    apply bind_any; [apply keeps_get_selected | intros sel].
    apply bind_lift. intros l' Hd.
    apply bind_any; [apply keeps_set_poses; eapply del_unit; eassumption | intros _].
    apply bind_any; [apply keeps_set_selected | intros _].
    apply keeps_publish_grasps.
Qed.

Lemma keeps_pattern (w : Widget R) :
  keeps (handle_edit_g_apply_button w) (fun _ => True).
Proof.
  unfold handle_edit_g_apply_button.
  apply bind_any; [apply keeps_get_selected | intros sel].
  apply bind_poses. intros l Hl.
  apply keeps_bind with (Q := Forall unit_pose).
  - destruct (sel =? select_all)%Z; [apply keeps_ret; exact Hl |].
    apply bind_lift. intros g Hg. apply keeps_ret.
    constructor; [eapply index_unit; eassumption | constructor].
  - intros static Hs. apply bind_any.
    + destruct (optEditGPatternMirror w); [| apply keeps_ret; exact I].
      apply bind_any; [| intros _; apply keeps_publish_grasps].
      apply bind_any; [apply keeps_update_selected_pose | intros ok].
      destruct ok; [| apply keeps_ret; exact I].
      apply keeps_mirror_loop. exact Hs.
    + intros _.
      destruct (optEditGPatternCircular w); [| apply keeps_update_grasp_number].
      destruct (txtEditGAngStep w) as [step |]; [| apply keeps_raise].
      destruct (txtEditGNumberOfGrasps w) as [count |]; [| apply keeps_raise].
      destruct (count <? 0)%Z; [apply keeps_log_error |].
      apply bind_any; [| intros _; apply keeps_update_grasp_number].
      apply bind_any; [apply keeps_update_selected_pose | intros ok].
      destruct ok; [| apply keeps_ret; exact I].
      apply bind_any; [apply keeps_circular_loop; exact Hs | intros _].
      apply keeps_publish_grasps.
Qed.

Lemma read_transform_cases (w : TransformWidget) :
  In None (boxes w)
  \/ exists lx ly lz r p y qx qy qz qw,
       boxes w = map Some [lx; ly; lz; r; p; y; qx; qy; qz; qw].
Proof.
  unfold boxes.
  destruct (txtTransformLinearX w) as [lx |]; [| left; cbn; tauto].
  destruct (txtTransformLinearY w) as [ly |]; [| left; cbn; tauto].
  destruct (txtTransformLinearZ w) as [lz |]; [| left; cbn; tauto].
  destruct (txtTransformAngularR w) as [r |]; [| left; cbn; tauto].
  destruct (txtTransformAngularP w) as [p |]; [| left; cbn; tauto].
  destruct (txtTransformAngularY w) as [y |]; [| left; cbn; tauto].
  destruct (txtTransformAngularQx w) as [qx |]; [| left; cbn; tauto].
  destruct (txtTransformAngularQy w) as [qy |]; [| left; cbn; tauto].
  destruct (txtTransformAngularQz w) as [qz |]; [| left; cbn; tauto].
  destruct (txtTransformAngularQw w) as [qw |]; [| left; cbn; tauto].
  right. exists lx, ly, lz, r, p, y, qx, qy, qz, qw. reflexivity.
Qed.

Lemma read_transform_pose (w : TransformWidget) (linear angular_rpy angular_q : list R)
    (pose_msg : pose) :
  read_transform w true = Ok (linear, angular_rpy, angular_q) ->
  list_to_pose_msg linear angular_q = Ok pose_msg ->
  unit_pose pose_msg.
Proof.
  intros Hr Hp.
  destruct (read_transform_cases w)
    as [Hn | (lx & ly & lz & r & p & y & qx & qy & qz & qw & Hb)].
  - rewrite (@read_transform_unparsable w true Hn) in Hr. discriminate.
  - rewrite (@read_transform_parsed w lx ly lz r p y qx qy qz qw Hb) in Hr.
    injection Hr as <- <- <-.
    assert (E : Ok pose_msg = Ok (typed_pose w lx ly lz r p y))
      by (rewrite <- Hp; reflexivity).
    injection E as ->. apply typed_pose_unit.
Qed.

Lemma keeps_transform_apply (w : TransformWidget) :
  keeps (handle_transform_apply_button w) (fun _ => True).
Proof.
  unfold handle_transform_apply_button.
  apply bind_lift. intros [[linear angular_rpy] angular_q] Hr.
  apply bind_any; [apply keeps_get_selected | intros sel].
  destruct ((sel =? select_all) || (sel =? select_none))%Z%bool.
  - apply bind_poses. intros l Hl. apply bind_lift. intros l' Hrot.
    apply bind_any; [| intros _; apply keeps_publish_grasps].
    apply keeps_set_poses. eapply rotate_each_unit; eassumption.
  - apply bind_lift. intros pose_msg Hp.
    apply bind_poses. intros l Hl. apply bind_lift. intros l' Hset.
    apply bind_any; [| intros _; apply keeps_publish_grasps].
    apply keeps_set_poses.
    eapply setitem_unit; [exact Hl | eapply read_transform_pose; eassumption | exact Hset].
Qed.

Lemma keeps_transform_create (w : TransformWidget) :
  keeps (handle_transform_create_grasp_button w) (fun _ => True).
Proof.
  unfold handle_transform_create_grasp_button.
  apply bind_lift. intros [[linear angular_rpy] angular_q] Hr.
  apply bind_lift. intros pose_msg Hp.
  apply bind_any;
    [apply keeps_append_pose; eapply read_transform_pose; eassumption | intros _].
  apply bind_any.
  - apply bind_poses. intros l _. apply keeps_set_selected.
  - intros _. apply bind_any; [apply keeps_publish_grasps | intros _].
    apply keeps_update_grasp_number.
Qed.

(** X27: unit orientations are an invariant of the editor.  When every
    pose of the session has a unit quaternion as orientation, it still has
    after any of the buttons select, delete, unselect, apply pattern,
    apply transform and create grasp, whatever the widgets hold and
    whether the handler returns or raises. *)
Theorem handlers_keep_unit_orientations (w : Widget R) (tw : TransformWidget)
    (st : State R) :
  unit_poses st ->
  unit_poses (exec (handle_grasp_s_select_button w) st)
  /\ unit_poses (exec (handle_grasp_s_delete_button w) st)
  /\ unit_poses (exec (handle_grasp_s_unselect_button (num:=R)) st)
  /\ unit_poses (exec (handle_edit_g_apply_button w) st)
  /\ unit_poses (exec (handle_transform_apply_button tw) st)
  /\ unit_poses (exec (handle_transform_create_grasp_button tw) st).
Proof.
  intros Hst. repeat split.
  - exact (proj1 (@keeps_select w st Hst)).
  - exact (proj1 (@keeps_delete w st Hst)).
  - exact Hst.
  - exact (proj1 (@keeps_pattern w st Hst)).
  - exact (proj1 (@keeps_transform_apply tw st Hst)).
  - exact (proj1 (@keeps_transform_create tw st Hst)).
Qed.

Lemma convert_rpy_round_trip_witness :
  convert_rpy_rad_to_deg [1; 2] = Raise IndexError
  /\ exists in_deg in_rad,
       convert_rpy_rad_to_deg [PI; 0; 1; 5] = Ok in_deg /\
       convert_rpy_deg_to_rad in_deg = Ok [PI; 0; 1] /\
       convert_rpy_deg_to_rad [PI; 0; 1; 5] = Ok in_rad /\
       convert_rpy_rad_to_deg in_rad = Ok [PI; 0; 1] /\
       List.length in_deg = 3%nat /\ List.length in_rad = 3%nat.
Proof.
  split.
  - apply (proj1 (convert_rpy_round_trip [1; 2])). cbn. lia.
  - apply (proj2 (convert_rpy_round_trip [PI; 0; 1; 5])). cbn. lia.
Defined.

Lemma transform_apply_selected_witness :
  let w := example_transform true in
  let l := [upright 0; upright 1; upright 2] in
  handle_transform_apply_button w (session l 1)
  = (Ok tt,
     mkState (Some [upright 0; typed_pose w 1 2 3 0 0 90; upright 2]) 1%Z
             [(1%Z, Some [upright 0; typed_pose w 1 2 3 0 0 90; upright 2])]
             [] None).
Proof.
  cbv zeta.
  apply (proj1 (@transform_apply_selected (example_transform true)
                  (session [upright 0; upright 1; upright 2] 1)
                  [upright 0; upright 1; upright 2] 1
                  1 2 3 0 0 90 0 0 0 1 eq_refl eq_refl eq_refl
                  (le_n_S _ _ (le_n_S _ _ (Nat.le_0_l _))))).
Defined.

Lemma transform_apply_all_witness :
  let w := example_transform false in
  let l := [upright 0; upright 1] in
  handle_transform_apply_button w (session l select_none)
  = (Ok tt,
     mkState (Some (map (turned w 0 0 90) l)) select_none
             [(select_none, Some (map (turned w 0 0 90) l))] [] None).
Proof.
  cbv zeta.
  apply (proj1 (@transform_apply_all (example_transform false)
                  (session [upright 0; upright 1] select_none)
                  [upright 0; upright 1]
                  1 2 3 0 0 90 0 0 0 1 eq_refl eq_refl
                  (or_intror eq_refl))).
Defined.

Lemma create_then_delete_witness :
  let w := example_transform true in
  let l := [upright 0; upright 1] in
  handle_grasp_s_delete_button (number_widget 2)
    (snd (handle_transform_create_grasp_button w (session l 0)))
  = (Ok tt,
     mkState (Some l) select_none
             [(2%Z, Some (l ++ [typed_pose w 1 2 3 0 0 90]));
              (select_none, Some l)]
             [] (Some 2%nat)).
Proof.
  cbv zeta.
  apply (proj2 (@create_then_delete (example_transform true) (number_widget 2)
                  (session [upright 0; upright 1] 0) [upright 0; upright 1]
                  1 2 3 0 0 90 0 0 0 1 eq_refl eq_refl eq_refl eq_refl)).
Defined.

Lemma transform_buttons_errors_witness :
  let st := session [upright 0] 0 in
  (handle_transform_apply_button example_transform_no_yaw st
   = (Raise float_error, st)
   /\ handle_transform_create_grasp_button example_transform_no_yaw st
      = (Raise float_error, st))
  /\ handle_transform_apply_button (example_transform true)
       (session [upright 0] 4)
     = (Raise IndexError, session [upright 0] 4).
Proof.
  cbv zeta. split.
  - apply (proj1 (transform_buttons_errors example_transform_no_yaw
                    (session [upright 0] 0))).
    cbn. tauto.
  - apply (proj2 (proj2 (transform_buttons_errors (example_transform true)
                           (session [upright 0] 4)))
             ) with (l := [upright 0]).
    + cbn. intros H. repeat (destruct H as [H | H]; [discriminate |]). exact H.
    + reflexivity.
    + cbv. discriminate.
    + cbv. discriminate.
    + left. cbn. lia.
Defined.

Lemma handlers_keep_unit_orientations_witness :
  let w := circular_widget true false false 1 3 in
  let tw := example_transform true in
  let st := editing [upright 0; upright 1] in
  unit_poses (exec (handle_edit_g_apply_button w) st)
  /\ unit_poses (exec (handle_transform_create_grasp_button tw) st).
Proof.
  cbv zeta.
  destruct (@handlers_keep_unit_orientations
              (circular_widget true false false 1 3) (example_transform true)
              (editing [upright 0; upright 1]))
    as (_ & _ & _ & Hp & _ & Hc).
  - intros l E. injection E as <-.
    repeat constructor; unfold unit_pose, qnorm2, upright, qone;
      cbn [orientation q_x q_y q_z q_w]; ring.
  - split; [exact Hp | exact Hc].
Defined.

End TransformProps.

Module RoundTripProps.

Import Editor GraspYaml GraspYamlSpec GraspYamlProps RoundTripSpec.
Local Open Scope Q_scope.

Lemma rounded_close (x : Q) (y : yaml) : rounded x y -> close x y.
Proof.
  intros (v & -> & Hv). exists v. split; [reflexivity |].
  unfold half_unit. rewrite Hv. apply round6_close.
Qed.

Lemma pose_rounded_close (grasp : Pose Q) (p : Pose yaml) :
  pose_rounded grasp p -> pose_close grasp p.
Proof.
  intros (H1 & H2 & H3 & H4 & H5 & H6 & H7).
  repeat split; apply rounded_close; assumption.
Qed.

(** X28: saving and loading again.  A pose list that is not empty, saved
    under an object name that is a plain word and that
    [remove_object_id] leaves as it is, loads back from the written file:
    as many poses, in the same order, and each of the seven numbers of a
    pose is a float within 0.0000005 of the number saved. *)
Theorem save_then_load_close (remove_object_id : string -> string)
    (grasps : list (Pose Q)) (name : string) :
  plain_key name = true ->
  remove_object_id name = name ->
  grasps <> [] ->
  exists poses,
    save_then_load remove_object_id grasps name name
    = Some (Ok (PoseArray poses)) /\
    List.length poses = List.length grasps /\
    Forall2 pose_close grasps poses.
Proof.
  intros Hk Hid Hne.
  destruct (@save_then_load_roundtrip remove_object_id grasps name Hk Hid Hne)
    as (poses & Hload & Hall).
  exists poses. split; [exact Hload |]. split.
  - symmetry. eapply Forall2_length. exact Hall.
  - eapply Forall2_impl; [| exact Hall]. apply pose_rounded_close.
Qed.

(** X29: loading for another object.  When the class of the name asked
    for is not the name the file was saved under, the loader returns
    [None] and raises nothing, whatever the file holds under its own key;
    this includes the file of an empty pose list, which cannot be loaded
    under its own name. *)
Theorem save_then_load_other_name (remove_object_id : string -> string)
    (grasps : list (Pose Q)) (save_name load_name : string) :
  plain_key save_name = true ->
  remove_object_id load_name <> save_name ->
  save_then_load remove_object_id grasps save_name load_name
  = Some (Ok ReturnedNone).
Proof.
  intros Hk Hne.
  destruct (@yaml_full_load_written grasps save_name Hk) as (es & _ & Hload).
  unfold save_then_load. rewrite Hload.
  unfold load_grasps_from_yaml. cbn [lookup].
  destruct (String.eqb save_name (remove_object_id load_name)) eqn:E;
    [| reflexivity].
  apply String.eqb_eq in E. congruence.
Qed.

Lemma save_then_load_close_witness :
  exists poses,
    save_then_load (fun name => name) example_grasps "klt" "klt"
    = Some (Ok (PoseArray poses)) /\
    List.length poses = 2%nat /\
    Forall2 pose_close example_grasps poses.
Proof.
  apply (@save_then_load_close (fun name => name) example_grasps "klt").
  - reflexivity.
  - reflexivity.
  - discriminate.
Defined.

Lemma save_then_load_other_name_witness :
  save_then_load (fun name => name) [] "klt" "power_drill" = Some (Ok ReturnedNone)
  /\ save_then_load (fun name => name) example_grasps "klt" "power_drill"
     = Some (Ok ReturnedNone).
Proof.
  split.
  - apply (@save_then_load_other_name (fun name => name) [] "klt" "power_drill");
      [reflexivity | discriminate].
  - apply (@save_then_load_other_name (fun name => name) example_grasps
             "klt" "power_drill"); [reflexivity | discriminate].
Defined.

End RoundTripProps.
